(** * Soyio docs bot: the LLM-output recovery pipeline, enrichment and run

    A shallow embedding of queryPinecone ([src/pinecone-query.ts]), of the
    suggester the sources carry after it in the same file
    (generateSuggestions, escapeNewlinesInStrings) and of the entry point
    of the action (run, buildSearchQuery, getInput, normalizeModelName).

    JavaScript strings are sequences of UTF-16 code units; they are
    modelled as lists of code units, each an [N]. *)

From Stdlib Require Import String Ascii DecimalString DecimalPos.
From Stdlib Require Import List NArith ZArith Bool Lia Sorted.
Import ListNotations.

Set Warnings "-register-all".

Local Open Scope N_scope.

(** ** Code units and strings *)

Definition code_unit := N.
Definition jsstring := list code_unit.

Definition TAB : code_unit := 9.
Definition LF : code_unit := 10.
Definition CR : code_unit := 13.
Definition SPACE : code_unit := 32.
Definition DQUOTE : code_unit := 34.
Definition BACKSLASH : code_unit := 92.
Definition BACKTICK : code_unit := 96.
Definition LOWER_N : code_unit := 110.
Definition LBRACE : code_unit := 123.
Definition RBRACE : code_unit := 125.

(** A string literal of the source, as code units. *)
Definition js (s : string) : jsstring :=
  List.map N_of_ascii (list_ascii_of_string s).

(** The same, with every apostrophe of the literal standing for a double
    quote: used to write JSON texts. *)
Definition jsq (s : string) : jsstring :=
  List.map (fun c => if c =? 39 then DQUOTE else c) (js s).

Fixpoint jsstring_eqb (a b : jsstring) : bool :=
  match a, b with
  | [], [] => true
  | x :: a', y :: b' => (x =? y) && jsstring_eqb a' b'
  | _, _ => false
  end.

(** ** escapeNewlinesInStrings (pinecone-query.ts, 285-334) *)

(** The three variables of the loop: [inString], [escaped] and [out]. *)
Record scanner := mkScanner {
  inString : bool;
  escaped : bool;
  out : jsstring
}.

(** One iteration of the [for] loop, on the code unit [ch = input[i]]. *)
Definition scan_char (st : scanner) (ch : code_unit) : scanner :=
  if negb (inString st) then
    mkScanner (if ch =? DQUOTE then true else inString st)
              (escaped st) (out st ++ [ch])
  else if escaped st then
    mkScanner (inString st) false (out st ++ [ch])
  else if ch =? BACKSLASH then
    mkScanner (inString st) true (out st ++ [ch])
  else if ch =? DQUOTE then
    mkScanner false (escaped st) (out st ++ [ch])
  else if ch =? LF then
    mkScanner (inString st) (escaped st) (out st ++ [BACKSLASH; LOWER_N])
  else if ch =? CR then
    st
  else
    mkScanner (inString st) (escaped st) (out st ++ [ch]).

Definition escapeNewlinesInStrings (input : jsstring) : jsstring :=
  out (fold_left scan_char input (mkScanner false false [])).

(** ** The escaper as the specification words it (spec 4.1 and 9)

    The lexical position of a code unit: outside every string literal,
    inside one, or inside one right after a backslash. *)
Inductive position := Outside | InString | InStringEscaped.

(** An unescaped double quote toggles the position; a backslash inside a
    literal escapes the code unit that follows it. *)
Definition advance (p : position) (c : code_unit) : position :=
  match p with
  | Outside => if c =? DQUOTE then InString else Outside
  | InString =>
      if c =? BACKSLASH then InStringEscaped
      else if c =? DQUOTE then Outside
      else InString
  | InStringEscaped => InString
  end.

Definition position_after (prefix : jsstring) : position :=
  fold_left advance prefix Outside.

(** What the specification asks to be written for a code unit at a given
    position. *)
Definition rewritten (p : position) (c : code_unit) : jsstring :=
  match p with
  | Outside => [c]
  | InStringEscaped => [c]
  | InString =>
      if c =? LF then [BACKSLASH; LOWER_N]
      else if c =? CR then []
      else [c]
  end.

Fixpoint rewrite_from (p : position) (s : jsstring) : jsstring :=
  match s with
  | [] => []
  | c :: r => rewritten p c ++ rewrite_from (advance p c) r
  end.

(** The loop variables after a prefix, read off the lexical position. *)
Definition scanner_at (p : position) (o : jsstring) : scanner :=
  match p with
  | Outside => mkScanner false false o
  | InString => mkScanner true false o
  | InStringEscaped => mkScanner true true o
  end.

(** ** Values

    Numbers are IEEE doubles in the source.  Nothing here computes with
    them: the code only stores them, compares them with nothing, and tests
    them for truthiness ([x || 0]).  The number type is therefore an
    interface: a type with the number zero, the truthiness test of the
    language (false on zeros and NaN) and the value of a JSON number
    literal. *)
Class JSNumber := {
  number : Type;
  number_zero : number;
  number_truthy : number -> bool;
  StringToNumber : jsstring -> number
}.

Inductive error :=
| TypeError
| SyntaxError
| Error (message : jsstring).

(** A computation that returns or throws. *)
Inductive result (A : Type) :=
| Ok (a : A)
| Throw (e : error).
Arguments Ok {A} a.
Arguments Throw {A} e.

Definition bind {A B : Type} (r : result A) (k : A -> result B) : result B :=
  match r with
  | Ok a => k a
  | Throw e => Throw e
  end.

Notation "x <- r ;; k" := (bind r (fun x => k))
  (at level 61, r at next level, right associativity).

Fixpoint mapM {A B : Type} (f : A -> result B) (l : list A) : result (list B) :=
  match l with
  | [] => Ok []
  | a :: l' => b <- f a ;; bs <- mapM f l' ;; Ok (b :: bs)
  end.

(** JSON whitespace: tab, line feed, carriage return, space. *)
Definition isJSONWhiteSpace (c : code_unit) : bool :=
  (c =? TAB) || (c =? LF) || (c =? CR) || (c =? SPACE).

(** WhiteSpace and LineTerminator of the language: what [trim] strips and
    what [\s] matches. *)
Definition isWhiteSpace (c : code_unit) : bool :=
  ((9 <=? c) && (c <=? 13)) || (c =? 32) || (c =? 160) || (c =? 5760)
  || ((8192 <=? c) && (c <=? 8202)) || (c =? 8232) || (c =? 8233)
  || (c =? 8239) || (c =? 8287) || (c =? 12288) || (c =? 65279).

Definition isDigit (c : code_unit) : bool := (48 <=? c) && (c <=? 57).
Definition isDigit19 (c : code_unit) : bool := (49 <=? c) && (c <=? 57).

Definition hexValue (c : code_unit) : option N :=
  if isDigit c then Some (c - 48)
  else if (97 <=? c) && (c <=? 102) then Some (c - 87)
  else if (65 <=? c) && (c <=? 70) then Some (c - 55)
  else None.

(** ** JSON.parse

    The built-in decoder, after the JSON grammar of ECMA-262: a lexical
    grammar (tokens, JSON whitespace between them) and a syntactic one. *)
Inductive token :=
| TLBrace | TRBrace | TLBracket | TRBracket | TColon | TComma
| TNull | TTrue | TFalse
| TString (s : jsstring)
| TNumber (lexeme : jsstring).

(** Where the scan of a number literal stands. *)
Inductive num_state :=
| NMinus | NZero | NInt | NDot | NFrac | NExp | NExpSign | NExpDigits.

Definition num_accepting (st : num_state) : bool :=
  match st with
  | NZero | NInt | NFrac | NExpDigits => true
  | _ => false
  end.

Definition isExpMark (c : code_unit) : bool := (c =? 101) || (c =? 69).
Definition isSign (c : code_unit) : bool := (c =? 43) || (c =? 45).

(** The next state of a number literal on [c], when [c] belongs to it. *)
Definition num_next (st : num_state) (c : code_unit) : option num_state :=
  match st with
  | NMinus => if c =? 48 then Some NZero
              else if isDigit19 c then Some NInt else None
  | NZero => if c =? 46 then Some NDot
             else if isExpMark c then Some NExp else None
  | NInt => if isDigit c then Some NInt
            else if c =? 46 then Some NDot
            else if isExpMark c then Some NExp else None
  | NDot => if isDigit c then Some NFrac else None
  | NFrac => if isDigit c then Some NFrac
             else if isExpMark c then Some NExp else None
  | NExp => if isSign c then Some NExpSign
            else if isDigit c then Some NExpDigits else None
  | NExpSign => if isDigit c then Some NExpDigits else None
  | NExpDigits => if isDigit c then Some NExpDigits else None
  end.

Inductive lex_mode :=
| LDefault
| LString (acc : jsstring)
| LEscape (acc : jsstring)
| LUnicode (acc : jsstring) (remaining : nat) (code : N)
| LLiteral (rest : jsstring) (tok : token)
| LNumber (st : num_state) (lexeme : jsstring).

(** A code unit between tokens. *)
Definition lex_default (c : code_unit) : option (lex_mode * list token) :=
  if isJSONWhiteSpace c then Some (LDefault, [])
  else if c =? LBRACE then Some (LDefault, [TLBrace])
  else if c =? RBRACE then Some (LDefault, [TRBrace])
  else if c =? 91 then Some (LDefault, [TLBracket])
  else if c =? 93 then Some (LDefault, [TRBracket])
  else if c =? 58 then Some (LDefault, [TColon])
  else if c =? 44 then Some (LDefault, [TComma])
  else if c =? DQUOTE then Some (LString [], [])
  else if c =? 45 then Some (LNumber NMinus [c], [])
  else if c =? 48 then Some (LNumber NZero [c], [])
  else if isDigit19 c then Some (LNumber NInt [c], [])
  else if c =? 116 then Some (LLiteral (js "rue") TTrue, [])
  else if c =? 102 then Some (LLiteral (js "alse") TFalse, [])
  else if c =? 110 then Some (LLiteral (js "ull") TNull, [])
  else None.

(** The code unit an escape sequence of one letter denotes. *)
Definition escape_char (c : code_unit) : option code_unit :=
  if (c =? DQUOTE) || (c =? 47) || (c =? BACKSLASH) then Some c
  else if c =? 98 then Some 8
  else if c =? 102 then Some 12
  else if c =? 110 then Some 10
  else if c =? 114 then Some 13
  else if c =? 116 then Some 9
  else None.

Definition lex_step (m : lex_mode) (c : code_unit)
  : option (lex_mode * list token) :=
  match m with
  | LDefault => lex_default c
  | LString acc =>
      if c =? DQUOTE then Some (LDefault, [TString acc])
      else if c =? BACKSLASH then Some (LEscape acc, [])
      else if c <? 32 then None
      else Some (LString (acc ++ [c]), [])
  | LEscape acc =>
      if c =? 117 then Some (LUnicode acc 4 0, [])
      else match escape_char c with
           | Some d => Some (LString (acc ++ [d]), [])
           | None => None
           end
  | LUnicode acc remaining code =>
      match hexValue c with
      | Some h =>
          match remaining with
          | O => None
          | S O => Some (LString (acc ++ [code * 16 + h]), [])
          | S k => Some (LUnicode acc k (code * 16 + h), [])
          end
      | None => None
      end
  | LLiteral rest tok =>
      match rest with
      | [] => None
      | x :: rest' =>
          if c =? x then
            match rest' with
            | [] => Some (LDefault, [tok])
            | _ => Some (LLiteral rest' tok, [])
            end
          else None
      end
  | LNumber st lexeme =>
      match num_next st c with
      | Some st' => Some (LNumber st' (lexeme ++ [c]), [])
      | None =>
          if num_accepting st then
            match lex_default c with
            | Some (m', toks) => Some (m', TNumber lexeme :: toks)
            | None => None
            end
          else None
      end
  end.

(** The end of the text. *)
Definition lex_finish (m : lex_mode) : option (list token) :=
  match m with
  | LDefault => Some []
  | LNumber st lexeme => if num_accepting st then Some [TNumber lexeme] else None
  | _ => None
  end.

Fixpoint lex_from (m : lex_mode) (s : jsstring) : option (list token) :=
  match s with
  | [] => lex_finish m
  | c :: r =>
      match lex_step m c with
      | Some (m', toks) =>
          match lex_from m' r with
          | Some more => Some (toks ++ more)
          | None => None
          end
      | None => None
      end
  end.

Definition lex (text : jsstring) : option (list token) := lex_from LDefault text.

(** The lexical position of the escaper that corresponds to each mode of
    the JSON lexer. *)
Definition mode_position (m : lex_mode) : position :=
  match m with
  | LDefault | LLiteral _ _ | LNumber _ _ => Outside
  | LString _ | LUnicode _ _ _ => InString
  | LEscape _ => InStringEscaped
  end.

(** The letters still expected of a literal hold no double quote. *)
Definition mode_ok (m : lex_mode) : bool :=
  match m with
  | LLiteral rest _ => forallb (fun c => negb (c =? DQUOTE)) rest
  | _ => true
  end.

Section Model.
Context `{Num : JSNumber}.

(** The values of the language that the program handles: what JSON.parse
    builds, and [undefined].  An object is the list of its own properties,
    each key once, in the order they were first written; the language
    enumerates keys that are array indexes before the others, which nothing
    here observes: properties are only read by key. *)
Inductive value :=
| JUndefined
| JNull
| JBool (b : bool)
| JNumber (n : number)
| JString (s : jsstring)
| JArray (elements : list value)
| JObject (properties : list (jsstring * value)).

Fixpoint lookup (k : jsstring) (o : list (jsstring * value)) : option value :=
  match o with
  | [] => None
  | (k', v) :: o' => if jsstring_eqb k k' then Some v else lookup k o'
  end.

(** [o[k] = v]: the value of an existing property is replaced in place, a
    new property goes last. *)
Fixpoint set_prop (k : jsstring) (v : value) (o : list (jsstring * value))
  : list (jsstring * value) :=
  match o with
  | [] => [(k, v)]
  | (k', v') :: o' =>
      if jsstring_eqb k k' then (k', v) :: o' else (k', v') :: set_prop k v o'
  end.

(** The syntactic grammar.  [fuel] bounds the nesting depth plus the
    number of elements; the length of the token list is enough. *)
Fixpoint parse_value (fuel : nat) (ts : list token)
  : option (value * list token) :=
  match fuel with
  | O => None
  | S fuel' =>
      match ts with
      | TNull :: r => Some (JNull, r)
      | TTrue :: r => Some (JBool true, r)
      | TFalse :: r => Some (JBool false, r)
      | TNumber l :: r => Some (JNumber (StringToNumber l), r)
      | TString s :: r => Some (JString s, r)
      | TLBracket :: TRBracket :: r => Some (JArray [], r)
      | TLBracket :: r => parse_elements fuel' r []
      | TLBrace :: TRBrace :: r => Some (JObject [], r)
      | TLBrace :: r => parse_members fuel' r []
      | _ => None
      end
  end
with parse_elements (fuel : nat) (ts : list token) (acc : list value)
  : option (value * list token) :=
  match fuel with
  | O => None
  | S fuel' =>
      match parse_value fuel' ts with
      | Some (v, TComma :: r) => parse_elements fuel' r (acc ++ [v])
      | Some (v, TRBracket :: r) => Some (JArray (acc ++ [v]), r)
      | _ => None
      end
  end
with parse_members (fuel : nat) (ts : list token)
                   (acc : list (jsstring * value))
  : option (value * list token) :=
  match fuel with
  | O => None
  | S fuel' =>
      match ts with
      | TString k :: TColon :: r =>
          match parse_value fuel' r with
          | Some (v, TComma :: r') => parse_members fuel' r' (set_prop k v acc)
          | Some (v, TRBrace :: r') => Some (JObject (set_prop k v acc), r')
          | _ => None
          end
      | _ => None
      end
  end.

(** [JSON.parse(text)]: [None] stands for the SyntaxError it throws. *)
Definition JSON_parse (text : jsstring) : option value :=
  match lex text with
  | Some ts =>
      match parse_value (S (length ts)) ts with
      | Some (v, []) => Some v
      | _ => None
      end
  | None => None
  end.

(** A result reached with some fuel is reached with any fuel that is at
    least the number of tokens it consumed. *)
Definition settled {A : Type} (f : nat -> option (A * list token))
    (ts : list token) (m : nat) : Prop :=
  forall a rest,
    f m = Some (a, rest) ->
    (length rest < length ts)%nat /\
    forall n, (length ts - length rest <= n)%nat -> f n = Some (a, rest).

(** ** String helpers of the language used by generateSuggestions *)

(** [s.indexOf(c)] for a one-unit needle; -1 when absent. *)
Fixpoint indexOf (s : jsstring) (c : code_unit) : Z :=
  match s with
  | [] => (-1)%Z
  | x :: r =>
      if x =? c then 0%Z
      else let i := indexOf r c in
           if (i <? 0)%Z then (-1)%Z else (i + 1)%Z
  end.

(** [s.lastIndexOf(c)]; -1 when absent. *)
Fixpoint lastIndexOf (s : jsstring) (c : code_unit) : Z :=
  match s with
  | [] => (-1)%Z
  | x :: r =>
      let i := lastIndexOf r c in
      if (0 <=? i)%Z then (i + 1)%Z
      else if x =? c then 0%Z else (-1)%Z
  end.

(** [s.slice(from, to)], negative indexes counting from the end. *)
Definition slice (s : jsstring) (from to : Z) : jsstring :=
  let len := Z.of_nat (length s) in
  let clamp i := if (i <? 0)%Z then Z.max (len + i) 0 else Z.min i len in
  let a := clamp from in
  let b := clamp to in
  firstn (Z.to_nat (b - a)) (skipn (Z.to_nat a) s).

Fixpoint trimStart (s : jsstring) : jsstring :=
  match s with
  | [] => []
  | c :: r => if isWhiteSpace c then trimStart r else s
  end.

Definition trimEnd (s : jsstring) : jsstring := rev (trimStart (rev s)).

(** [s.trim()] *)
Definition trim (s : jsstring) : jsstring := trimEnd (trimStart s).

(** Does the string start with three backticks? *)
Definition starts_with_fence (s : jsstring) : bool :=
  match s with
  | a :: b :: c :: _ => (a =? BACKTICK) && (b =? BACKTICK) && (c =? BACKTICK)
  | _ => false
  end.

(** [s.replace(/```/g, '')]: every match, left to right, without overlap. *)
Fixpoint remove_fences (s : jsstring) : jsstring :=
  match s with
  | [] => []
  | a :: r =>
      if starts_with_fence s then
        match r with
        | _ :: _ :: r3 => remove_fences r3
        | _ => []
        end
      else a :: remove_fences r
  end.

(** The regular expression [/```(?:json)?\s*([\s\S]*?)```/i], piece by
    piece and with the backtracking order of the language: each function
    returns the capture group when the rest of the pattern matches. *)

(** [([\s\S]*?)```]: the lazy group takes the fewest code units that let
    the closing fence match. *)
Fixpoint lazy_until_fence (s : jsstring) : option jsstring :=
  if starts_with_fence s then Some []
  else match s with
       | [] => None
       | c :: r =>
           match lazy_until_fence r with
           | Some cap => Some (c :: cap)
           | None => None
           end
       end.

(** [\s*] and what follows: greedy, one more space first, and given back
    if the rest then fails. *)
Fixpoint greedy_space (s : jsstring) : option jsstring :=
  match s with
  | [] => lazy_until_fence []
  | c :: r =>
      if isWhiteSpace c then
        match greedy_space r with
        | Some cap => Some cap
        | None => lazy_until_fence s
        end
      else lazy_until_fence s
  end.

(** The letters of [json], in either case (flag [i]). *)
Definition json_tag (s : jsstring) : option jsstring :=
  match s with
  | a :: b :: c :: d :: r =>
      if ((a =? 106) || (a =? 74)) && ((b =? 115) || (b =? 83))
         && ((c =? 111) || (c =? 79)) && ((d =? 110) || (d =? 78))
      then Some r else None
  | _ => None
  end.

(** [(?:json)?] and what follows: with the tag first, without it if the
    rest then fails. *)
Definition optional_tag (s : jsstring) : option jsstring :=
  match json_tag s with
  | Some r =>
      match greedy_space r with
      | Some cap => Some cap
      | None => greedy_space s
      end
  | None => greedy_space s
  end.

Definition match_here (s : jsstring) : option jsstring :=
  if starts_with_fence s then optional_tag (skipn 3 s) else None.

(** [rawText.match(...)]: the leftmost position where the pattern matches;
    the result is the capture group [jsonMatch[1]]. *)
Fixpoint fence_match (s : jsstring) : option jsstring :=
  match match_here s with
  | Some cap => Some cap
  | None =>
      match s with
      | [] => None
      | _ :: r => fence_match r
      end
  end.

(** ** Records of the source *)

Record QueryResult := mkQueryResult {
  file : jsstring;
  chunkIndex : number;
  startLine : number;
  endLine : number;
  text : jsstring;
  score : number
}.

(** [MatchMetadata]: every field may be missing. *)
Record MatchMetadata := mkMatchMetadata {
  md_file : option jsstring;
  md_chunkIndex : option number;
  md_startLine : option number;
  md_endLine : option number;
  md_text : option jsstring
}.

(** An element of [queryResponse.matches]. *)
Record ScoredMatch := mkScoredMatch {
  metadata : option MatchMetadata;
  match_score : option number
}.

(** [x || d] on a string that may be missing: the empty string is falsy. *)
Definition or_string (x : option jsstring) (d : jsstring) : jsstring :=
  match x with
  | Some (c :: r) => c :: r
  | _ => d
  end.

(** [x || d] on a number that may be missing. *)
Definition or_number (x : option number) (d : number) : number :=
  match x with
  | Some n => if number_truthy n then n else d
  | None => d
  end.

(** [match.metadata?.f] *)
Definition meta {A : Type} (m : ScoredMatch) (f : MatchMetadata -> option A)
  : option A :=
  match metadata m with
  | Some md => f md
  | None => None
  end.

(** The arrow function given to [matches.map] (lines 51-58). *)
Definition format_match (m : ScoredMatch) : QueryResult :=
  mkQueryResult
    (or_string (meta m md_file) (js "unknown"))
    (or_number (meta m md_chunkIndex) number_zero)
    (or_number (meta m md_startLine) number_zero)
    (or_number (meta m md_endLine) number_zero)
    (or_string (meta m md_text) [])
    (or_number (match_score m) number_zero).

(** queryPinecone (lines 16-61).  The two collaborators are given by what
    they answer: [embedContent] the embeddings of the query, if any, and
    [query] the matches of the index, if the field is there. *)
Definition queryPinecone
    (embedContent : result (option (list number)))
    (query : list number -> result (option (list ScoredMatch)))
  : result (list QueryResult) :=
  embedding <- embedContent ;;
  match embedding with
  | None => Throw (Error (js "Failed to generate query embedding"))
  | Some queryEmbedding =>
      queryResponse <- query queryEmbedding ;;
      let matches := match queryResponse with Some l => l | None => [] end in
      Ok (List.map format_match matches)
  end.

(** ** Property access *)

Definition field (o : list (jsstring * value)) (k : jsstring) : value :=
  match lookup k o with
  | Some v => v
  | None => JUndefined
  end.

(** [v.k] for a key [k] that is no index, not [length] and no method of a
    prototype (the code reads [suggestions] and [target_file]): a
    TypeError on [null] and [undefined], the own property of an object,
    [undefined] on every other value. *)
Definition get_prop (v : value) (k : jsstring) : result value :=
  match v with
  | JUndefined | JNull => Throw TypeError
  | JObject o => Ok (field o k)
  | _ => Ok JUndefined
  end.

(** The decimal key of an index. *)
Definition index_key (i : nat) : jsstring :=
  js (NilEmpty.string_of_uint (Nat.to_uint i)).

Fixpoint indexed {A : Type} (f : A -> value) (i : nat) (l : list A)
  : list (jsstring * value) :=
  match l with
  | [] => []
  | a :: l' => (index_key i, f a) :: indexed f (S i) l'
  end.

(** The own enumerable properties that [{...v}] copies. *)
Definition spread (v : value) : list (jsstring * value) :=
  match v with
  | JObject o => o
  | JArray l => indexed (fun x => x) 0 l
  | JString s => indexed (fun c => JString [c]) 0 s
  | _ => []
  end.

(** ** generateSuggestions: the steps after the model answered *)

(** [candidate.content?.parts]: the [text] of each part, when there. *)
Definition candidate := option (list (option jsstring)).

(** [array.join(sep)]: a missing element counts as the empty string. *)
Fixpoint join (sep : jsstring) (l : list (option jsstring)) : jsstring :=
  match l with
  | [] => []
  | [x] => match x with Some s => s | None => [] end
  | x :: l' => match x with Some s => s | None => [] end ++ sep ++ join sep l'
  end.

(** Line 224. *)
Definition extract_rawText (c : candidate) : jsstring :=
  match c with
  | Some parts => trim (join [LF] parts)
  | None => []
  end.

(** Lines 232-237. *)
Definition sanitize (rawText : jsstring) : jsstring :=
  let jsonString :=
    match fence_match rawText with
    | Some cap => cap
    | None => rawText
    end in
  escapeNewlinesInStrings (trim (remove_fences jsonString)).

Definition parsing_error_response : value :=
  JObject [ (js "impact_level", JString (js "none"));
            (js "summary",
             JString (js "Unable to generate suggestions due to parsing error."));
            (js "suggestions", JArray []) ].

Definition no_valid_response : value :=
  JObject [ (js "impact_level", JString (js "none"));
            (js "summary",
             JString (js "Unable to generate suggestions - no valid response."));
            (js "suggestions", JArray []) ].

(** How lines 240-268 end: with a value in [parsed], or with a [return]. *)
Inductive parse_outcome :=
| Parsed (parsed : value)
| Returned (response : value).

(** Lines 240-268. *)
Definition parse_with_fallback (sanitized : jsstring) : parse_outcome :=
  match JSON_parse (trim sanitized) with
  | Some v => Parsed v
  | None =>
      let startIdx := indexOf sanitized LBRACE in
      let endIdx := lastIndexOf sanitized RBRACE in
      if negb (startIdx =? -1)%Z && negb (endIdx =? -1)%Z then
        let extracted := slice sanitized startIdx (endIdx + 1) in
        match JSON_parse extracted with
        | Some v => Parsed v
        | None => Returned parsing_error_response
        end
      else Returned no_valid_response
  end.

(** [docsContext.find(d => d.file === s.target_file)]: the callback reads
    [s.target_file] once for each record it is called on. *)
Fixpoint find_doc (docsContext : list QueryResult) (s : value)
  : result (option QueryResult) :=
  match docsContext with
  | [] => Ok None
  | d :: rest =>
      target <- get_prop s (js "target_file") ;;
      match target with
      | JString t => if jsstring_eqb (file d) t then Ok (Some d)
                     else find_doc rest s
      | _ => find_doc rest s
      end
  end.

(** [matchingDoc?.startLine] *)
Definition line_of (f : QueryResult -> number) (matchingDoc : option QueryResult)
  : value :=
  match matchingDoc with
  | Some d => JNumber (f d)
  | None => JUndefined
  end.

(** The arrow function given to [parsed.suggestions.map] (lines 271-278). *)
Definition enrich_suggestion (docsContext : list QueryResult) (s : value)
  : result value :=
  matchingDoc <- find_doc docsContext s ;;
  Ok (JObject (set_prop (js "end_line") (line_of endLine matchingDoc)
                 (set_prop (js "start_line") (line_of startLine matchingDoc)
                    (spread s)))).

(** Lines 271-278: [parsed.suggestions = parsed.suggestions.map(...)].
    Only an array has a [map] to call. *)
Definition enrich (parsed : value) (docsContext : list QueryResult)
  : result value :=
  suggestions <- get_prop parsed (js "suggestions") ;;
  match suggestions, parsed with
  | JArray l, JObject o =>
      l' <- mapM (enrich_suggestion docsContext) l ;;
      Ok (JObject (set_prop (js "suggestions") (JArray l') o))
  | _, _ => Throw TypeError
  end.

(** Lines 231-280: from the raw text to the value returned. *)
Definition parse_and_enrich (rawText : jsstring) (docsContext : list QueryResult)
  : result value :=
  match parse_with_fallback (sanitize rawText) with
  | Returned response => Ok response
  | Parsed parsed => enrich parsed docsContext
  end.

(** generateSuggestions (lines 161-281).  [generateContent] is what the
    model call answers: it throws, or gives a response whose first
    candidate may be missing.  The prompt is not modelled. *)
Definition generateSuggestions
    (generateContent : result (option candidate))
    (docsContext : list QueryResult) : result value :=
  response <- generateContent ;;
  match response with
  | None => Throw (Error (js "No response from Gemini"))
  | Some c => parse_and_enrich (extract_rawText c) docsContext
  end.

(** ** The interfaces Suggestion and LLMResponse, as tests on values *)

Definition is_string (v : value) : bool :=
  match v with JString _ => true | _ => false end.

Definition is_number (v : value) : bool :=
  match v with JNumber _ => true | _ => false end.

Definition one_of (options : list jsstring) (v : value) : bool :=
  match v with
  | JString s => existsb (jsstring_eqb s) options
  | _ => false
  end.

(** A field declared with [?]. *)
Definition optional (p : value -> bool) (v : value) : bool :=
  match v with JUndefined => true | _ => p v end.

Definition is_Suggestion (v : value) : bool :=
  match v with
  | JObject o =>
      is_string (field o (js "target_file"))
      && is_string (field o (js "target_section"))
      && one_of [js "update"; js "add"; js "remove"] (field o (js "type"))
      && is_string (field o (js "rationale"))
      && is_string (field o (js "suggested_text"))
      && one_of [js "info"; js "warning"; js "critical"]
                (field o (js "severity"))
      && optional is_number (field o (js "start_line"))
      && optional is_number (field o (js "end_line"))
  | _ => false
  end.

(** What enrichment needs of [parsed] to call [map]: an object whose
    [suggestions] is an array. *)
Definition has_suggestions_array (v : value) : bool :=
  match v with
  | JObject o =>
      match field o (js "suggestions") with
      | JArray _ => true
      | _ => false
      end
  | _ => false
  end.

Definition is_LLMResponse (v : value) : bool :=
  match v with
  | JObject o =>
      one_of [js "none"; js "low"; js "medium"; js "high"]
             (field o (js "impact_level"))
      && is_string (field o (js "summary"))
      && optional is_string (field o (js "comment_intro"))
      && match field o (js "suggestions") with
         | JArray l => forallb is_Suggestion l
         | _ => false
         end
  | _ => false
  end.

(** ** The comment transport and the trace of a run *)

Record ExistingComment := mkComment {
  comment_id : Z;
  comment_body : jsstring
}.

(** What is given to [core.setOutput]: the length of an array, or a
    value. *)
Inductive output :=
| Count (n : nat)
| Value (v : value).

(** The calls a run issues to its collaborators and to the runner, in the
    order it issues them.  Log lines are not recorded. *)
Inductive call :=
| PullsGet (owner : jsstring) (repo : option jsstring) (pull_number : Z)
| PullsListFiles (owner : jsstring) (repo : option jsstring) (pull_number : Z)
| SearchQueryContent
| QueryPinecone (queryText : jsstring) (topK : option Z)
| GenerateSuggestions
| ListComments (owner : jsstring) (repo : option jsstring) (issue_number : Z)
| UpdateComment (owner : jsstring) (repo : option jsstring) (id : Z)
                (body : jsstring)
| CreateComment (owner : jsstring) (repo : option jsstring) (issue_number : Z)
                (body : jsstring)
| SetOutput (name : jsstring) (v : output)
| SetFailed (e : error)
| ProcessExit (code : Z).

(** The calls that write a comment. *)
Definition is_comment_write (c : call) : bool :=
  match c with
  | UpdateComment _ _ _ _ | CreateComment _ _ _ _ => true
  | _ => false
  end.

(** An asynchronous computation: the calls issued so far, and how it
    ended. *)
Definition action (A : Type) : Type := (list call * result A)%type.

Definition done {A : Type} (r : result A) : action A := ([], r).

(** One awaited call and its answer. *)
Definition perform {A : Type} (c : call) (answer : result A) : action A :=
  ([c], answer).

Definition andThen {A B : Type} (m : action A) (k : A -> action B) : action B :=
  match m with
  | (t, Ok a) => let (t', r) := k a in (t ++ t', r)
  | (t, Throw e) => (t, Throw e)
  end.

(** [try { m } catch (e) { handler e }] *)
Definition tryCatch {A : Type} (m : action A) (handler : error -> action A)
  : action A :=
  match m with
  | (t, Ok a) => (t, Ok a)
  | (t, Throw e) => let (t', r) := handler e in (t ++ t', r)
  end.

(** An action that issues no comment write. *)
Definition quiet {A : Type} (m : action A) : Prop :=
  forall c, In c (fst m) -> is_comment_write c = false.

(** An action that ends by throwing. *)
Definition failed {A : Type} (m : action A) : Prop :=
  exists e, snd m = Throw e.

Fixpoint starts_with (p s : jsstring) : bool :=
  match p, s with
  | [], _ => true
  | x :: p', y :: s' => (x =? y) && starts_with p' s'
  | _ :: _, [] => false
  end.

(** [s.includes(sub)] *)
Fixpoint includes (s sub : jsstring) : bool :=
  starts_with sub s
  || match s with
     | [] => false
     | _ :: r => includes r sub
     end.

(** [s] contains [sub]: some code units, then [sub], then the rest. *)
Definition contains (s sub : jsstring) : Prop :=
  exists a b, s = a ++ sub ++ b.

(** What the comment transport answers. *)
Record Transport := mkTransport {
  listComments : result (list ExistingComment);
  updateComment : result unit;
  createComment : result unit
}.

(** Modelled from the spec: postComment of [pr-comment.ts], which is not
    among the sources (only its tests and its caller are).  After spec
    4.4: list the comments, find the first one whose body contains the
    marker, update it if there is one and create a comment otherwise. *)
Definition postComment (marker : jsstring) (gh : Transport)
    (owner : jsstring) (repo : option jsstring) (prNumber : Z)
    (body : jsstring) : action unit :=
  andThen (perform (ListComments owner repo prNumber) (listComments gh))
    (fun comments =>
       match find (fun c => includes (comment_body c) marker) comments with
       | Some existing =>
           perform (UpdateComment owner repo (comment_id existing) body)
                   (updateComment gh)
       | None =>
           perform (CreateComment owner repo prNumber body) (createComment gh)
       end).

(** ** run (the entry point) *)

(** Where the inputs of a run come from. *)
Record Inputs := mkInputs {
  core_getInput : jsstring -> jsstring;
  process_env : jsstring -> option jsstring;
  payload_pull_request_number : option Z;
  payload_repository_full_name : option jsstring
}.

(** [s.toUpperCase()], on the ASCII names the code gives it: the letters a
    to z are mapped, and no other code unit (the language also maps letters
    beyond ASCII). *)
Definition toUpperCase (s : jsstring) : jsstring :=
  List.map (fun c => if (97 <=? c) && (c <=? 122) then c - 32 else c) s.

(** [x || y] on strings that may be missing. *)
Definition or_else (x : option jsstring) (y : option jsstring)
  : option jsstring :=
  match x with
  | Some (c :: r) => Some (c :: r)
  | _ => y
  end.

Definition getInput (i : Inputs) (name : jsstring) (required : bool)
  : result jsstring :=
  match core_getInput i name with
  | c :: r => Ok (c :: r)
  | [] =>
      let envVarName :=
        js "INPUT_"
        ++ List.map (fun c => if c =? 45 then 95 else c) (toUpperCase name) in
      let envValue :=
        or_else (process_env i envVarName) (process_env i (toUpperCase name)) in
      match envValue with
      | Some (c :: r) => Ok (c :: r)
      | _ =>
          if required then
            Throw (Error (js "Required input '" ++ name ++ js "' not provided"))
          else Ok []
      end
  end.

Definition normalizeModelName (model : jsstring) : jsstring :=
  match model with
  | [] => js "models/gemini-2.5-pro"
  | _ => if starts_with (js "models/") model then model
         else js "models/" ++ model
  end.

Fixpoint leading_digits (s : jsstring) : list N :=
  match s with
  | c :: r => if isDigit c then (c - 48) :: leading_digits r else []
  | [] => []
  end.

(** [parseInt(s, 10)]; [None] is NaN.  The value is the exact integer:
    the language rounds it to a double, which is the same number up to
    2^53. *)
Definition parseInt (s : jsstring) : option Z :=
  let s1 := trimStart s in
  let '(negative, s2) :=
    match s1 with
    | c :: r => if c =? 45 then (true, r)
                else if c =? 43 then (false, r) else (false, s1)
    | [] => (false, [])
    end in
  match leading_digits s2 with
  | [] => None
  | ds =>
      let n := fold_left (fun acc d => (acc * 10 + Z.of_N d)%Z) ds 0%Z in
      Some (if negative then (- n)%Z else n)
  end.

(** [String(n)] for an integer below 1e21, which the language writes with
    all its digits (from 1e21 on it writes an exponent). *)
Definition String_of_Z (n : Z) : jsstring :=
  js (NilZero.string_of_int (Z.to_int n)).

(** [s.split('/')] *)
Fixpoint split_slash (s : jsstring) (current : jsstring) : list jsstring :=
  match s with
  | [] => [current]
  | c :: r => if c =? 47 then current :: split_slash r []
              else split_slash r (current ++ [c])
  end.

Record PullRequest := mkPullRequest {
  title : jsstring;
  body : option jsstring
}.

Record PullFile := mkPullFile {
  filename : jsstring;
  patch : option jsstring
}.

Definition or_empty (x : option jsstring) : jsstring :=
  match x with Some s => s | None => [] end.

(** [a.filter(Boolean).join(sep)] on strings. *)
Definition join_nonempty (sep : jsstring) (l : list jsstring) : jsstring :=
  join sep (List.map Some (filter (fun s => negb (jsstring_eqb s [])) l)).

(** buildSearchQuery.  [responseText] is what the model call gives: it
    throws, or answers with a text that may be missing. *)
Definition buildSearchQuery (responseText : result (option jsstring))
    (prTitle prBody : jsstring) (files : list PullFile) : action jsstring :=
  andThen (perform SearchQueryContent responseText)
    (fun answered =>
       match trim (or_empty answered) with
       | c :: r => done (Ok (slice (c :: r) 0 200))
       | [] =>
           let fallback :=
             join_nonempty (js " | ")
               [ match prTitle with [] => js "PR changes" | _ => prTitle end;
                 join (js ", ")
                      (List.map (fun f => Some (filename f)) (firstn 5 files));
                 prBody ] in
           done (Ok (match fallback with
                     | [] => js "Documentation search for PR changes"
                     | _ => slice fallback 0 200
                     end))
       end).

(** What the collaborators of a run answer. *)
Record World := mkWorld {
  pulls_get : result PullRequest;
  pulls_listFiles : result (list PullFile);
  searchQuery_text : result (option jsstring);
  embedContent : result (option (list number));
  index_query : list number -> result (option (list ScoredMatch));
  generateContent : result (option candidate);
  transport : Transport
}.

Section Run.

(** [formatComment] and the marker of [pr-comment.ts] are not among the
    sources: they are parameters of the run. *)
Variable formatComment : value -> result jsstring.
Variable marker : jsstring.

Definition is_true_string (x : option jsstring) : bool :=
  match x with
  | Some s => jsstring_eqb s (js "true")
  | None => false
  end.

Definition is_set (x : option jsstring) : bool :=
  match x with
  | Some (_ :: _) => true
  | _ => false
  end.

(** Lines 131-231 of run: from the fetch of the pull request to the
    outputs. *)
Definition run_steps (i : Inputs) (w : World) (topK : option Z)
    (prNumber : Z) (owner : jsstring) (repoName : option jsstring)
  : action unit :=
  andThen (perform (PullsGet owner repoName prNumber) (pulls_get w)) (fun pr =>
  andThen (perform (PullsListFiles owner repoName prNumber)
                   (pulls_listFiles w)) (fun files =>
  let baseQuery :=
    slice
      (join [LF]
         (Some (title pr) :: Some (or_empty (body pr))
          :: firstn 5
               (List.map (fun f => Some (filename f ++ js ": "
                                         ++ or_empty (patch f))) files)))
      0 5000 in
  andThen
    (tryCatch
       (buildSearchQuery (searchQuery_text w) (title pr)
                         (or_empty (body pr)) files)
       (fun _ => done (Ok baseQuery))) (fun pineconeQueryText =>
  andThen (perform (QueryPinecone pineconeQueryText topK)
                   (queryPinecone (embedContent w) (index_query w)))
          (fun docsContext =>
  andThen (perform GenerateSuggestions
                   (generateSuggestions (generateContent w) docsContext))
          (fun response =>
  andThen (done (suggestions <- get_prop response (js "suggestions") ;;
                 match suggestions with
                 | JUndefined | JNull => Throw TypeError
                 | _ => Ok suggestions
                 end)) (fun suggestions =>
  andThen (done (formatComment response)) (fun comment =>
  let isDryRun := is_true_string (process_env i (js "DRY_RUN")) in
  andThen (if isDryRun then done (Ok tt)
           else postComment marker (transport w) owner repoName prNumber
                            comment) (fun _ =>
  andThen (perform (SetOutput (js "suggestions_count")
                      (match suggestions with
                       | JArray l => Count (length l)
                       | _ => Value JUndefined
                       end)) (Ok tt)) (fun _ =>
  perform (SetOutput (js "impact_level")
             (Value (match response with
                     | JObject o => field o (js "impact_level")
                     | _ => JUndefined
                     end))) (Ok tt)))))))))).

(** The [try] block of run (lines 97-232). *)
Definition run_body (i : Inputs) (w : World) : action unit :=
  andThen (done (getInput i (js "pinecone_api_key") true)) (fun pineconeApiKey =>
  andThen (done (getInput i (js "pinecone_index") true)) (fun pineconeIndex =>
  andThen (done (getInput i (js "gemini_api_key") true)) (fun geminiApiKey =>
  andThen (done (getInput i (js "gemini_model") false)) (fun model =>
  let geminiModel :=
    normalizeModelName
      (match model with [] => js "gemini-2.5-pro" | _ => model end) in
  andThen (done (getInput i (js "github_token") true)) (fun githubToken =>
  andThen (done (getInput i (js "top_k") false)) (fun top_k =>
  let topK := parseInt (match top_k with [] => js "5" | _ => top_k end) in
  andThen (done (getInput i (js "prompt_instruction") false)) (fun promptInstruction =>
  andThen (done (getInput i (js "pr_number") false)) (fun pr_number =>
  let prNumber :=
    parseInt
      (match pr_number with
       | [] => String_of_Z
                 (match payload_pull_request_number i with
                  | Some n => n
                  | None => 0%Z
                  end)
       | _ => pr_number
       end) in
  andThen (done (getInput i (js "repo") false)) (fun repo_input =>
  let repo :=
    match repo_input with
    | [] => or_empty (payload_repository_full_name i)
    | _ => repo_input
    end in
  match prNumber, repo with
  | None, _ | Some 0%Z, _ | _, [] =>
      done (Throw (Error (js "Could not determine PR number or repository")))
  | Some prNumber, _ =>
      let parts := split_slash repo [] in
      run_steps i w topK prNumber (nth 0 parts []) (nth_error parts 1)
  end))))))))).

(** A terminal failure upstream of comment formatting: the pull request
    or its files cannot be fetched, the Pinecone query throws, or
    generateSuggestions throws on the records the query gave. *)
Definition upstream_failed (w : World) : Prop :=
  (exists e, pulls_get w = Throw e) \/
  (exists e, pulls_listFiles w = Throw e) \/
  (exists e, queryPinecone (embedContent w) (index_query w) = Throw e) \/
  (exists docsContext e,
     queryPinecone (embedContent w) (index_query w) = Ok docsContext /\
     generateSuggestions (generateContent w) docsContext = Throw e).

(** run (lines 96-242): the [try] block and its [catch]. *)
Definition run (i : Inputs) (w : World) : list call :=
  fst (tryCatch (run_body i w)
         (fun e =>
            andThen (perform (SetFailed e) (Ok tt)) (fun _ =>
            if is_set (process_env i (js "GITHUB_ACTIONS")) then done (Ok tt)
            else perform (ProcessExit 1) (Ok tt)))).

End Run.

End Model.

(** Three backticks. *)
Definition FENCE : jsstring := [BACKTICK; BACKTICK; BACKTICK].

(** ** An instance to run the model on concrete inputs

    Numbers as the decimal literals that denote them; a literal is truthy
    when its mantissa has a digit other than zero. *)
Fixpoint literal_truthy (l : jsstring) : bool :=
  match l with
  | [] => false
  | c :: r => if isExpMark c then false else isDigit19 c || literal_truthy r
  end.

Definition literal_number : JSNumber :=
  {| number := jsstring;
     number_zero := js "0";
     number_truthy := literal_truthy;
     StringToNumber := fun lexeme => lexeme |}.

(** ** Concrete inputs *)

Module Examples.

#[local] Existing Instance literal_number.

(** Lines joined by line feeds. *)
Definition lines (l : list jsstring) : jsstring :=
  join [LF] (List.map Some l).

(** The answer of the model in the test of generateSuggestions: a fenced
    block whose [suggested_text] has a literal newline. *)
Definition test_rawText : jsstring :=
  lines [ js "```json";
          jsq "{";
          jsq "  'impact_level': 'low',";
          jsq "  'summary': 'Update intro',";
          jsq "  'suggestions': [";
          jsq "    {";
          jsq "      'target_file': 'docs/guide.md',";
          jsq "      'target_section': 'Intro',";
          jsq "      'type': 'update',";
          jsq "      'rationale': 'Keep docs in sync',";
          jsq "      'suggested_text': 'First line";
          jsq "Second line',";
          jsq "      'severity': 'info'";
          jsq "    }";
          jsq "  ]";
          jsq "}";
          js "```" ].

Definition test_docsContext : list QueryResult :=
  [ mkQueryResult (js "docs/guide.md") (js "0") (js "10") (js "20")
                  (js "Guide section") (js "0.9") ].

Definition test_suggestion_fields : list (jsstring * value) :=
  [ (js "target_file", JString (js "docs/guide.md"));
    (js "target_section", JString (js "Intro"));
    (js "type", JString (js "update"));
    (js "rationale", JString (js "Keep docs in sync"));
    (js "suggested_text",
     JString (js "First line" ++ [LF] ++ js "Second line"));
    (js "severity", JString (js "info")) ].

Definition test_suggestion (start_line end_line : value) : value :=
  JObject (test_suggestion_fields
           ++ [ (js "start_line", start_line); (js "end_line", end_line) ]).

Definition test_response (suggestions : list value) : value :=
  JObject [ (js "impact_level", JString (js "low"));
            (js "summary", JString (js "Update intro"));
            (js "suggestions", JArray suggestions) ].

(** A response without suggestions, its JSON text between the braces, and
    the text itself. *)
Definition empty_set : value :=
  JObject [ (js "impact_level", JString (js "none"));
            (js "summary", JString (js "ok"));
            (js "suggestions", JArray []) ].

Definition empty_set_inside : jsstring :=
  jsq "'impact_level':'none','summary':'ok','suggestions':[]".

Definition empty_set_json : jsstring :=
  LBRACE :: empty_set_inside ++ [RBRACE].

(** A response whose summary quotes a triple backtick. *)
Definition fence_in_summary : value :=
  JObject [ (js "impact_level", JString (js "low"));
            (js "summary", JString (js "Use ```ts fences"));
            (js "suggestions", JArray []) ].

Definition fence_in_summary_json : jsstring :=
  jsq "{'impact_level':'low','summary':'Use ```ts fences','suggestions':[]}".

(** A suggestion for [docs/a.md], before enrichment. *)
Definition suggestion_a : list (jsstring * value) :=
  [ (js "target_file", JString (js "docs/a.md"));
    (js "target_section", JString (js "Intro"));
    (js "type", JString (js "add"));
    (js "rationale", JString (js "New option"));
    (js "suggested_text", JString (js "Describe the option"));
    (js "severity", JString (js "warning")) ].

Definition response_a : list (jsstring * value) :=
  [ (js "impact_level", JString (js "medium"));
    (js "summary", JString (js "Document the option"));
    (js "suggestions", JArray [JObject suggestion_a]) ].

Definition docs_a : list QueryResult :=
  [ mkQueryResult (js "docs/b.md") (js "1") (js "30") (js "40") (js "B")
                  (js "0.7");
    mkQueryResult (js "docs/a.md") (js "0") (js "10") (js "20") (js "A")
                  (js "0.5");
    mkQueryResult (js "docs/a.md") (js "1") (js "50") (js "60") (js "A2")
                  (js "0.4") ].

(** A match without metadata and without score. *)
Definition bare_match : ScoredMatch := mkScoredMatch None None.

Definition test_embedding : result (option (list number)) :=
  Ok (Some [js "0.1"; js "0.2"; js "0.3"]).

Definition bare_query (vector : list number)
  : result (option (list ScoredMatch)) :=
  Ok (Some [bare_match]).

Definition unknown_record : QueryResult :=
  mkQueryResult (js "unknown") (js "0") (js "0") (js "0") [] (js "0").

(** The comments of the first test of postComment. *)
Definition test_comments : list ExistingComment :=
  [ mkComment 42 (js "Documentation Update Suggestions") ].

Definition test_transport : Transport :=
  mkTransport (Ok test_comments) (Ok tt) (Ok tt).

Definition test_marker : jsstring := js "Documentation Update Suggestions".

(** Inputs of a run on pull request 7 of [owner/repo]. *)
Definition test_inputs : Inputs :=
  mkInputs
    (fun name =>
       if jsstring_eqb name (js "pinecone_api_key") then js "pinecone-key"
       else if jsstring_eqb name (js "pinecone_index") then js "docs-index"
       else if jsstring_eqb name (js "gemini_api_key") then js "gemini-key"
       else if jsstring_eqb name (js "github_token") then js "token"
       else if jsstring_eqb name (js "pr_number") then js "7"
       else if jsstring_eqb name (js "repo") then js "owner/repo"
       else [])
    (fun name =>
       if jsstring_eqb name (js "GITHUB_ACTIONS") then Some (js "true")
       else None)
    None None.

Definition test_pr : PullRequest :=
  mkPullRequest (js "Add guide updates") (Some (js "PR body")).

Definition test_files : list PullFile :=
  [ mkPullFile (js "src/index.ts") (Some (js "+ new line")) ].

(** A world where every collaborator answers. *)
Definition answering_world : World :=
  mkWorld (Ok test_pr) (Ok test_files) (Ok (Some (js "guide updates")))
          (Ok (Some [js "0.1"; js "0.2"]))
          (fun _ => Ok (Some [ mkScoredMatch
                                 (Some (mkMatchMetadata
                                          (Some (js "docs/guide.md"))
                                          (Some (js "0")) (Some (js "10"))
                                          (Some (js "20"))
                                          (Some (js "Guide section"))))
                                 (Some (js "0.9")) ]))
          (Ok (Some (Some [Some test_rawText])))
          test_transport.

(** The same world, where the Pinecone index cannot be reached. *)
Definition pinecone_down : World :=
  mkWorld (Ok test_pr) (Ok test_files) (Ok (Some (js "guide updates")))
          (Ok (Some [js "0.1"; js "0.2"]))
          (fun _ => Throw (Error (js "connect ECONNREFUSED")))
          (Ok (Some (Some [Some test_rawText])))
          test_transport.

Definition test_formatComment (response : value) : result jsstring :=
  Ok (js "Documentation Update Suggestions: see below").

End Examples.

(** * More of the code: definitions *)

(** Is no newline and no carriage return left at a position inside a
    string literal, from position [p] on? *)
Fixpoint no_raw_break (p : position) (o : jsstring) : bool :=
  match o with
  | [] => true
  | c :: r =>
      match p with
      | InString => negb (c =? LF) && negb (c =? CR)
      | _ => true
      end && no_raw_break (advance p c) r
  end.

Section MoreModel.
Context `{Num : JSNumber}.

(** [null] and [undefined], the values whose properties cannot be read. *)
Definition is_nullish (v : value) : bool :=
  match v with JUndefined | JNull => true | _ => false end.

(** The lines a returned suggestion carries: both undefined, or both taken
    from one record [d]. *)
Definition lines_from (o : list (jsstring * value))
    (matchingDoc : option QueryResult) : Prop :=
  field o (js "start_line") = line_of startLine matchingDoc /\
  field o (js "end_line") = line_of endLine matchingDoc.

(** The names on which [toUpperCase] is the one of the language. *)
Definition is_ascii (s : jsstring) : bool := forallb (fun c => c <? 128) s.

(** The integers that a number holds exactly and that [String] writes
    with all their digits. *)
Definition MAX_SAFE_INTEGER : Z := 9007199254740991.

(** The name of the environment variable getInput looks up first. *)
Definition envVarName (name : jsstring) : jsstring :=
  js "INPUT_"
  ++ List.map (fun c => if c =? 45 then 95 else c) (toUpperCase name).

(** [baseQuery] of run (lines 146-150). *)
Definition baseQuery (pr : PullRequest) (files : list PullFile) : jsstring :=
  slice
    (join [LF]
       (Some (title pr) :: Some (or_empty (body pr))
        :: firstn 5
             (List.map (fun f => Some (filename f ++ js ": "
                                       ++ or_empty (patch f))) files)))
    0 5000.

(** The place of each call in run, by the line that issues it: 133, 139,
    157 (through buildSearchQuery, line 59), 178, 193, 220 (the listing,
    then the write, of postComment), 224, 225, 235 and 239. *)
Definition stage (c : call) : nat :=
  match c with
  | PullsGet _ _ _ => 1
  | PullsListFiles _ _ _ => 2
  | SearchQueryContent => 3
  | QueryPinecone _ _ => 4
  | GenerateSuggestions => 5
  | ListComments _ _ _ => 6
  | UpdateComment _ _ _ _ | CreateComment _ _ _ _ => 7
  | SetOutput name _ =>
      if jsstring_eqb name (js "suggestions_count") then 8 else 9
  | SetFailed _ => 10
  | ProcessExit _ => 11
  end.

(** [pineconeQueryText] of run (lines 152-169): what buildSearchQuery
    returns, and [baseQuery] when it throws. *)
Definition pineconeQueryText (w : World) (pr : PullRequest)
    (files : list PullFile) : jsstring :=
  match snd (buildSearchQuery (searchQuery_text w) (title pr)
                              (or_empty (body pr)) files) with
  | Ok q => q
  | Throw _ => baseQuery pr files
  end.

(** The outputs of a run on a response with the suggestions [l]
    (lines 224-225). *)
Definition run_outputs (o : list (jsstring * value)) (l : list value)
  : list call :=
  [ SetOutput (js "suggestions_count") (Count (length l));
    SetOutput (js "impact_level") (Value (field o (js "impact_level"))) ].

(** What run reads before its first call (lines 99-116): [topK], the
    number of the pull request, the owner and the name of the repository;
    it throws when a required input is missing, or when the number or the
    repository cannot be determined. *)
Definition run_inputs (i : Inputs)
  : result (option Z * Z * jsstring * option jsstring) :=
  pineconeApiKey <- getInput i (js "pinecone_api_key") true ;;
  pineconeIndex <- getInput i (js "pinecone_index") true ;;
  geminiApiKey <- getInput i (js "gemini_api_key") true ;;
  model <- getInput i (js "gemini_model") false ;;
  githubToken <- getInput i (js "github_token") true ;;
  top_k <- getInput i (js "top_k") false ;;
  promptInstruction <- getInput i (js "prompt_instruction") false ;;
  pr_number <- getInput i (js "pr_number") false ;;
  repo_input <- getInput i (js "repo") false ;;
  let topK := parseInt (match top_k with [] => js "5" | _ => top_k end) in
  let prNumber :=
    parseInt
      (match pr_number with
       | [] => String_of_Z
                 (match payload_pull_request_number i with
                  | Some n => n
                  | None => 0%Z
                  end)
       | _ => pr_number
       end) in
  let repo :=
    match repo_input with
    | [] => or_empty (payload_repository_full_name i)
    | _ => repo_input
    end in
  match prNumber, repo with
  | None, _ | Some 0%Z, _ | _, [] =>
      Throw (Error (js "Could not determine PR number or repository"))
  | Some prNumber, _ =>
      let parts := split_slash repo [] in
      Ok (topK, prNumber, nth 0 parts [], nth_error parts 1)
  end.

(** The calls to the comment transport. *)
Definition is_comment_call (c : call) : bool :=
  match c with
  | ListComments _ _ _ | UpdateComment _ _ _ _ | CreateComment _ _ _ _ => true
  | _ => false
  end.

(** The calls that end a run: outputs, failure, exit. *)
Definition is_closing (c : call) : bool :=
  match c with
  | SetOutput _ _ | SetFailed _ | ProcessExit _ => true
  | _ => false
  end.

(** The inputs run asks for with [required = true]. *)
Definition required_inputs : list jsstring :=
  [ js "pinecone_api_key"; js "pinecone_index"; js "gemini_api_key";
    js "github_token" ].

(** What the [catch] of run issues (lines 233-241). *)
Definition failure_report (i : Inputs) (e : error) : list call :=
  SetFailed e
  :: (if match process_env i (js "GITHUB_ACTIONS") with
         | Some (_ :: _) => true
         | _ => false
         end
      then [] else [ProcessExit 1]).

End MoreModel.

(** ** More concrete inputs *)

Module Runs.

Import Examples.

(** The inputs of the test run, as a dry run. *)
Definition dry_run_inputs : Inputs :=
  mkInputs
    (core_getInput test_inputs)
    (fun name =>
       if jsstring_eqb name (js "DRY_RUN") then Some (js "true")
       else process_env test_inputs name)
    None None.

(** No input at all. *)
Definition no_inputs : Inputs :=
  mkInputs (fun _ => []) (fun _ => None) None None.

(** The keys and the token as inputs; the pull request and the repository
    from the payload of the event. *)
Definition payload_inputs : Inputs :=
  mkInputs
    (fun name =>
       if jsstring_eqb name (js "pinecone_api_key") then js "pinecone-key"
       else if jsstring_eqb name (js "pinecone_index") then js "docs-index"
       else if jsstring_eqb name (js "gemini_api_key") then js "gemini-key"
       else if jsstring_eqb name (js "github_token") then js "token"
       else [])
    (fun name =>
       if jsstring_eqb name (js "GITHUB_ACTIONS") then Some (js "true")
       else None)
    (Some 7%Z) (Some (js "owner/repo")).

(** The comment the test run writes. *)
Definition test_comment : jsstring :=
  js "Documentation Update Suggestions: see below".

End Runs.

(** * Theorems *)

Ltac chars :=
  unfold isJSONWhiteSpace, isWhiteSpace, isDigit, isDigit19, isExpMark, isSign,
         TAB, LF, CR, SPACE, DQUOTE, BACKSLASH, BACKTICK, LOWER_N, LBRACE,
         RBRACE in *;
  repeat rewrite ?orb_true_iff, ?andb_true_iff, ?orb_false_iff,
         ?andb_false_iff, ?negb_true_iff, ?negb_false_iff,
         ?N.eqb_eq, ?N.eqb_neq, ?N.leb_le, ?N.leb_gt, ?N.ltb_lt, ?N.ltb_ge in *;
  lia.

Ltac split_ifs H :=
  repeat match type of H with
         | context [if ?b then _ else _] => destruct b eqn:?
         end.


Lemma scan_char_at p o c :
  scan_char (scanner_at p o) c = scanner_at (advance p c) (o ++ rewritten p c).
Proof.
  destruct p; unfold scan_char; simpl.
  - destruct (c =? DQUOTE); reflexivity.
  - destruct (N.eqb_spec c BACKSLASH) as [->|Hb]; [reflexivity|].
    destruct (N.eqb_spec c DQUOTE) as [->|Hq]; [reflexivity|].
    destruct (c =? LF); [reflexivity|].
    destruct (c =? CR); [now rewrite app_nil_r|reflexivity].
  - reflexivity.
Qed.

Lemma fold_scan_at s : forall p o,
  fold_left scan_char s (scanner_at p o) =
  scanner_at (fold_left advance s p) (o ++ rewrite_from p s).
Proof.
  induction s as [|c r IH]; intros p o; simpl.
  - now rewrite app_nil_r.
  - rewrite scan_char_at, IH, <- app_assoc. reflexivity.
Qed.

Lemma out_scanner_at p o : out (scanner_at p o) = o.
Proof. now destruct p. Qed.

Lemma escape_rewrite_from s :
  escapeNewlinesInStrings s = rewrite_from Outside s.
Proof.
  unfold escapeNewlinesInStrings.
  change (mkScanner false false []) with (scanner_at Outside []).
  now rewrite fold_scan_at, out_scanner_at.
Qed.

Lemma rewrite_from_app a : forall p b,
  rewrite_from p (a ++ b) =
  rewrite_from p a ++ rewrite_from (fold_left advance a p) b.
Proof.
  induction a as [|c r IH]; intros p b; simpl; [reflexivity|].
  now rewrite IH, app_assoc.
Qed.

(** The two edges of the scan: a newline right after a backslash of a
    literal belongs to the escape and is copied; outside a literal a
    backslash escapes nothing, and the quote after it opens a literal. *)
Example escaped_newline_is_copied :
  escapeNewlinesInStrings [DQUOTE; BACKSLASH; LF; DQUOTE]
  = [DQUOTE; BACKSLASH; LF; DQUOTE].
Proof. reflexivity. Qed.

Example backslash_outside_a_literal :
  escapeNewlinesInStrings [BACKSLASH; DQUOTE; LF; DQUOTE]
  = [BACKSLASH; DQUOTE; BACKSLASH; LOWER_N; DQUOTE].
Proof. reflexivity. Qed.

(** Structural newlines stay, newlines and carriage returns of a literal
    do not. *)
Example escaper_on_pretty_printed_text :
  escapeNewlinesInStrings
    (jsq "{" ++ [LF] ++ jsq "  'a': 'x" ++ [CR; LF] ++ jsq "y'" ++ [LF]
     ++ jsq "}")
  = jsq "{" ++ [LF] ++ jsq "  'a': 'x\ny'" ++ [LF] ++ jsq "}".
Proof. reflexivity. Qed.

(** C5. escapeNewlinesInStrings writes nothing for the empty input and,
    for every code unit [c] that follows a prefix [p] of the input, appends
    to what it wrote for [p]: backslash-n when [c] is a newline inside a
    string literal, nothing when [c] is a carriage return inside a string
    literal, and [c] itself otherwise -- outside literals, right after a
    backslash of a literal, and for every other code unit of a literal;
    the position is toggled by each unescaped double quote. *)
Theorem escaper_follows_positions :
  escapeNewlinesInStrings [] = [] /\
  forall (p : jsstring) (c : code_unit),
    escapeNewlinesInStrings (p ++ [c]) =
    escapeNewlinesInStrings p ++ rewritten (position_after p) c.
Proof.
  split; [reflexivity|].
  intros p c. rewrite !escape_rewrite_from, rewrite_from_app. simpl.
  now rewrite app_nil_r.
Qed.

(** ** The escaper on texts that JSON.parse accepts *)

Lemma lex_default_position c m toks :
  lex_default c = Some (m, toks) ->
  advance Outside c = mode_position m /\ mode_ok m = true.
Proof.
  unfold lex_default. intros H. simpl.
  destruct (N.eqb_spec c DQUOTE) as [->|Hq].
  - vm_compute in H. inversion H; subst. split; reflexivity.
  - split_ifs H; inversion H; subst; split; reflexivity.
Qed.

Lemma num_next_not_quote st c st' :
  num_next st c = Some st' -> (c =? DQUOTE) = false.
Proof.
  destruct st; simpl; intros H; split_ifs H; try discriminate; chars.
Qed.

Lemma hexValue_plain c h :
  hexValue c = Some h ->
  (c =? DQUOTE) = false /\ (c =? BACKSLASH) = false /\
  (c =? LF) = false /\ (c =? CR) = false.
Proof.
  unfold hexValue. intros H. split_ifs H; try discriminate; chars.
Qed.

Lemma lex_step_position m c m' toks :
  lex_step m c = Some (m', toks) ->
  mode_ok m = true ->
  rewritten (mode_position m) c = [c] /\
  advance (mode_position m) c = mode_position m' /\
  mode_ok m' = true.
Proof.
  intros H Hok. destruct m; simpl in H.
  - apply lex_default_position in H. simpl. tauto.
  - simpl. destruct (N.eqb_spec c DQUOTE) as [->|Hq].
    { inversion H; subst. repeat split. }
    destruct (N.eqb_spec c BACKSLASH) as [->|Hb].
    { inversion H; subst. repeat split. }
    destruct (c <? 32) eqn:Hc; [discriminate|]. inversion H; subst.
    assert ((c =? LF) = false) as -> by chars.
    assert ((c =? CR) = false) as -> by chars.
    repeat split.
  - simpl. destruct (c =? 117).
    + inversion H; subst. repeat split.
    + destruct (escape_char c); inversion H; subst. repeat split.
  - destruct (hexValue c) as [h|] eqn:Hh; [|discriminate].
    apply hexValue_plain in Hh. destruct Hh as (Hq & Hb & Hl & Hr).
    simpl. rewrite Hq, Hb, Hl, Hr.
    destruct remaining as [|[|k]]; inversion H; subst; repeat split.
  - destruct rest as [|x rest']; [discriminate|].
    simpl in Hok. apply andb_true_iff in Hok. destruct Hok as [Hx Hrest].
    destruct (N.eqb_spec c x) as [->|Hne]; [|discriminate].
    simpl. apply negb_true_iff in Hx. rewrite Hx.
    destruct rest'; inversion H; subst; repeat split. exact Hrest.
  - simpl. destruct (num_next st c) as [st'|] eqn:Hn.
    + inversion H; subst. apply num_next_not_quote in Hn. rewrite Hn.
      repeat split.
    + destruct (num_accepting st); [|discriminate].
      destruct (lex_default c) as [[m1 toks1]|] eqn:Hd; [|discriminate].
      inversion H; subst. apply lex_default_position in Hd. simpl in Hd.
      tauto.
Qed.

Lemma lex_finish_position m toks :
  lex_finish m = Some toks -> mode_position m = Outside.
Proof. destruct m; simpl; intros H; try discriminate; reflexivity. Qed.

(** A text the lexer accepts from mode [m] is left as it is by the escaper
    from the matching position, and ends outside every string literal. *)
Lemma lex_from_fixed s : forall m toks,
  lex_from m s = Some toks ->
  mode_ok m = true ->
  rewrite_from (mode_position m) s = s /\
  fold_left advance s (mode_position m) = Outside.
Proof.
  induction s as [|c r IH]; intros m toks H Hok; simpl in *.
  - split; [reflexivity|]. eapply lex_finish_position; eassumption.
  - destruct (lex_step m c) as [[m' toks1]|] eqn:Hs; [|discriminate].
    destruct (lex_from m' r) as [more|] eqn:Hr; [|discriminate].
    destruct (lex_step_position _ _ _ _ Hs Hok) as (Hw & Ha & Hok').
    destruct (IH _ _ Hr Hok') as (IH1 & IH2).
    rewrite Hw, Ha. simpl. rewrite IH1, IH2. split; reflexivity.
Qed.

Lemma lexed_fixed text toks :
  lex text = Some toks ->
  escapeNewlinesInStrings text = text /\ position_after text = Outside.
Proof.
  intros H. rewrite escape_rewrite_from.
  apply (lex_from_fixed text LDefault toks H eq_refl).
Qed.

Section Accepted.
Context `{Num : JSNumber}.

Lemma JSON_parse_lexed text v :
  JSON_parse text = Some v -> exists toks, lex text = Some toks.
Proof.
  unfold JSON_parse. destruct (lex text) as [ts|]; [|discriminate].
  intros _. now exists ts.
Qed.

(** C8. On every text that JSON.parse accepts -- syntactically valid JSON,
    which has no literal newline inside its string literals --
    escapeNewlinesInStrings returns the text unchanged; applying it again
    changes nothing either. *)
Theorem escaper_identity_on_valid_json (text : jsstring) (v : value) :
  JSON_parse text = Some v ->
  escapeNewlinesInStrings text = text /\
  escapeNewlinesInStrings (escapeNewlinesInStrings text) =
  escapeNewlinesInStrings text.
Proof.
  intros H. destruct (JSON_parse_lexed _ _ H) as [toks Hl].
  destruct (lexed_fixed _ _ Hl) as [Hfix _].
  split; [exact Hfix|]. now rewrite !Hfix.
Qed.

End Accepted.

(** ** Strings and properties *)

Lemma jsstring_eqb_eq a : forall b, jsstring_eqb a b = true <-> a = b.
Proof.
  induction a as [|x a IH]; intros [|y b]; simpl; split; intros H;
    try reflexivity; try discriminate.
  - apply andb_true_iff in H. destruct H as [Hx Hab].
    apply N.eqb_eq in Hx. apply IH in Hab. now subst.
  - inversion H; subst. rewrite N.eqb_refl. simpl. now apply IH.
Qed.

Lemma jsstring_eqb_refl a : jsstring_eqb a a = true.
Proof. now apply jsstring_eqb_eq. Qed.

Lemma jsstring_eqb_neq a b : jsstring_eqb a b = false <-> a <> b.
Proof.
  split.
  - intros H E. apply jsstring_eqb_eq in E. congruence.
  - intros H. destruct (jsstring_eqb a b) eqn:E; [|reflexivity].
    apply jsstring_eqb_eq in E. contradiction.
Qed.

Section Properties.
Context `{Num : JSNumber}.

Lemma field_set_prop_same k v o : field (set_prop k v o) k = v.
Proof.
  unfold field. induction o as [|[k' v'] o IH]; simpl.
  - now rewrite jsstring_eqb_refl.
  - destruct (jsstring_eqb k k') eqn:E; simpl; rewrite E; [reflexivity|exact IH].
Qed.

Lemma field_set_prop_other k v o k' :
  k' <> k -> field (set_prop k v o) k' = field o k'.
Proof.
  intros Hne. unfold field. induction o as [|[k1 v1] o IH]; simpl.
  - apply jsstring_eqb_neq in Hne. now rewrite Hne.
  - destruct (jsstring_eqb k k1) eqn:E; simpl.
    + apply jsstring_eqb_eq in E. subst k1.
      apply jsstring_eqb_neq in Hne. now rewrite Hne.
    + destruct (jsstring_eqb k' k1); [reflexivity|exact IH].
Qed.

(** Writing a property that is there keeps the keys and their order. *)
Lemma set_prop_keys k v o :
  field o k <> JUndefined ->
  List.map fst (set_prop k v o) = List.map fst o.
Proof.
  unfold field. induction o as [|[k' v'] o IH]; simpl; intros H.
  - contradiction.
  - destruct (jsstring_eqb k k'); simpl; [reflexivity|]. now rewrite IH.
Qed.

(** On an object whose [target_file] is the string [t], the lookup of the
    source is the first record whose [file] is [t]. *)
Lemma find_doc_object docsContext o t :
  field o (js "target_file") = JString t ->
  find_doc docsContext (JObject o) =
  Ok (find (fun d => jsstring_eqb (file d) t) docsContext).
Proof.
  intros Ht. induction docsContext as [|d rest IH]; simpl; [reflexivity|].
  rewrite Ht. destruct (jsstring_eqb (file d) t); [reflexivity|exact IH].
Qed.

Lemma find_first_match (docsContext : list QueryResult) t pre d post :
  docsContext = pre ++ d :: post ->
  file d = t ->
  (forall d', In d' pre -> file d' <> t) ->
  find (fun d => jsstring_eqb (file d) t) docsContext = Some d.
Proof.
  intros -> Hd Hpre. induction pre as [|p pre IH]; simpl.
  - subst t. now rewrite jsstring_eqb_refl.
  - assert (file p <> t) as Hp by (apply Hpre; now left).
    apply jsstring_eqb_neq in Hp. rewrite Hp. apply IH.
    intros d' Hin. apply Hpre. now right.
Qed.

Lemma find_no_match (docsContext : list QueryResult) t :
  (forall d, In d docsContext -> file d <> t) ->
  find (fun d => jsstring_eqb (file d) t) docsContext = None.
Proof.
  induction docsContext as [|p rest IH]; intros H; simpl; [reflexivity|].
  assert (file p <> t) as Hp by (apply H; now left).
  apply jsstring_eqb_neq in Hp. rewrite Hp. apply IH.
  intros d Hin. apply H. now right.
Qed.

Lemma find_some_match (docsContext : list QueryResult) t d :
  find (fun d => jsstring_eqb (file d) t) docsContext = Some d ->
  In d docsContext /\ file d = t.
Proof.
  intros H. apply find_some in H. destruct H as [Hin He].
  apply jsstring_eqb_eq in He. now split.
Qed.

Lemma find_none_match (docsContext : list QueryResult) t :
  find (fun d => jsstring_eqb (file d) t) docsContext = None ->
  forall d, In d docsContext -> file d <> t.
Proof.
  intros H d Hin. apply (find_none _ _ H) in Hin.
  now apply jsstring_eqb_neq.
Qed.

(** What the callback of [map] returns on an object with a string
    [target_file]. *)
Lemma enrich_suggestion_object docsContext o t :
  field o (js "target_file") = JString t ->
  enrich_suggestion docsContext (JObject o) =
  let matchingDoc := find (fun d => jsstring_eqb (file d) t) docsContext in
  Ok (JObject (set_prop (js "end_line") (line_of endLine matchingDoc)
                 (set_prop (js "start_line") (line_of startLine matchingDoc) o))).
Proof.
  intros Ht. unfold enrich_suggestion. now rewrite (find_doc_object _ _ _ Ht).
Qed.

Lemma is_Suggestion_object s :
  is_Suggestion s = true ->
  exists o t, s = JObject o /\ field o (js "target_file") = JString t.
Proof.
  destruct s as [| | | | |l|o]; simpl; try discriminate. intros H.
  rewrite !andb_true_iff in H.
  destruct (field o (js "target_file")) as [| | | |t| |] eqn:E;
    simpl in H; try (exfalso; intuition discriminate).
  now exists o, t.
Qed.

Lemma name_neq (a b : string) :
  jsstring_eqb (js a) (js b) = false -> js a <> js b.
Proof. apply jsstring_eqb_neq. Qed.

(** Enrichment keeps a well-typed suggestion well-typed. *)
Lemma enrich_suggestion_typed docsContext s :
  is_Suggestion s = true ->
  exists s', enrich_suggestion docsContext s = Ok s' /\ is_Suggestion s' = true.
Proof.
  intros Hs. destruct (is_Suggestion_object _ Hs) as (o & t & -> & Ht).
  rewrite (enrich_suggestion_object _ _ _ Ht). cbv zeta.
  eexists. split; [reflexivity|].
  simpl in Hs. rewrite !andb_true_iff in Hs.
  destruct Hs as (((((((H1 & H2) & H3) & H4) & H5) & H6) & _) & _).
  unfold is_Suggestion.
  rewrite field_set_prop_same.
  rewrite (field_set_prop_other _ _ _ (js "start_line"))
    by (apply name_neq; reflexivity).
  rewrite field_set_prop_same.
  repeat (rewrite (field_set_prop_other (js "end_line"))
            by (apply name_neq; reflexivity);
          rewrite (field_set_prop_other (js "start_line"))
            by (apply name_neq; reflexivity)).
  rewrite H1, H2, H3, H4, H5, H6. simpl.
  destruct (find _ docsContext); reflexivity.
Qed.

Lemma mapM_enrich_typed docsContext l :
  forallb is_Suggestion l = true ->
  exists l', mapM (enrich_suggestion docsContext) l = Ok l' /\
             forallb is_Suggestion l' = true /\ length l' = length l.
Proof.
  induction l as [|s l IH]; simpl; intros H.
  - exists []. repeat split.
  - apply andb_true_iff in H. destruct H as [Hs Hl].
    destruct (enrich_suggestion_typed docsContext s Hs) as (s' & Es & Ts).
    destruct (IH Hl) as (l' & El & Tl & Ll).
    exists (s' :: l'). rewrite Es, El. simpl. rewrite Ts, Tl, Ll.
    repeat split.
Qed.

Lemma is_LLMResponse_object v :
  is_LLMResponse v = true ->
  exists o l, v = JObject o /\ field o (js "suggestions") = JArray l /\
              forallb is_Suggestion l = true.
Proof.
  destruct v as [| | | | |l|o]; simpl; try discriminate. intros H.
  rewrite !andb_true_iff in H. destruct H as (_ & H).
  destruct (field o (js "suggestions")) as [| | | | |l|] eqn:E;
    try discriminate.
  now exists o, l.
Qed.

(** Enrichment keeps a well-typed response well-typed. *)
Lemma enrich_typed parsed docsContext :
  is_LLMResponse parsed = true ->
  exists r, enrich parsed docsContext = Ok r /\ is_LLMResponse r = true.
Proof.
  intros H. destruct (is_LLMResponse_object _ H) as (o & l & -> & Hl & Tl).
  destruct (mapM_enrich_typed docsContext l Tl) as (l' & El & Tl' & _).
  unfold enrich. simpl. rewrite Hl, El. simpl.
  eexists. split; [reflexivity|].
  simpl in H. rewrite !andb_true_iff in H. destruct H as (((H1 & H2) & H3) & _).
  unfold is_LLMResponse. rewrite field_set_prop_same.
  rewrite !(field_set_prop_other (js "suggestions"))
    by (apply name_neq; reflexivity).
  now rewrite H1, H2, H3, Tl'.
Qed.

End Properties.

Lemma mapM_length {A B : Type} (f : A -> result B) l : forall l',
  mapM f l = Ok l' -> length l' = length l.
Proof.
  induction l as [|a l IH]; simpl; intros l' H.
  - now inversion H.
  - destruct (f a) as [b|e]; simpl in H; [|discriminate].
    destruct (mapM f l) as [bs|e]; simpl in H; [|discriminate].
    inversion H; subst. simpl. now rewrite (IH bs).
Qed.

Lemma mapM_nth_error {A B : Type} (f : A -> result B) l : forall l' i a,
  mapM f l = Ok l' ->
  nth_error l i = Some a ->
  exists b, nth_error l' i = Some b /\ f a = Ok b.
Proof.
  induction l as [|x l IH]; simpl; intros l' i a H Hi.
  - destruct i; discriminate.
  - destruct (f x) as [b|e] eqn:Ex; simpl in H; [|discriminate].
    destruct (mapM f l) as [bs|e]; simpl in H; [|discriminate].
    inversion H; subst. destruct i as [|i]; simpl in *.
    + inversion Hi; subst. now exists b.
    + now apply (IH bs i a).
Qed.

Section Enrichment.
Context `{Num : JSNumber}.

(** C3. On a well-typed parsed response, enrichment returns an object with
    the same properties except [suggestions], which holds as many
    suggestions in the same order; each is the suggestion it comes from
    except for [start_line] and [end_line], which are the [startLine] and
    [endLine] of the first record whose [file] is equal, code unit by code
    unit, to the suggestion's [target_file], and which are defined exactly
    when some record has that [file]. *)
Theorem enrichment_joins_first_match
    (parsed : value) (docsContext : list QueryResult) :
  is_LLMResponse parsed = true ->
  exists o l r l',
    parsed = JObject o /\ field o (js "suggestions") = JArray l /\
    enrich parsed docsContext = Ok (JObject r) /\
    List.map fst r = List.map fst o /\
    (forall k, k <> js "suggestions" -> field r k = field o k) /\
    field r (js "suggestions") = JArray l' /\
    length l' = length l /\
    forall i s, nth_error l i = Some s ->
      exists so so' t,
        s = JObject so /\ field so (js "target_file") = JString t /\
        nth_error l' i = Some (JObject so') /\
        (forall k, k <> js "start_line" -> k <> js "end_line" ->
           field so' k = field so k) /\
        (forall pre d post,
           docsContext = pre ++ d :: post -> file d = t ->
           (forall d', In d' pre -> file d' <> t) ->
           field so' (js "start_line") = JNumber (startLine d) /\
           field so' (js "end_line") = JNumber (endLine d)) /\
        (field so' (js "start_line") <> JUndefined <->
           exists d, In d docsContext /\ file d = t) /\
        (field so' (js "end_line") <> JUndefined <->
           exists d, In d docsContext /\ file d = t).
Proof.
  intros H. destruct (is_LLMResponse_object _ H) as (o & l & -> & Hl & Tl).
  destruct (mapM_enrich_typed docsContext l Tl) as (l' & El & _ & Ll).
  exists o, l, (set_prop (js "suggestions") (JArray l') o), l'.
  split; [reflexivity|]. split; [exact Hl|].
  split; [unfold enrich; simpl; now rewrite Hl, El|].
  split.
  { apply set_prop_keys. rewrite Hl. discriminate. }
  split; [intros k Hk; now apply field_set_prop_other|].
  split; [apply field_set_prop_same|]. split; [exact Ll|].
  intros i s Hi.
  destruct (mapM_nth_error _ _ _ _ _ El Hi) as (s' & Hi' & Es).
  assert (is_Suggestion s = true) as Ts.
  { rewrite forallb_forall in Tl. apply Tl. eapply nth_error_In; eassumption. }
  destruct (is_Suggestion_object _ Ts) as (so & t & -> & Ht).
  rewrite (enrich_suggestion_object _ _ _ Ht) in Es. cbv zeta in Es.
  inversion Es as [Es']. clear Es. subst s'.
  eexists so, _, t. split; [reflexivity|]. split; [exact Ht|].
  split; [exact Hi'|].
  assert (js "start_line" <> js "end_line") as Hse
    by (apply name_neq; reflexivity).
  split.
  { intros k Hs He. now rewrite !field_set_prop_other. }
  rewrite field_set_prop_same, field_set_prop_other, field_set_prop_same
    by exact Hse.
  split.
  { intros pre d post Hd Hf Hpre.
    now rewrite (find_first_match _ _ _ _ _ Hd Hf Hpre). }
  destruct (find (fun d => jsstring_eqb (file d) t) docsContext) as [d|] eqn:Ef;
    simpl.
  - apply find_some_match in Ef.
    split; (split; [intros _; now exists d|intros _; discriminate]).
  - pose proof (find_none_match _ _ Ef) as Hn.
    split; (split; [congruence|intros (d & Hin & Hd); exfalso;
                                now apply (Hn d Hin)]).
Qed.

(** C10. When queryPinecone returns, the embedding call gave an
    embedding and the index answered, and the records are those of the
    matches of that answer, one for each match and in their order (none
    when the answer has no [matches]).  The record of a match has every
    field: a metadata field or a score that the match lacks is replaced by
    its default -- [file = 'unknown'], [chunkIndex = 0], [startLine = 0],
    [endLine = 0], [text = ''], [score = 0] -- and a field the match has is
    copied (a non-empty [file], a truthy number, any [text]).  A record
    whose [file] is ['unknown'] is looked up by enrichment like any other:
    a suggestion whose [target_file] is ['unknown'] takes its lines from the
    first such record. *)
Theorem queryPinecone_fills_defaults
    (embedContent : result (option (list number)))
    (query : list number -> result (option (list ScoredMatch)))
    (results : list QueryResult) :
  queryPinecone embedContent query = Ok results ->
  (exists queryEmbedding queryResponse matches,
     embedContent = Ok (Some queryEmbedding) /\
     query queryEmbedding = Ok queryResponse /\
     matches = match queryResponse with Some l => l | None => [] end /\
     results = List.map format_match matches /\
     length results = length matches /\
     forall i m, nth_error matches i = Some m ->
       exists r,
         nth_error results i = Some r /\
         (meta m md_file = None -> file r = js "unknown") /\
         (meta m md_chunkIndex = None -> chunkIndex r = number_zero) /\
         (meta m md_startLine = None -> startLine r = number_zero) /\
         (meta m md_endLine = None -> endLine r = number_zero) /\
         (meta m md_text = None -> text r = []) /\
         (match_score m = None -> score r = number_zero) /\
         (forall f, meta m md_file = Some f -> f <> [] -> file r = f) /\
         (forall n, meta m md_chunkIndex = Some n ->
            number_truthy n = true -> chunkIndex r = n) /\
         (forall n, meta m md_startLine = Some n ->
            number_truthy n = true -> startLine r = n) /\
         (forall n, meta m md_endLine = Some n ->
            number_truthy n = true -> endLine r = n) /\
         (forall t, meta m md_text = Some t -> text r = t) /\
         (forall n, match_score m = Some n ->
            number_truthy n = true -> score r = n)) /\
  (forall pre r post o,
     results = pre ++ r :: post ->
     file r = js "unknown" ->
     (forall d, In d pre -> file d <> js "unknown") ->
     field o (js "target_file") = JString (js "unknown") ->
     exists o',
       enrich_suggestion results (JObject o) = Ok (JObject o') /\
       field o' (js "start_line") = JNumber (startLine r) /\
       field o' (js "end_line") = JNumber (endLine r)).
Proof.
  intros H. split.
  - unfold queryPinecone in H.
    destruct embedContent as [[emb|]|e]; simpl in H; try discriminate.
    destruct (query emb) as [resp|e] eqn:Eq; simpl in H; [|discriminate].
    inversion H as [Hr].
    exists emb, resp, (match resp with Some l => l | None => [] end).
    subst results.
    split; [reflexivity|]. split; [exact Eq|]. split; [reflexivity|].
    split; [reflexivity|]. split; [apply length_map|].
    intros i m Hm. exists (format_match m).
    split; [now rewrite nth_error_map, Hm|].
    unfold format_match; simpl.
    split; [intros ->; reflexivity|]. split; [intros ->; reflexivity|].
    split; [intros ->; reflexivity|]. split; [intros ->; reflexivity|].
    split; [intros ->; reflexivity|]. split; [intros ->; reflexivity|].
    split; [intros f -> Hf; destruct f; [contradiction|reflexivity]|].
    split; [intros n -> Hn; simpl; now rewrite Hn|].
    split; [intros n -> Hn; simpl; now rewrite Hn|].
    split; [intros n -> Hn; simpl; now rewrite Hn|].
    split; [intros t ->; now destruct t|].
    intros n -> Hn; simpl; now rewrite Hn.
  - intros pre r post o Hres Hf Hpre Ht.
    rewrite (enrich_suggestion_object _ _ _ Ht). cbv zeta.
    rewrite (find_first_match _ _ _ _ _ Hres Hf Hpre).
    eexists. split; [reflexivity|].
    rewrite field_set_prop_same, field_set_prop_other, field_set_prop_same
      by (apply name_neq; reflexivity).
    split; reflexivity.
Qed.

End Enrichment.

(** ** The comment upsert *)

Lemma starts_with_spec p : forall s,
  starts_with p s = true <-> exists b, s = p ++ b.
Proof.
  induction p as [|x p IH]; intros s; simpl.
  - split; [intros _; now exists s|reflexivity].
  - destruct s as [|y s].
    + split; [discriminate|intros [b Hb]; discriminate].
    + rewrite andb_true_iff, N.eqb_eq, IH. split.
      * intros [-> [b ->]]. now exists b.
      * intros [b Hb]. inversion Hb; subst. split; [reflexivity|now exists b].
Qed.

Lemma includes_spec sub : forall s,
  includes s sub = true <-> contains s sub.
Proof.
  unfold contains. induction s as [|c s IH].
  - simpl. rewrite orb_false_r, starts_with_spec. split.
    + intros [b Hb]. now exists [], b.
    + intros (a & b & H). destruct a; [now exists b|discriminate].
  - simpl. rewrite orb_true_iff, starts_with_spec, IH. split.
    + intros [[b Hb]|(a & b & H)].
      * now exists [], b.
      * exists (c :: a), b. simpl. now rewrite H.
    + intros (a & b & H). destruct a as [|x a].
      * left. now exists b.
      * right. inversion H; subst. now exists a, b.
Qed.

Section Upsert.
Context `{Num : JSNumber}.

Lemma find_marked_first marker comments pre c post :
  comments = pre ++ c :: post ->
  contains (comment_body c) marker ->
  (forall c', In c' pre -> ~ contains (comment_body c') marker) ->
  find (fun c => includes (comment_body c) marker) comments = Some c.
Proof.
  intros -> Hc Hpre. induction pre as [|p pre IH]; simpl.
  - apply includes_spec in Hc. now rewrite Hc.
  - destruct (includes (comment_body p) marker) eqn:E.
    + apply includes_spec in E. exfalso. apply (Hpre p); [now left|exact E].
    + apply IH. intros c' Hin. apply Hpre. now right.
Qed.

Lemma find_marked_none marker comments :
  (forall c, In c comments -> ~ contains (comment_body c) marker) ->
  find (fun c => includes (comment_body c) marker) comments = None.
Proof.
  induction comments as [|p comments IH]; intros H; simpl; [reflexivity|].
  destruct (includes (comment_body p) marker) eqn:E.
  - apply includes_spec in E. exfalso. apply (H p); [now left|exact E].
  - apply IH. intros c Hin. apply H. now right.
Qed.

(** C2. Given the list of existing comments, postComment issues, after the
    listing, exactly one write: an update of the first comment whose body
    contains the marker, and no create, when there is such a comment; a
    create, and no update, when no body contains the marker. *)
Theorem postComment_upserts
    (marker : jsstring) (gh : Transport) (owner : jsstring)
    (repo : option jsstring) (prNumber : Z) (body : jsstring)
    (comments : list ExistingComment) :
  listComments gh = Ok comments ->
  let calls := fst (postComment marker gh owner repo prNumber body) in
  (forall pre c post,
     comments = pre ++ c :: post ->
     contains (comment_body c) marker ->
     (forall c', In c' pre -> ~ contains (comment_body c') marker) ->
     calls = [ListComments owner repo prNumber;
              UpdateComment owner repo (comment_id c) body]) /\
  ((forall c, In c comments -> ~ contains (comment_body c) marker) ->
   calls = [ListComments owner repo prNumber;
            CreateComment owner repo prNumber body]) /\
  length (filter is_comment_write calls) = 1%nat.
Proof.
  intros Hlist calls. subst calls. unfold postComment, perform, andThen.
  rewrite Hlist. repeat split.
  - intros pre c post Hc Hm Hpre.
    now rewrite (find_marked_first _ _ _ _ _ Hc Hm Hpre).
  - intros Hnone. now rewrite (find_marked_none _ _ Hnone).
  - destruct (find _ comments); reflexivity.
Qed.

End Upsert.

(** ** The run *)

Section RunProofs.
Context `{Num : JSNumber}.

Lemma quiet_done {A : Type} (r : result A) : quiet (done r).
Proof. intros c []. Qed.

Lemma quiet_perform {A : Type} c (r : result A) :
  is_comment_write c = false -> quiet (perform c r).
Proof. intros H c' [<-|[]]. exact H. Qed.

Lemma quiet_failed_andThen {A B : Type} (m : action A) (k : A -> action B) :
  quiet m ->
  (forall a, snd m = Ok a -> quiet (k a) /\ failed (k a)) ->
  quiet (andThen m k) /\ failed (andThen m k).
Proof.
  destruct m as [t [a|e]]; simpl; intros Hq Hk.
  - destruct (Hk a eq_refl) as [Hqa [e He]].
    destruct (k a) as [t' r]. simpl in *. split.
    + intros c Hin. apply in_app_or in Hin. destruct Hin; [now apply Hq|now apply Hqa].
    + now exists e.
  - split; [exact Hq|now exists e].
Qed.

Lemma quiet_buildSearchQuery text prTitle prBody files fallback :
  quiet (tryCatch (buildSearchQuery text prTitle prBody files)
                  (fun _ => done (Ok fallback))).
Proof.
  unfold buildSearchQuery, perform, andThen, tryCatch, done.
  destruct text as [answered|e].
  - destruct (trim (or_empty answered)); intros x [<-|[]]; reflexivity.
  - intros x [<-|[]]. reflexivity.
Qed.

End RunProofs.

Section RunAborts.
Context `{Num : JSNumber}.
Variable formatComment : value -> result jsstring.
Variable marker : jsstring.

Lemma run_steps_aborts i w topK prNumber owner repoName :
  upstream_failed w ->
  quiet (run_steps formatComment marker i w topK prNumber owner repoName) /\
  failed (run_steps formatComment marker i w topK prNumber owner repoName).
Proof.
  intros Hup. unfold run_steps.
  apply quiet_failed_andThen; [now apply quiet_perform|]. intros pr Hpr.
  apply quiet_failed_andThen; [now apply quiet_perform|]. intros files Hfiles.
  cbv zeta.
  apply quiet_failed_andThen; [apply quiet_buildSearchQuery|]. intros q _.
  apply quiet_failed_andThen; [now apply quiet_perform|]. intros docs Hdocs.
  apply quiet_failed_andThen; [now apply quiet_perform|]. intros resp Hresp.
  exfalso. simpl in Hpr, Hfiles, Hdocs, Hresp.
  destruct Hup as [[e H]|[[e H]|[[e H]|(d & e & H1 & H2)]]]; congruence.
Qed.

Lemma run_body_aborts i w :
  upstream_failed w ->
  quiet (run_body formatComment marker i w) /\
  failed (run_body formatComment marker i w).
Proof.
  intros Hup. unfold run_body.
  do 9 (apply quiet_failed_andThen; [apply quiet_done|]; intros ? _;
        cbv zeta).
  assert (forall e, quiet (done (A:=unit) (Throw e)) /\
                    failed (done (A:=unit) (Throw e))) as Hthrow
    by (intros e; split; [apply quiet_done|eexists; reflexivity]).
  destruct (parseInt _) as [[|p|p]|]; try apply Hthrow;
    (match goal with
     | |- context [match ?repo with [] => done _ | _ :: _ => _ end] =>
         destruct repo
     end; [apply Hthrow|now apply run_steps_aborts]).
Qed.

(** C9. When a step upstream of comment formatting fails terminally -- the
    fetch of the pull request or of its files, the Pinecone query, or
    generateSuggestions -- the run issues no comment create and no comment
    update, and reports the failure. *)
Theorem run_aborts_without_comment (i : Inputs) (w : World) :
  upstream_failed w ->
  (forall c, In c (run formatComment marker i w) -> is_comment_write c = false)
  /\ exists e, In (SetFailed e) (run formatComment marker i w).
Proof.
  intros Hup. destruct (run_body_aborts i w Hup) as [Hq [e He]].
  unfold run, tryCatch.
  destruct (run_body formatComment marker i w) as [t r]. simpl in *. subst r.
  destruct (is_set _); simpl; split.
  - intros c Hin. apply in_app_or in Hin.
    destruct Hin as [Hin|[<-|[]]]; [now apply Hq|reflexivity].
  - exists e. apply in_or_app. right. now left.
  - intros c Hin. apply in_app_or in Hin.
    destruct Hin as [Hin|[<-|[<-|[]]]]; [now apply Hq|reflexivity|reflexivity].
  - exists e. apply in_or_app. right. now left.
Qed.

End RunAborts.

(** ** Searching and slicing *)

Lemma indexOf_bounds s c : (-1 <= indexOf s c < Z.of_nat (length s))%Z.
Proof.
  induction s as [|x s IH]; simpl length; simpl indexOf; [lia|].
  destruct (x =? c); [lia|].
  destruct (indexOf s c <? 0)%Z eqn:E; lia.
Qed.

Lemma indexOf_absent s c : indexOf s c = (-1)%Z <-> ~ In c s.
Proof.
  induction s as [|x s IH]; simpl; [tauto|].
  destruct (N.eqb_spec x c) as [->|Hne].
  - split; [discriminate|intros H; exfalso; apply H; now left].
  - pose proof (indexOf_bounds s c) as Hb.
    destruct (indexOf s c <? 0)%Z eqn:E.
    + apply Z.ltb_lt in E. assert (indexOf s c = (-1)%Z) as Hi by lia.
      apply IH in Hi. split; [intros _ [H|H]; tauto|reflexivity].
    + apply Z.ltb_ge in E. split; [lia|].
      intros H. exfalso. assert (~ In c s) as Hn by tauto.
      apply IH in Hn. lia.
Qed.

Lemma lastIndexOf_bounds s c : (-1 <= lastIndexOf s c < Z.of_nat (length s))%Z.
Proof.
  induction s as [|x s IH]; simpl length; simpl lastIndexOf; [lia|].
  destruct (0 <=? lastIndexOf s c)%Z eqn:E; [lia|].
  destruct (x =? c); lia.
Qed.

Lemma lastIndexOf_absent s c : lastIndexOf s c = (-1)%Z <-> ~ In c s.
Proof.
  induction s as [|x s IH]; simpl; [tauto|].
  pose proof (lastIndexOf_bounds s c) as Hb.
  destruct (0 <=? lastIndexOf s c)%Z eqn:E.
  - apply Z.leb_le in E. split; [lia|].
    intros H. exfalso. assert (~ In c s) as Hn by tauto.
    apply IH in Hn. lia.
  - apply Z.leb_gt in E. assert (lastIndexOf s c = (-1)%Z) as Hi by lia.
    apply IH in Hi. destruct (N.eqb_spec x c) as [->|Hne].
    + split; [discriminate|intros H; exfalso; apply H; now left].
    + split; [intros _ [H|H]; tauto|reflexivity].
Qed.

Lemma indexOf_first a c r :
  ~ In c a -> indexOf (a ++ c :: r) c = Z.of_nat (length a).
Proof.
  induction a as [|x a IH]; simpl; intros H.
  - now rewrite N.eqb_refl.
  - destruct (N.eqb_spec x c) as [->|Hne]; [tauto|].
    rewrite IH by tauto.
    destruct (Z.of_nat (length a) <? 0)%Z eqn:E; [apply Z.ltb_lt in E|]; lia.
Qed.

Lemma lastIndexOf_last a c b :
  ~ In c b -> lastIndexOf (a ++ c :: b) c = Z.of_nat (length a).
Proof.
  intros Hb. induction a as [|x a IH]; simpl.
  - apply lastIndexOf_absent in Hb. rewrite Hb. simpl. now rewrite N.eqb_refl.
  - rewrite IH.
    destruct (0 <=? Z.of_nat (length a))%Z eqn:E; [|apply Z.leb_gt in E]; lia.
Qed.

Lemma slice_middle a m b :
  slice (a ++ m ++ b) (Z.of_nat (length a)) (Z.of_nat (length a + length m)) = m.
Proof.
  unfold slice. rewrite !length_app.
  destruct (Z.of_nat (length a) <? 0)%Z eqn:E1; [apply Z.ltb_lt in E1; lia|].
  destruct (Z.of_nat (length a + length m) <? 0)%Z eqn:E2;
    [apply Z.ltb_lt in E2; lia|].
  rewrite !Z.min_l by lia.
  replace (Z.to_nat (Z.of_nat (length a))) with (length a) by lia.
  replace (Z.to_nat (Z.of_nat (length a + length m) - Z.of_nat (length a)))
    with (length m) by lia.
  rewrite skipn_app, skipn_all, Nat.sub_diag. simpl.
  rewrite firstn_app, firstn_all, Nat.sub_diag. simpl. apply app_nil_r.
Qed.

(** The slice from the first opening brace to the last closing brace. *)
Lemma slice_braces a m b :
  ~ In LBRACE a -> ~ In RBRACE b ->
  let s := a ++ (LBRACE :: m ++ [RBRACE]) ++ b in
  indexOf s LBRACE <> (-1)%Z /\ lastIndexOf s RBRACE <> (-1)%Z /\
  slice s (indexOf s LBRACE) (lastIndexOf s RBRACE + 1) = LBRACE :: m ++ [RBRACE].
Proof.
  intros Ha Hb s. subst s.
  assert (indexOf (a ++ (LBRACE :: m ++ [RBRACE]) ++ b) LBRACE
          = Z.of_nat (length a)) as Hi.
  { simpl. now apply indexOf_first. }
  assert (lastIndexOf (a ++ (LBRACE :: m ++ [RBRACE]) ++ b) RBRACE
          = Z.of_nat (length (a ++ LBRACE :: m))) as Hl.
  { replace (a ++ (LBRACE :: m ++ [RBRACE]) ++ b)
      with ((a ++ LBRACE :: m) ++ RBRACE :: b)
      by (simpl; now rewrite <- !app_assoc).
    now apply lastIndexOf_last. }
  rewrite Hi, Hl. repeat split; try lia.
  replace (Z.of_nat (length (a ++ LBRACE :: m)) + 1)%Z
    with (Z.of_nat (length a + length (LBRACE :: m ++ [RBRACE]))).
  - apply slice_middle.
  - rewrite length_app. simpl. rewrite length_app. simpl. lia.
Qed.

(** ** Trimming *)

Lemma trimStart_app a c r :
  isWhiteSpace c = false -> trimStart (a ++ c :: r) = trimStart a ++ c :: r.
Proof.
  intros Hc. induction a as [|x a IH]; simpl.
  - now rewrite Hc.
  - destruct (isWhiteSpace x); [exact IH|reflexivity].
Qed.

Lemma trimEnd_app a c b :
  isWhiteSpace c = false -> trimEnd (a ++ c :: b) = a ++ c :: trimEnd b.
Proof.
  intros Hc. unfold trimEnd. rewrite rev_app_distr. simpl.
  rewrite <- app_assoc. simpl. rewrite trimStart_app by exact Hc.
  rewrite rev_app_distr. simpl. rewrite rev_involutive, <- app_assoc.
  reflexivity.
Qed.

Lemma trimStart_idem a : trimStart (trimStart a) = trimStart a.
Proof.
  induction a as [|x a IH]; simpl; [reflexivity|].
  destruct (isWhiteSpace x) eqn:E; [exact IH|]. simpl. now rewrite E.
Qed.

Lemma trimEnd_idem a : trimEnd (trimEnd a) = trimEnd a.
Proof.
  unfold trimEnd. now rewrite rev_involutive, trimStart_idem.
Qed.

Lemma trimStart_In a x : In x (trimStart a) -> In x a.
Proof.
  induction a as [|y a IH]; simpl; [tauto|].
  destruct (isWhiteSpace y); simpl; tauto.
Qed.

Lemma trimEnd_In a x : In x (trimEnd a) -> In x a.
Proof.
  unfold trimEnd. intros H. apply in_rev in H. apply trimStart_In in H.
  now apply in_rev.
Qed.

(** Trimming a text whose core starts and ends with code units that are no
    white space trims what is around the core. *)
Lemma trim_around a c m d b :
  isWhiteSpace c = false -> isWhiteSpace d = false ->
  trim (a ++ (c :: m ++ [d]) ++ b) = trimStart a ++ (c :: m ++ [d]) ++ trimEnd b.
Proof.
  intros Hc Hd. unfold trim. simpl.
  rewrite trimStart_app by exact Hc.
  replace (trimStart a ++ c :: (m ++ [d]) ++ b)
    with ((trimStart a ++ c :: m) ++ d :: b)
    by (rewrite <- !app_assoc; reflexivity).
  rewrite trimEnd_app by exact Hd. now rewrite <- !app_assoc.
Qed.

Lemma trim_core c m d :
  isWhiteSpace c = false -> isWhiteSpace d = false ->
  trim (c :: m ++ [d]) = c :: m ++ [d].
Proof.
  intros Hc Hd.
  pose proof (trim_around [] c m d [] Hc Hd) as H. simpl in H.
  rewrite !app_nil_r in H. exact H.
Qed.

(** ** Fences *)

Lemma starts_with_FENCE s : starts_with FENCE s = starts_with_fence s.
Proof.
  unfold FENCE.
  destruct s as [|a [|b [|c s]]]; cbn [starts_with starts_with_fence];
    rewrite ?andb_false_r, ?andb_true_r; try reflexivity.
  rewrite (N.eqb_sym BACKTICK a), (N.eqb_sym BACKTICK b),
    (N.eqb_sym BACKTICK c).
  now rewrite andb_assoc.
Qed.

Lemma no_fence_cons c s :
  includes (c :: s) FENCE = false ->
  starts_with_fence (c :: s) = false /\ includes s FENCE = false.
Proof.
  change (includes (c :: s) FENCE)
    with (starts_with FENCE (c :: s) || includes s FENCE).
  rewrite starts_with_FENCE. now intros H%orb_false_iff.
Qed.

Lemma fence_match_none s : includes s FENCE = false -> fence_match s = None.
Proof.
  induction s as [|c s IH]; intros H.
  - reflexivity.
  - apply no_fence_cons in H. destruct H as [H1 H2].
    cbn [fence_match]. unfold match_here. rewrite H1. now apply IH.
Qed.

Lemma remove_fences_none s : includes s FENCE = false -> remove_fences s = s.
Proof.
  induction s as [|c s IH]; intros H.
  - reflexivity.
  - apply no_fence_cons in H. destruct H as [H1 H2].
    cbn [remove_fences]. rewrite H1. now rewrite IH.
Qed.

(** ** The escaper outside string literals *)

Lemma rewrite_from_plain a :
  ~ In DQUOTE a ->
  rewrite_from Outside a = a /\ fold_left advance a Outside = Outside.
Proof.
  induction a as [|c a IH]; simpl; intros H; [now split|].
  destruct (N.eqb_spec c DQUOTE) as [->|Hne]; [tauto|].
  destruct IH as [IH1 IH2]; [tauto|]. now rewrite IH1, IH2.
Qed.

(** The escaper writes no code unit of its own but the backslash and the
    letter n. *)
Lemma rewrite_from_In c s : forall p,
  In c (rewrite_from p s) -> c <> BACKSLASH -> c <> LOWER_N -> In c s.
Proof.
  induction s as [|x s IH]; intros p H Hb Hn; simpl in *; [exact H|].
  apply in_app_or in H. destruct H as [H|H].
  - left. destruct p; simpl in H.
    + destruct H as [H|[]]. exact H.
    + destruct (x =? LF).
      * destruct H as [H|[H|[]]]; congruence.
      * destruct (x =? CR); [contradiction|]. destruct H as [H|[]]. exact H.
    + destruct H as [H|[]]. exact H.
  - right. now apply (IH (advance p x)).
Qed.

(** ** The fallback ladder *)

Section Ladder.
Context `{Num : JSNumber}.

Lemma canonical_responses_typed :
  is_LLMResponse no_valid_response = true /\
  is_LLMResponse parsing_error_response = true.
Proof. split; reflexivity. Qed.

Lemma enrich_needs_array parsed docsContext :
  has_suggestions_array parsed = false ->
  enrich parsed docsContext = Throw TypeError.
Proof.
  unfold enrich. destruct parsed as [| | | | |l|o]; simpl; try reflexivity.
  destruct (field o (js "suggestions")); try reflexivity. discriminate.
Qed.

(** C1, as the code has it.  For every raw text and every context: when no
    decoding succeeds the pipeline returns one of the two canonical empty
    responses, which are well-typed; when a decoding succeeds with a
    well-typed response it returns a well-typed response; the decoded
    value is not validated, and when it is not an object with an array
    under [suggestions] the pipeline throws a TypeError. *)
Theorem pipeline_outcomes (rawText : jsstring) (docsContext : list QueryResult) :
  match parse_with_fallback (sanitize rawText) with
  | Returned response =>
      parse_and_enrich rawText docsContext = Ok response /\
      (response = no_valid_response \/ response = parsing_error_response) /\
      is_LLMResponse response = true
  | Parsed parsed =>
      (is_LLMResponse parsed = true ->
       exists response,
         parse_and_enrich rawText docsContext = Ok response /\
         is_LLMResponse response = true) /\
      (has_suggestions_array parsed = false ->
       parse_and_enrich rawText docsContext = Throw TypeError)
  end.
Proof.
  unfold parse_and_enrich.
  destruct (parse_with_fallback (sanitize rawText)) as [parsed|response] eqn:E.
  - split.
    + intros H. now apply enrich_typed.
    + intros H. now apply enrich_needs_array.
  - split; [reflexivity|].
    unfold parse_with_fallback in E.
    destruct (JSON_parse (trim _)); [discriminate|].
    destruct (negb _ && negb _).
    + destruct (JSON_parse (slice _ _ _)); [discriminate|].
      inversion E; subst. split; [now right|reflexivity].
    + inversion E; subst. split; [now left|reflexivity].
Qed.

(** C4, as the code has it.  When the direct decoding of the sanitized
    text fails, the pipeline returns a canonical empty response --
    [impact_level] ['none'], a fixed summary, no suggestions -- if the text
    has no opening brace or no closing brace, and if the decoding of the
    slice from the first opening brace to the last closing brace fails
    too; it does not throw. *)
Theorem fallback_when_decoding_fails
    (rawText : jsstring) (docsContext : list QueryResult) :
  JSON_parse (trim (sanitize rawText)) = None ->
  ((~ In LBRACE (sanitize rawText) \/ ~ In RBRACE (sanitize rawText)) ->
   parse_and_enrich rawText docsContext = Ok no_valid_response) /\
  (In LBRACE (sanitize rawText) -> In RBRACE (sanitize rawText) ->
   JSON_parse (slice (sanitize rawText)
                     (indexOf (sanitize rawText) LBRACE)
                     (lastIndexOf (sanitize rawText) RBRACE + 1)) = None ->
   parse_and_enrich rawText docsContext = Ok parsing_error_response) /\
  (forall response,
     response = no_valid_response \/ response = parsing_error_response ->
     exists o summary,
       response = JObject o /\
       field o (js "impact_level") = JString (js "none") /\
       field o (js "summary") = JString summary /\
       field o (js "suggestions") = JArray []).
Proof.
  intros Hdirect. unfold parse_and_enrich, parse_with_fallback.
  rewrite Hdirect. split; [|split].
  - intros [H|H].
    + apply indexOf_absent in H. rewrite H. reflexivity.
    + apply lastIndexOf_absent in H. rewrite H.
      now rewrite andb_false_r.
  - intros HL HR Hslice.
    destruct (Z.eqb_spec (indexOf (sanitize rawText) LBRACE) (-1)) as [E|_].
    { apply indexOf_absent in E. contradiction. }
    destruct (Z.eqb_spec (lastIndexOf (sanitize rawText) RBRACE) (-1)) as [E|_].
    { apply lastIndexOf_absent in E. contradiction. }
    simpl. now rewrite Hslice.
  - intros response [-> | ->]; eexists _, _; repeat split.
Qed.

(** The tier of the brace slice, for every sanitized text. *)
Lemma brace_tier sanitized :
  JSON_parse (trim sanitized) = None ->
  In LBRACE sanitized -> In RBRACE sanitized ->
  parse_with_fallback sanitized =
  match JSON_parse (slice sanitized (indexOf sanitized LBRACE)
                          (lastIndexOf sanitized RBRACE + 1)) with
  | Some v => Parsed v
  | None => Returned parsing_error_response
  end.
Proof.
  intros Hdirect HL HR. unfold parse_with_fallback. rewrite Hdirect.
  destruct (Z.eqb_spec (indexOf sanitized LBRACE) (-1)) as [E|_].
  { apply indexOf_absent in E. contradiction. }
  destruct (Z.eqb_spec (lastIndexOf sanitized RBRACE) (-1)) as [E|_].
  { apply lastIndexOf_absent in E. contradiction. }
  reflexivity.
Qed.

End Ladder.

(** ** Texts around a JSON object *)

Lemma not_contains_FENCE s : ~ contains s FENCE -> includes s FENCE = false.
Proof.
  intros H. destruct (includes s FENCE) eqn:E; [|reflexivity].
  apply includes_spec in E. contradiction.
Qed.

Lemma whitespace_not_backtick c : isWhiteSpace c = true -> c <> BACKTICK.
Proof. intros H. chars. Qed.

Lemma whitespace_plain w :
  forallb isWhiteSpace w = true -> ~ In BACKTICK w.
Proof.
  rewrite forallb_forall. intros H Hin. apply H in Hin.
  now apply whitespace_not_backtick in Hin.
Qed.

Lemma trimStart_whitespace w : forallb isWhiteSpace w = true -> trimStart w = [].
Proof.
  induction w as [|c w IH]; simpl; [reflexivity|].
  intros H. apply andb_true_iff in H. destruct H as [-> Hw]. now apply IH.
Qed.

Lemma trimEnd_whitespace w : forallb isWhiteSpace w = true -> trimEnd w = [].
Proof.
  intros H. unfold trimEnd. rewrite trimStart_whitespace; [reflexivity|].
  rewrite forallb_forall in *. intros x Hx. apply H. now apply in_rev.
Qed.

(** No fence starts inside a text without fences that ends with a code
    unit other than the backtick, whatever follows. *)
Lemma no_fence_at_junction x d y :
  includes (x ++ [d]) FENCE = false -> d <> BACKTICK ->
  starts_with_fence (x ++ d :: y) = false.
Proof.
  intros H Hd. apply N.eqb_neq in Hd.
  destruct x as [|a [|b [|c x]]].
  - destruct y as [|y1 [|y2 y]]; cbn [app starts_with_fence];
      rewrite ?Hd; reflexivity.
  - destruct y as [|y1 y]; cbn [app starts_with_fence];
      rewrite ?Hd, ?andb_false_r; reflexivity.
  - cbn [app starts_with_fence]. now rewrite Hd, andb_false_r.
  - apply no_fence_cons in H. now destruct H as [H _].
Qed.

Lemma no_fence_in_plain w y :
  ~ In BACKTICK w -> w <> [] -> starts_with_fence (w ++ y) = false.
Proof.
  destruct w as [|c w]; [contradiction|]. intros H _.
  assert (c <> BACKTICK) as Hc by (intros ->; apply H; now left).
  apply N.eqb_neq in Hc. simpl. destruct (w ++ y) as [|b [|e r]]; try reflexivity.
  now rewrite Hc.
Qed.

Lemma lazy_until_fence_prefix x d y :
  includes (x ++ [d]) FENCE = false -> d <> BACKTICK ->
  lazy_until_fence (x ++ d :: y) =
  match lazy_until_fence y with
  | Some cap => Some (x ++ d :: cap)
  | None => None
  end.
Proof.
  intros H Hd. induction x as [|a x IH].
  - pose proof (no_fence_at_junction [] d y H Hd) as J.
    cbn [app] in *. cbn [lazy_until_fence]. now rewrite J.
  - pose proof (no_fence_at_junction (a :: x) d y H Hd) as J.
    apply no_fence_cons in H. destruct H as [_ H].
    cbn [app] in *. cbn [lazy_until_fence]. rewrite J, (IH H).
    now destruct (lazy_until_fence y).
Qed.

Lemma lazy_until_fence_plain w y :
  ~ In BACKTICK w ->
  lazy_until_fence (w ++ y) =
  match lazy_until_fence y with
  | Some cap => Some (w ++ cap)
  | None => None
  end.
Proof.
  induction w as [|c w IH]; intros H.
  - simpl. now destruct (lazy_until_fence y).
  - pose proof (no_fence_in_plain (c :: w) y H ltac:(discriminate)) as J.
    cbn [app] in *. cbn [lazy_until_fence]. rewrite J, IH.
    + now destruct (lazy_until_fence y).
    + intros Hin. apply H. now right.
Qed.

Lemma remove_fences_prefix x d y :
  includes (x ++ [d]) FENCE = false -> d <> BACKTICK ->
  remove_fences (x ++ d :: y) = x ++ d :: remove_fences y.
Proof.
  intros H Hd. induction x as [|a x IH].
  - pose proof (no_fence_at_junction [] d y H Hd) as J.
    cbn [app] in *. cbn [remove_fences]. now rewrite J.
  - pose proof (no_fence_at_junction (a :: x) d y H Hd) as J.
    apply no_fence_cons in H. destruct H as [_ H].
    cbn [app] in *. cbn [remove_fences]. now rewrite J, (IH H).
Qed.

Lemma remove_fences_plain w : ~ In BACKTICK w -> remove_fences w = w.
Proof.
  induction w as [|c w IH]; intros H; [reflexivity|].
  pose proof (no_fence_in_plain (c :: w) [] H ltac:(discriminate)) as J.
  rewrite app_nil_r in J. cbn [remove_fences]. rewrite J, IH; [reflexivity|].
  intros Hin. apply H. now right.
Qed.

Lemma fence_match_after x d s :
  includes (x ++ [d]) FENCE = false -> d <> BACKTICK ->
  fence_match (x ++ d :: s) = fence_match s.
Proof.
  intros H Hd. induction x as [|a x IH].
  - pose proof (no_fence_at_junction [] d s H Hd) as J.
    cbn [app] in *. cbn [fence_match]. unfold match_here at 1. now rewrite J.
  - pose proof (no_fence_at_junction (a :: x) d s H Hd) as J.
    apply no_fence_cons in H. destruct H as [_ H].
    cbn [app] in *. cbn [fence_match]. unfold match_here at 1. rewrite J.
    now apply IH.
Qed.

(** No match starts in a prefix that has no fence and does not end with a
    backtick. *)
Lemma fence_match_skip pre s :
  ~ contains pre FENCE -> last pre SPACE <> BACKTICK ->
  fence_match (pre ++ s) = fence_match s.
Proof.
  intros Hf Hl. destruct pre as [|c pre]; [reflexivity|].
  assert (c :: pre <> []) as Hne by discriminate.
  rewrite (app_removelast_last SPACE Hne) in Hf |- *.
  rewrite <- app_assoc. apply fence_match_after; [|exact Hl].
  now apply not_contains_FENCE.
Qed.

Lemma greedy_space_skip w c r cap :
  forallb isWhiteSpace w = true -> isWhiteSpace c = false ->
  lazy_until_fence (c :: r) = Some cap ->
  greedy_space (w ++ c :: r) = Some cap.
Proof.
  intros Hw Hc Hl. induction w as [|x w IH].
  - cbn [app greedy_space]. now rewrite Hc.
  - simpl in Hw. apply andb_true_iff in Hw. destruct Hw as [Hx Hw].
    cbn [app greedy_space]. now rewrite Hx, (IH Hw).
Qed.

Lemma json_tag_absent w s :
  forallb isWhiteSpace w = true -> hd_error s = Some LBRACE ->
  json_tag (w ++ s) = None.
Proof.
  intros Hw Hs. destruct w as [|x w].
  - destruct s as [|c r]; [discriminate|]. inversion Hs; subst.
    simpl. destruct r as [|? [|? [|? ?]]]; reflexivity.
  - simpl in Hw. apply andb_true_iff in Hw. destruct Hw as [Hx _].
    assert ((x =? 106) = false) as H1 by chars.
    assert ((x =? 74) = false) as H2 by chars.
    cbn [app json_tag]. destruct (w ++ s) as [|? [|? [|? ?]]];
      try reflexivity.
    now rewrite H1, H2.
Qed.

Lemma object_app m y :
  (LBRACE :: m ++ [RBRACE]) ++ y = (LBRACE :: m) ++ RBRACE :: y.
Proof. simpl. now rewrite <- app_assoc. Qed.

Lemma json_tag_present tag r :
  json_tag tag = Some [] -> json_tag (tag ++ r) = Some r.
Proof.
  destruct tag as [|a [|b [|c [|d t]]]]; simpl; try discriminate.
  destruct (_ && _); [|discriminate]. intros H. inversion H; subst. reflexivity.
Qed.

(** ** The fuel of the syntactic grammar *)

Section Fuel.
Context `{Num : JSNumber}.

Lemma parse_settled m : forall ts,
  settled (fun n => parse_value n ts) ts m /\
  (forall acc, settled (fun n => parse_elements n ts acc) ts m) /\
  (forall acc, settled (fun n => parse_members n ts acc) ts m).
Proof.
  induction m as [|m IH]; intros ts.
  { split; [|split]; [|intros acc|intros acc]; intros x rest H;
      discriminate. }
  split; [|split].
  - intros v rest H. cbn [parse_value] in H.
    destruct ts as [|t r]; [discriminate|].
    destruct t; try discriminate;
      try (inversion H; subst; split; [cbn [length] in *; lia|];
           intros [|n] Hn; [cbn [length] in *; lia|reflexivity]).
    + (* an object *)
      assert (parse_members m r [] = Some (v, rest) ->
              (length rest < length (TLBrace :: r))%nat /\
              forall n, (length (TLBrace :: r) - length rest <= n)%nat ->
                        parse_value n (TLBrace :: r) = Some (v, rest)) as Hrec.
      { intros Hm. destruct (IH r) as (_ & _ & IHm).
        destruct (IHm [] v rest Hm) as [Hlt Hall]. split; [cbn [length] in *; lia|].
        intros [|n] Hn; [cbn [length] in *; lia|].
        cbn [parse_value].
        destruct r as [|t2 r2]; [cbn [length] in *; lia|].
        assert (parse_members n (t2 :: r2) [] = Some (v, rest)) as E
          by (apply Hall; cbn [length] in *; lia).
        destruct t2; try exact E.
        destruct n; discriminate. }
      destruct r as [|t2 r2]; [now apply Hrec|].
      destruct t2; try (now apply Hrec).
      inversion H; subst. split; [cbn [length] in *; lia|].
      intros [|n] Hn; [cbn [length] in *; lia|reflexivity].
    + (* an array *)
      assert (parse_elements m r [] = Some (v, rest) ->
              (length rest < length (TLBracket :: r))%nat /\
              forall n, (length (TLBracket :: r) - length rest <= n)%nat ->
                        parse_value n (TLBracket :: r) = Some (v, rest)) as Hrec.
      { intros Hm. destruct (IH r) as (_ & IHe & _).
        destruct (IHe [] v rest Hm) as [Hlt Hall]. split; [cbn [length] in *; lia|].
        intros [|n] Hn; [cbn [length] in *; lia|].
        cbn [parse_value].
        destruct r as [|t2 r2]; [cbn [length] in *; lia|].
        assert (parse_elements n (t2 :: r2) [] = Some (v, rest)) as E
          by (apply Hall; cbn [length] in *; lia).
        destruct t2; try exact E.
        destruct n; [discriminate|]. cbn [parse_elements] in E.
        destruct n; discriminate. }
      destruct r as [|t2 r2]; [now apply Hrec|].
      destruct t2; try (now apply Hrec).
      inversion H; subst. split; [cbn [length] in *; lia|].
      intros [|n] Hn; [cbn [length] in *; lia|reflexivity].
  - intros acc v rest H. cbn [parse_elements] in H.
    destruct (parse_value m ts) as [[v1 after]|] eqn:Ev; [|discriminate].
    destruct (IH ts) as (IHv & _ & _).
    destruct (IHv v1 after Ev) as [Hlt Hall].
    destruct after as [|t r]; [discriminate|].
    destruct t; try discriminate.
    + (* closing bracket *)
      inversion H; subst. split; [cbn [length] in *; lia|].
      intros [|n] Hn; [cbn [length] in *; lia|]. cbn [parse_elements].
      rewrite Hall by (cbn [length] in *; lia). reflexivity.
    + (* comma *)
      destruct (IH r) as (_ & IHe & _).
      destruct (IHe _ v rest H) as [Hlt' Hall']. split; [cbn [length] in *; lia|].
      intros [|n] Hn; [cbn [length] in *; lia|]. cbn [parse_elements].
      rewrite Hall by (cbn [length] in *; lia).
      apply Hall'. cbn [length] in *. lia.
  - intros acc v rest H. cbn [parse_members] in H.
    destruct ts as [|t [|t' r]]; try discriminate;
      destruct t; try discriminate.
    destruct t'; try discriminate.
    destruct (parse_value m r) as [[v1 after]|] eqn:Ev; [|discriminate].
    destruct (IH r) as (IHv & _ & _).
    destruct (IHv v1 after Ev) as [Hlt Hall].
    destruct after as [|t r']; [discriminate|].
    destruct t; try discriminate.
    + (* closing brace *)
      inversion H; subst. split; [cbn [length] in *; lia|].
      intros [|n] Hn; [cbn [length] in *; lia|]. cbn [parse_members].
      rewrite Hall by (cbn [length] in *; lia). reflexivity.
    + (* comma *)
      destruct (IH r') as (_ & _ & IHm).
      destruct (IHm _ v rest H) as [Hlt' Hall']. split; [cbn [length] in *; lia|].
      intros [|n] Hn; [cbn [length] in *; lia|]. cbn [parse_members].
      rewrite Hall by (cbn [length] in *; lia).
      apply Hall'. cbn [length] in *. lia.
Qed.

(** The fuel JSON_parse gives is enough: more fuel decodes the same. *)
Lemma parse_value_enough_fuel ts n :
  (S (length ts) <= n)%nat ->
  parse_value n ts = parse_value (S (length ts)) ts.
Proof.
  intros Hn.
  destruct (parse_value (S (length ts)) ts) as [[v rest]|] eqn:E.
  - destruct (parse_settled (S (length ts)) ts) as (Hv & _ & _).
    destruct (Hv v rest E) as [_ Hall]. apply Hall. lia.
  - destruct (parse_value n ts) as [[v rest]|] eqn:E'; [|reflexivity].
    destruct (parse_settled n ts) as (Hv & _ & _).
    destruct (Hv v rest E') as [_ Hall].
    rewrite Hall in E by lia. discriminate.
Qed.

End Fuel.

(** * The model on concrete inputs *)

Lemma not_In_by_test (c : code_unit) (s : jsstring) :
  forallb (fun x => negb (x =? c)) s = true -> ~ In c s.
Proof.
  rewrite forallb_forall. intros H Hin. apply H in Hin.
  now rewrite N.eqb_refl in Hin.
Defined.

Lemma not_contains_by_test (s sub : jsstring) :
  includes s sub = false -> ~ contains s sub.
Proof.
  intros H Hc. apply includes_spec in Hc. congruence.
Defined.

Section Concrete.
Import Examples.
#[local] Existing Instance literal_number.

(** The test of generateSuggestions in the repository: the fenced answer
    with a literal newline is decoded, and the suggestion gets the lines of
    the record of its file. *)
Example generateSuggestions_test :
  generateSuggestions (Ok (Some (Some [Some test_rawText]))) test_docsContext
  = Ok (test_response
          [test_suggestion (JNumber (js "10")) (JNumber (js "20"))]).
Proof. vm_compute. reflexivity. Qed.

(** The first test of postComment, through a whole run: the comment 42 is
    updated and none is created. *)
Example run_test :
  filter is_comment_write
    (run test_formatComment test_marker test_inputs answering_world)
  = [ UpdateComment (js "owner") (Some (js "repo")) 42
        (js "Documentation Update Suggestions: see below") ].
Proof. vm_compute. reflexivity. Qed.

(** Property "Escaper newline containment" of the specification. *)
Example escaper_newline_containment :
  JSON_parse (escapeNewlinesInStrings
                (jsq "{'a': 'line1" ++ [LF] ++ jsq "line2'}"))
  = Some (JObject [(js "a", JString (js "line1" ++ [LF] ++ js "line2"))]).
Proof. vm_compute. reflexivity. Qed.

(** JSON.parse on a few texts: what it builds, and what it rejects. *)
Example JSON_parse_nested :
  JSON_parse (jsq " {'a': [1, -2.5e3, true, null], 'b': {'c': 'xA\n'}} ")
  = Some (JObject
            [ (js "a", JArray [ JNumber (js "1"); JNumber (js "-2.5e3");
                                JBool true; JNull ]);
              (js "b", JObject [ (js "c", JString (js "xA" ++ [LF])) ]) ]).
Proof. vm_compute. reflexivity. Qed.

Example JSON_parse_duplicate_key :
  JSON_parse (jsq "{'a': 1, 'b': 2, 'a': 3}")
  = Some (JObject [ (js "a", JNumber (js "3")); (js "b", JNumber (js "2")) ]).
Proof. vm_compute. reflexivity. Qed.

Example JSON_parse_rejects :
  List.map JSON_parse
    [ js ""; js "[1,]"; js "01"; js "1."; js ".5"; js "+1"; js "tru";
      jsq "'a"; jsq "{'a' 1}"; jsq "{'a':1,}"; jsq "'a" ++ [LF] ++ jsq "b'";
      jsq "'\x'"; js "[1 2]"; js "{}{}"; [160; 49]; js "nul"; js "[" ]
  = repeat None 17.
Proof. vm_compute. reflexivity. Qed.

(** The regular expression: the first fence is taken, with or without the
    tag; an opening fence that is never closed matches nothing; the white
    space after the tag is not captured, the one before the closing fence
    is. *)
Example fence_match_first :
  fence_match (js "a ```json x ``` b ```y```") = Some (js "x ").
Proof. vm_compute. reflexivity. Qed.

Example fence_match_untagged :
  fence_match (js "```" ++ [LF] ++ js "jsonx```") = Some (js "jsonx").
Proof. vm_compute. reflexivity. Qed.

Example fence_match_unclosed :
  fence_match (js "```json {} ``") = None.
Proof. vm_compute. reflexivity. Qed.

(** Property "Enrichment exact-match-only" of the specification, with a
    path that differs by case only. *)
Example enrichment_exact_match_only :
  mapM (enrich_suggestion
          [ mkQueryResult (js "docs/a.md") (js "0") (js "10") (js "20") []
                          (js "1") ])
       [ JObject [ (js "target_file", JString (js "docs/a.md")) ];
         JObject [ (js "target_file", JString (js "docs/b.md")) ];
         JObject [ (js "target_file", JString (js "Docs/a.md")) ] ]
  = Ok [ JObject [ (js "target_file", JString (js "docs/a.md"));
                   (js "start_line", JNumber (js "10"));
                   (js "end_line", JNumber (js "20")) ];
         JObject [ (js "target_file", JString (js "docs/b.md"));
                   (js "start_line", JUndefined);
                   (js "end_line", JUndefined) ];
         JObject [ (js "target_file", JString (js "Docs/a.md"));
                   (js "start_line", JUndefined);
                   (js "end_line", JUndefined) ] ].
Proof. vm_compute. reflexivity. Qed.

(** The second test of postComment: no comment has the marker, one is
    created. *)
Example postComment_creates :
  fst (postComment test_marker
         (mkTransport (Ok [mkComment 1 (js "Another comment")]) (Ok tt) (Ok tt))
         (js "owner") (Some (js "repo")) 3 (js "fresh body"))
  = [ ListComments (js "owner") (Some (js "repo")) 3;
      CreateComment (js "owner") (Some (js "repo")) 3 (js "fresh body") ].
Proof. vm_compute. reflexivity. Qed.

(** The test of queryPinecone: a match with all its fields is returned as
    it is. *)
Example queryPinecone_test :
  queryPinecone test_embedding
    (fun _ => Ok (Some [ mkScoredMatch
                           (Some (mkMatchMetadata (Some (js "docs/guide.md"))
                                    (Some (js "1")) (Some (js "5"))
                                    (Some (js "15")) (Some (js "Snippet"))))
                           (Some (js "0.87")) ]))
  = Ok [ mkQueryResult (js "docs/guide.md") (js "1") (js "5") (js "15")
                       (js "Snippet") (js "0.87") ].
Proof. vm_compute. reflexivity. Qed.

(** C1, counterexample: the raw text [{}] is valid JSON, so no fallback
    tier is taken, and enrichment throws a TypeError on the missing
    [suggestions]. *)
Lemma pipeline_throws_on_empty_object :
  parse_and_enrich (js "{}") test_docsContext = Throw TypeError.
Proof. vm_compute. reflexivity. Qed.

(** C1 at the answer of the test: it decodes to a well-typed response, and
    a well-typed response is returned. *)
Lemma pipeline_outcomes_witness :
  parse_with_fallback (sanitize test_rawText)
  = Parsed (test_response [JObject test_suggestion_fields]) /\
  is_LLMResponse (test_response [JObject test_suggestion_fields]) = true /\
  exists response,
    parse_and_enrich test_rawText test_docsContext = Ok response /\
    is_LLMResponse response = true.
Proof.
  assert (parse_with_fallback (sanitize test_rawText)
          = Parsed (test_response [JObject test_suggestion_fields])) as E
    by (vm_compute; reflexivity).
  split; [exact E|]. split; [vm_compute; reflexivity|].
  pose proof (pipeline_outcomes test_rawText test_docsContext) as H.
  rewrite E in H. destruct H as [H _]. apply H. vm_compute. reflexivity.
Defined.

(** C4, counterexample: the sanitized text [[]] has no brace at all, yet
    no canonical response is returned: the text decodes, and enrichment
    throws. *)
Lemma no_brace_text_not_absorbed :
  ~ In LBRACE (sanitize (js "[]")) /\
  ~ In RBRACE (sanitize (js "[]")) /\
  parse_and_enrich (js "[]") test_docsContext = Throw TypeError.
Proof.
  repeat split; try (apply not_In_by_test; vm_compute; reflexivity).
Qed.

(** C4 at a refusal in plain prose: nothing decodes, there is no brace, and
    the canonical response is returned. *)
Lemma fallback_when_decoding_fails_witness :
  JSON_parse (trim (sanitize (js "Sorry, I cannot help."))) = None /\
  parse_and_enrich (js "Sorry, I cannot help.") test_docsContext
  = Ok no_valid_response.
Proof.
  split; [vm_compute; reflexivity|].
  apply (fallback_when_decoding_fails (js "Sorry, I cannot help.")
           test_docsContext); [vm_compute; reflexivity|].
  left. apply not_In_by_test. vm_compute. reflexivity.
Defined.

(** C6, counterexample: prose with braces of its own before a valid
    response, and no fence.  The slice starts at the brace of the prose, it
    does not decode, and the response is lost. *)
Lemma prose_with_braces_loses_response :
  JSON_parse empty_set_json = Some empty_set /\
  is_LLMResponse empty_set = true /\
  ~ contains (js "Result {draft}: " ++ empty_set_json) FENCE /\
  parse_with_fallback (sanitize (js "Result {draft}: " ++ empty_set_json))
  = Returned parsing_error_response.
Proof.
  repeat split; try (vm_compute; reflexivity).
  apply not_contains_by_test. vm_compute. reflexivity.
Qed.

(** C7, counterexample: a valid response whose summary quotes a triple
    backtick, in a fenced json block.  The capture stops at the quoted
    backticks, nothing decodes, and the canonical empty response is
    returned instead of the response. *)
Lemma fenced_response_with_backticks_lost :
  JSON_parse fence_in_summary_json = Some fence_in_summary /\
  is_LLMResponse fence_in_summary = true /\
  parse_with_fallback
    (sanitize (lines [js "```json"; fence_in_summary_json; js "```"]))
  = Returned no_valid_response.
Proof. repeat split; vm_compute; reflexivity. Qed.

(** C8 at a JSON text whose strings hold backticks and no newline. *)
Lemma escaper_identity_on_valid_json_witness :
  JSON_parse fence_in_summary_json = Some fence_in_summary /\
  escapeNewlinesInStrings fence_in_summary_json = fence_in_summary_json /\
  escapeNewlinesInStrings (escapeNewlinesInStrings fence_in_summary_json)
  = escapeNewlinesInStrings fence_in_summary_json.
Proof.
  split; [vm_compute; reflexivity|].
  apply (escaper_identity_on_valid_json fence_in_summary_json fence_in_summary).
  vm_compute. reflexivity.
Defined.

(** C3 at a response with one suggestion and three records, two of them
    for its file. *)
Lemma enrichment_joins_first_match_witness :
  is_LLMResponse (JObject response_a) = true /\
  exists o l r l',
    JObject response_a = JObject o /\ field o (js "suggestions") = JArray l /\
    enrich (JObject response_a) docs_a = Ok (JObject r) /\
    List.map fst r = List.map fst o /\
    (forall k, k <> js "suggestions" -> field r k = field o k) /\
    field r (js "suggestions") = JArray l' /\
    length l' = length l /\
    forall i s, nth_error l i = Some s ->
      exists so so' t,
        s = JObject so /\ field so (js "target_file") = JString t /\
        nth_error l' i = Some (JObject so') /\
        (forall k, k <> js "start_line" -> k <> js "end_line" ->
           field so' k = field so k) /\
        (forall pre d post,
           docs_a = pre ++ d :: post -> file d = t ->
           (forall d', In d' pre -> file d' <> t) ->
           field so' (js "start_line") = JNumber (startLine d) /\
           field so' (js "end_line") = JNumber (endLine d)) /\
        (field so' (js "start_line") <> JUndefined <->
           exists d, In d docs_a /\ file d = t) /\
        (field so' (js "end_line") <> JUndefined <->
           exists d, In d docs_a /\ file d = t).
Proof.
  split; [vm_compute; reflexivity|].
  apply (enrichment_joins_first_match (JObject response_a) docs_a).
  vm_compute. reflexivity.
Defined.

(** The suggestion for [docs/a.md] gets the lines of the first of the two
    records of that file, not those of the record before it nor of the
    later one. *)
Example enrichment_first_match_wins :
  enrich (JObject response_a) docs_a
  = Ok (JObject
          [ (js "impact_level", JString (js "medium"));
            (js "summary", JString (js "Document the option"));
            (js "suggestions",
             JArray [JObject (suggestion_a
                              ++ [ (js "start_line", JNumber (js "10"));
                                   (js "end_line", JNumber (js "20")) ])]) ]).
Proof. vm_compute. reflexivity. Qed.

(** C10 at a response with one match that has neither metadata nor
    score. *)
Lemma queryPinecone_fills_defaults_witness :
  queryPinecone test_embedding bare_query = Ok [unknown_record] /\
  (exists queryEmbedding queryResponse matches,
     test_embedding = Ok (Some queryEmbedding) /\
     bare_query queryEmbedding = Ok queryResponse /\
     matches = match queryResponse with Some l => l | None => [] end /\
     [unknown_record] = List.map format_match matches /\
     length [unknown_record] = length matches /\
     forall i m, nth_error matches i = Some m ->
       exists r,
         nth_error [unknown_record] i = Some r /\
         (meta m md_file = None -> file r = js "unknown") /\
         (meta m md_chunkIndex = None -> chunkIndex r = number_zero) /\
         (meta m md_startLine = None -> startLine r = number_zero) /\
         (meta m md_endLine = None -> endLine r = number_zero) /\
         (meta m md_text = None -> text r = []) /\
         (match_score m = None -> score r = number_zero) /\
         (forall f, meta m md_file = Some f -> f <> [] -> file r = f) /\
         (forall n, meta m md_chunkIndex = Some n ->
            number_truthy n = true -> chunkIndex r = n) /\
         (forall n, meta m md_startLine = Some n ->
            number_truthy n = true -> startLine r = n) /\
         (forall n, meta m md_endLine = Some n ->
            number_truthy n = true -> endLine r = n) /\
         (forall t, meta m md_text = Some t -> text r = t) /\
         (forall n, match_score m = Some n ->
            number_truthy n = true -> score r = n)) /\
  (forall pre r post o,
     [unknown_record] = pre ++ r :: post ->
     file r = js "unknown" ->
     (forall d, In d pre -> file d <> js "unknown") ->
     field o (js "target_file") = JString (js "unknown") ->
     exists o',
       enrich_suggestion [unknown_record] (JObject o) = Ok (JObject o') /\
       field o' (js "start_line") = JNumber (startLine r) /\
       field o' (js "end_line") = JNumber (endLine r)).
Proof.
  split; [vm_compute; reflexivity|].
  apply (queryPinecone_fills_defaults test_embedding bare_query
           [unknown_record]).
  vm_compute. reflexivity.
Defined.

(** C2 at the comments of the first test of postComment. *)
Lemma postComment_upserts_witness :
  listComments test_transport = Ok test_comments /\
  (forall pre c post,
     test_comments = pre ++ c :: post ->
     contains (comment_body c) test_marker ->
     (forall c', In c' pre -> ~ contains (comment_body c') test_marker) ->
     fst (postComment test_marker test_transport (js "owner")
            (Some (js "repo")) 7 (js "new body"))
     = [ListComments (js "owner") (Some (js "repo")) 7;
        UpdateComment (js "owner") (Some (js "repo")) (comment_id c)
          (js "new body")]) /\
  ((forall c, In c test_comments -> ~ contains (comment_body c) test_marker) ->
   fst (postComment test_marker test_transport (js "owner")
          (Some (js "repo")) 7 (js "new body"))
   = [ListComments (js "owner") (Some (js "repo")) 7;
      CreateComment (js "owner") (Some (js "repo")) 7 (js "new body")]) /\
  length (filter is_comment_write
            (fst (postComment test_marker test_transport (js "owner")
                    (Some (js "repo")) 7 (js "new body")))) = 1%nat.
Proof.
  split; [reflexivity|].
  apply (postComment_upserts test_marker test_transport (js "owner")
           (Some (js "repo")) 7 (js "new body") test_comments).
  reflexivity.
Defined.

(** C9 at a run whose Pinecone query throws. *)
Lemma run_aborts_without_comment_witness :
  upstream_failed pinecone_down /\
  (forall c,
     In c (run test_formatComment test_marker test_inputs pinecone_down) ->
     is_comment_write c = false) /\
  exists e,
    In (SetFailed e)
       (run test_formatComment test_marker test_inputs pinecone_down).
Proof.
  assert (upstream_failed pinecone_down) as H.
  { right. right. left. eexists. vm_compute. reflexivity. }
  split; [exact H|].
  exact (run_aborts_without_comment test_formatComment test_marker
           test_inputs pinecone_down H).
Defined.

End Concrete.

(** * More of the code: properties *)

(** ** escapeNewlinesInStrings *)

Lemma advance_rewritten p c :
  fold_left advance (rewritten p c) p = advance p c.
Proof.
  destruct p; simpl; try reflexivity.
  destruct (N.eqb_spec c LF) as [->|Hl]; [reflexivity|].
  destruct (N.eqb_spec c CR) as [->|Hr]; reflexivity.
Qed.

Lemma rewrite_rewritten p c :
  rewrite_from p (rewritten p c) = rewritten p c.
Proof.
  destruct p; simpl; try reflexivity.
  destruct (N.eqb_spec c LF) as [->|Hl]; [reflexivity|].
  destruct (N.eqb_spec c CR) as [->|Hr]; [reflexivity|].
  simpl. apply N.eqb_neq in Hl, Hr. now rewrite Hl, Hr.
Qed.

Lemma rewrite_from_again s : forall p,
  rewrite_from p (rewrite_from p s) = rewrite_from p s /\
  fold_left advance (rewrite_from p s) p = fold_left advance s p.
Proof.
  induction s as [|c r IH]; intros p; simpl; [now split|].
  rewrite rewrite_from_app, fold_left_app, advance_rewritten, rewrite_rewritten.
  destruct (IH (advance p c)) as [-> ->]. now split.
Qed.

(** X1. escapeNewlinesInStrings is idempotent on every input, and its
    output ends at the same lexical position as its input. *)
Theorem escaper_idempotent (input : jsstring) :
  escapeNewlinesInStrings (escapeNewlinesInStrings input)
  = escapeNewlinesInStrings input /\
  position_after (escapeNewlinesInStrings input) = position_after input.
Proof.
  rewrite !escape_rewrite_from. apply rewrite_from_again.
Qed.

Lemma no_raw_break_app x : forall p y,
  no_raw_break p (x ++ y)
  = no_raw_break p x && no_raw_break (fold_left advance x p) y.
Proof.
  induction x as [|c x IH]; intros p y; simpl; [reflexivity|].
  now rewrite IH, andb_assoc.
Qed.

Lemma no_raw_break_rewritten p c : no_raw_break p (rewritten p c) = true.
Proof.
  destruct p; simpl; try reflexivity.
  destruct (N.eqb_spec c LF) as [->|Hl]; [reflexivity|].
  destruct (N.eqb_spec c CR) as [->|Hr]; [reflexivity|].
  simpl. apply N.eqb_neq in Hl, Hr. now rewrite Hl, Hr.
Qed.

Lemma no_raw_break_rewrite_from s : forall p,
  no_raw_break p (rewrite_from p s) = true.
Proof.
  induction s as [|c r IH]; intros p; simpl; [reflexivity|].
  now rewrite no_raw_break_app, no_raw_break_rewritten, advance_rewritten, IH.
Qed.

(** X2. In the output of escapeNewlinesInStrings no newline and no carriage
    return stands at a position inside a string literal (that is, inside a
    literal and not right after a backslash). *)
Theorem escaper_output_has_no_raw_break (input a b : jsstring) (c : code_unit) :
  escapeNewlinesInStrings input = a ++ c :: b ->
  position_after a = InString ->
  c <> LF /\ c <> CR.
Proof.
  intros Ho Hp.
  pose proof (no_raw_break_rewrite_from input Outside) as H.
  rewrite <- escape_rewrite_from, Ho, no_raw_break_app in H.
  apply andb_true_iff in H. destruct H as [_ H].
  unfold position_after in Hp. rewrite Hp in H. simpl in H.
  apply andb_true_iff in H. destruct H as [H _].
  apply andb_true_iff in H. destruct H as [H1 H2].
  apply negb_true_iff in H1, H2. apply N.eqb_neq in H1, H2. now split.
Qed.

Lemma rewrite_from_no_break s : forall p,
  ~ In LF s -> ~ In CR s -> rewrite_from p s = s.
Proof.
  induction s as [|c r IH]; intros p Hl Hr; simpl; [reflexivity|].
  assert (c <> LF) as H1 by (intros ->; apply Hl; now left).
  assert (c <> CR) as H2 by (intros ->; apply Hr; now left).
  apply N.eqb_neq in H1, H2.
  rewrite IH;
    [|intros H; apply Hl; now right|intros H; apply Hr; now right].
  destruct p; simpl; rewrite ?H1, ?H2; reflexivity.
Qed.

(** X3. escapeNewlinesInStrings returns its input unchanged when the input
    has no double quote, and when it has neither a newline nor a carriage
    return. *)
Theorem escaper_unchanged (input : jsstring) :
  ~ In DQUOTE input \/ (~ In LF input /\ ~ In CR input) ->
  escapeNewlinesInStrings input = input.
Proof.
  rewrite escape_rewrite_from. intros [H|[Hl Hr]].
  - now destruct (rewrite_from_plain input H).
  - now apply rewrite_from_no_break.
Qed.

(** ** The sanitizer *)

Lemma remove_fences_head s :
  starts_with_fence (remove_fences s) = false.
Proof.
  remember (length s) as n eqn:Hn. revert s Hn.
  induction n as [n IH] using lt_wf_ind. intros s Hn.
  destruct s as [|a r]; [reflexivity|].
  cbn [remove_fences].
  destruct (starts_with_fence (a :: r)) eqn:E.
  - destruct r as [|b [|c r3]]; try reflexivity.
    apply (IH (length r3)); [subst n; simpl; lia|reflexivity].
  - destruct (N.eqb_spec a BACKTICK) as [->|Ha].
    2:{ apply N.eqb_neq in Ha. cbn [starts_with_fence].
        destruct (remove_fences r) as [|x [|y z]]; try reflexivity.
        now rewrite Ha. }
    destruct r as [|b r']; [reflexivity|].
    destruct (N.eqb_spec b BACKTICK) as [->|Hb].
    2:{ apply N.eqb_neq in Hb. cbn [remove_fences].
        assert (starts_with_fence (b :: r') = false) as ->.
        { cbn [starts_with_fence]. destruct r' as [|? [|? ?]]; try reflexivity.
          now rewrite Hb. }
        cbn [starts_with_fence]. destruct (remove_fences r'); [reflexivity|].
        now rewrite Hb, andb_false_r. }
    destruct r' as [|c r'']; [reflexivity|].
    assert ((c =? BACKTICK) = false) as Hc.
    { cbn [starts_with_fence] in E. rewrite !N.eqb_refl in E. exact E. }
    cbn [remove_fences].
    assert (starts_with_fence (BACKTICK :: c :: r'') = false) as ->.
    { cbn [starts_with_fence]. destruct r''; [reflexivity|].
      now rewrite Hc, andb_false_r. }
    assert (starts_with_fence (c :: r'') = false) as ->.
    { cbn [starts_with_fence]. destruct r'' as [|? [|? ?]]; try reflexivity.
      now rewrite Hc. }
    cbn [starts_with_fence]. now rewrite Hc, andb_false_r.
Qed.

Lemma remove_fences_tail s :
  includes (remove_fences s) FENCE = false.
Proof.
  remember (length s) as n eqn:Hn. revert s Hn.
  induction n as [n IH] using lt_wf_ind. intros s Hn.
  destruct s as [|a r]; [reflexivity|].
  pose proof (remove_fences_head (a :: r)) as Hh.
  cbn [remove_fences] in *.
  destruct (starts_with_fence (a :: r)) eqn:E.
  - destruct r as [|b [|c r3]]; try reflexivity.
    apply (IH (length r3)); [subst n; simpl; lia|reflexivity].
  - change (includes (a :: remove_fences r) FENCE)
      with (starts_with FENCE (a :: remove_fences r)
            || includes (remove_fences r) FENCE).
    rewrite starts_with_FENCE, Hh. simpl.
    apply (IH (length r)); [subst n; simpl; lia|reflexivity].
Qed.

(** X4. After [replace(/```/g, '')] no triple backtick is left, so that
    removing them again changes nothing. *)
Theorem remove_fences_leaves_none (s : jsstring) :
  ~ contains (remove_fences s) FENCE /\
  remove_fences (remove_fences s) = remove_fences s.
Proof.
  split.
  - apply not_contains_by_test, remove_fences_tail.
  - apply remove_fences_none, remove_fences_tail.
Qed.

(** ** The regular expression of the fence *)

Lemma starts_with_fence_spec s :
  starts_with_fence s = true <-> exists b, s = FENCE ++ b.
Proof.
  rewrite <- starts_with_FENCE. apply starts_with_spec.
Qed.

Lemma starts_with_fence_prefix x y :
  (3 <= length x)%nat -> starts_with_fence (x ++ y) = starts_with_fence x.
Proof.
  destruct x as [|a [|b [|c x]]]; simpl; try lia. reflexivity.
Qed.

Lemma includes_cons c s sub :
  includes (c :: s) sub = starts_with sub (c :: s) || includes s sub.
Proof. reflexivity. Qed.

Lemma lazy_until_fence_none s :
  lazy_until_fence s = None <-> includes s FENCE = false.
Proof.
  induction s as [|c r IH].
  - simpl. split; reflexivity.
  - rewrite includes_cons, starts_with_FENCE. cbn [lazy_until_fence].
    destruct (starts_with_fence (c :: r)); simpl.
    + split; discriminate.
    + destruct (lazy_until_fence r).
      * split; [discriminate|]. intros H. apply IH in H. discriminate.
      * split; [intros _; now apply IH|reflexivity].
Qed.

(** The lazy group stops at the first triple backtick. *)
Lemma lazy_until_fence_some s : forall cap,
  lazy_until_fence s = Some cap ->
  (exists b, s = cap ++ FENCE ++ b) /\
  includes (cap ++ [BACKTICK; BACKTICK]) FENCE = false.
Proof.
  induction s as [|c r IH]; intros cap H.
  - discriminate.
  - cbn [lazy_until_fence] in H.
    destruct (starts_with_fence (c :: r)) eqn:E.
    + inversion H; subst. apply starts_with_fence_spec in E.
      split; [exact E|reflexivity].
    + destruct (lazy_until_fence r) as [cap'|]; [|discriminate].
      inversion H; subst. destruct (IH cap' eq_refl) as [[b Hb] Hn].
      split; [exists b; simpl; now rewrite Hb|].
      change ((c :: cap') ++ [BACKTICK; BACKTICK])
        with (c :: cap' ++ [BACKTICK; BACKTICK]).
      rewrite includes_cons, starts_with_FENCE, Hn, orb_false_r.
      rewrite <- E, Hb. clear. destruct cap' as [|x [|y z]]; reflexivity.
Qed.

Lemma lazy_until_fence_space c r :
  isWhiteSpace c = true ->
  lazy_until_fence (c :: r)
  = match lazy_until_fence r with Some cap => Some (c :: cap) | None => None end.
Proof.
  intros H. apply whitespace_not_backtick in H. apply N.eqb_neq in H.
  cbn [lazy_until_fence].
  assert (starts_with_fence (c :: r) = false) as ->; [|reflexivity].
  cbn [starts_with_fence]. destruct r as [|? [|? ?]]; try reflexivity.
  now rewrite H.
Qed.

(** Giving white space back never helps: [\s*] takes all the white space
    there is. *)
Lemma greedy_space_trimStart s :
  greedy_space s = lazy_until_fence (trimStart s).
Proof.
  induction s as [|c r IH]; [reflexivity|].
  cbn [greedy_space trimStart].
  destruct (isWhiteSpace c) eqn:E; [|reflexivity].
  rewrite IH. destruct (lazy_until_fence (trimStart r)) eqn:L; [reflexivity|].
  rewrite lazy_until_fence_space by exact E.
  assert (lazy_until_fence r = None) as ->; [|reflexivity].
  clear IH. induction r as [|x r IHr]; [exact L|].
  cbn [trimStart] in L. destruct (isWhiteSpace x) eqn:Ex; [|exact L].
  rewrite lazy_until_fence_space by exact Ex. now rewrite IHr.
Qed.

Lemma trimStart_split s :
  exists w, forallb isWhiteSpace w = true /\ s = w ++ trimStart s.
Proof.
  induction s as [|c r [w [Hw Hs]]].
  - now exists [].
  - cbn [trimStart]. destruct (isWhiteSpace c) eqn:E.
    + exists (c :: w). simpl. rewrite E, Hw. split; [reflexivity|].
      now rewrite <- Hs.
    + now exists [].
Qed.

Lemma trimStart_head s c r :
  trimStart s = c :: r -> isWhiteSpace c = false.
Proof.
  induction s as [|x s IH]; [discriminate|].
  cbn [trimStart]. destruct (isWhiteSpace x) eqn:E; [exact IH|].
  intros H. inversion H; subst. exact E.
Qed.

Lemma includes_trimStart s :
  includes (trimStart s) FENCE = includes s FENCE.
Proof.
  induction s as [|c r IH]; [reflexivity|].
  cbn [trimStart]. destruct (isWhiteSpace c) eqn:E; [|reflexivity].
  rewrite IH, includes_cons, starts_with_FENCE.
  apply whitespace_not_backtick in E. apply N.eqb_neq in E.
  cbn [starts_with_fence]. destruct r as [|? [|? ?]]; try reflexivity.
  now rewrite E.
Qed.

Lemma json_tag_some s r :
  json_tag s = Some r ->
  exists tag, s = tag ++ r /\ json_tag tag = Some [].
Proof.
  destruct s as [|a [|b [|c [|d t]]]]; simpl; try discriminate.
  destruct (_ && _) eqn:E; [|discriminate]. intros H. inversion H; subst.
  exists [a; b; c; d]. simpl. now rewrite E.
Qed.

(** What a match that starts here is made of. *)
Lemma match_here_some s cap :
  match_here s = Some cap ->
  exists tag w b,
    s = FENCE ++ tag ++ w ++ cap ++ FENCE ++ b /\
    (tag = [] \/ json_tag tag = Some []) /\
    forallb isWhiteSpace w = true /\
    (forall c r, cap = c :: r -> isWhiteSpace c = false) /\
    includes (cap ++ [BACKTICK; BACKTICK]) FENCE = false.
Proof.
  unfold match_here. destruct (starts_with_fence s) eqn:E; [|discriminate].
  apply starts_with_fence_spec in E. destruct E as [y ->].
  cbn [FENCE app skipn]. unfold optional_tag.
  assert (forall tag z,
            y = tag ++ z -> tag = [] \/ json_tag tag = Some [] ->
            greedy_space z = Some cap ->
            exists tag w b,
              BACKTICK :: BACKTICK :: BACKTICK :: y
              = FENCE ++ tag ++ w ++ cap ++ FENCE ++ b /\
              (tag = [] \/ json_tag tag = Some []) /\
              forallb isWhiteSpace w = true /\
              (forall c r, cap = c :: r -> isWhiteSpace c = false) /\
              includes (cap ++ [BACKTICK; BACKTICK]) FENCE = false) as Hbranch.
  { intros tag z -> Htag Hg. rewrite greedy_space_trimStart in Hg.
    destruct (lazy_until_fence_some _ _ Hg) as [[b Hb] Hn].
    destruct (trimStart_split z) as [w [Hw Hz]].
    exists tag, w, b. repeat split; try assumption.
    - rewrite Hz, Hb. reflexivity.
    - intros c r ->. simpl in Hb. now apply trimStart_head in Hb. }
  destruct (json_tag y) as [r|] eqn:Et.
  - destruct (json_tag_some _ _ Et) as [tag [-> Htag]].
    destruct (greedy_space r) eqn:Eg.
    + intros H. inversion H; subst.
      apply (Hbranch tag r eq_refl (or_intror Htag) Eg).
    + intros H. apply (Hbranch [] (tag ++ r) eq_refl (or_introl eq_refl) H).
  - intros H. apply (Hbranch [] y eq_refl (or_introl eq_refl) H).
Qed.

(** A match starts here exactly when three backticks stand here and three
    more stand somewhere after them. *)
Lemma match_here_matches s :
  match_here s <> None <->
  starts_with_fence s = true /\ includes (skipn 3 s) FENCE = true.
Proof.
  unfold match_here. destruct (starts_with_fence s) eqn:E.
  2:{ split; [congruence|intros [H _]; discriminate]. }
  assert (forall y, greedy_space y = None <-> includes y FENCE = false) as Hg.
  { intros y. now rewrite greedy_space_trimStart, lazy_until_fence_none,
      includes_trimStart. }
  unfold optional_tag. split.
  - intros H. split; [reflexivity|].
    destruct (includes (skipn 3 s) FENCE) eqn:Ei; [reflexivity|].
    exfalso. apply H. destruct (json_tag (skipn 3 s)) as [r|] eqn:Et.
    + destruct (greedy_space r) eqn:Eg; [|now apply Hg].
      destruct (json_tag_some _ _ Et) as [tag [Hs Htag]].
      exfalso.
      assert (includes r FENCE = false) as Hr.
      { rewrite Hs in Ei. clear - Ei.
        induction tag as [|c tag IH]; [exact Ei|].
        cbn [app] in Ei. rewrite includes_cons in Ei.
        apply orb_false_iff in Ei. now apply IH. }
      apply Hg in Hr. congruence.
    + now apply Hg.
  - intros [_ Hi]. destruct (json_tag (skipn 3 s)) as [r|] eqn:Et.
    + destruct (greedy_space r); [discriminate|].
      intros H. apply Hg in H. congruence.
    + intros H. apply Hg in H. congruence.
Qed.

Lemma contains_includes s sub : contains s sub -> includes s sub = true.
Proof. apply includes_spec. Qed.

Lemma fence_after_two a y b :
  (2 <= length (a ++ y))%nat ->
  includes (skipn 2 (a ++ y ++ FENCE ++ b)) FENCE = true.
Proof.
  intros H. apply contains_includes.
  rewrite app_assoc, skipn_app.
  replace (2 - length (a ++ y))%nat with 0%nat by lia.
  exists (skipn 2 (a ++ y)), b. reflexivity.
Qed.

Lemma fence_match_unfold s :
  fence_match s
  = match match_here s with
    | Some cap => Some cap
    | None => match s with [] => None | _ :: r => fence_match r end
    end.
Proof. destruct s; reflexivity. Qed.

Lemma fence_match_two_fences (s cap : jsstring) :
  fence_match s = Some cap ->
  exists a x b, s = a ++ FENCE ++ x ++ FENCE ++ b.
Proof.
  induction s as [|c s IH]; [discriminate|].
  cbn [fence_match].
  destruct (match_here (c :: s)) as [cap'|] eqn:E.
  - intros _.
    destruct (match_here_some _ _ E) as (tag & w & b & Hs & _).
    exists [], (tag ++ w ++ cap'), b. rewrite Hs. now rewrite <- !app_assoc.
  - intros H. destruct (IH H) as (a & x & b & Hs).
    exists (c :: a), x, b. simpl. now rewrite Hs.
Qed.

(** Where the regular expression matches, and what it captures. *)
Lemma fence_match_decomposes (s cap : jsstring) :
  fence_match s = Some cap ->
  exists a tag w b,
    s = a ++ FENCE ++ tag ++ w ++ cap ++ FENCE ++ b /\
    ~ contains (a ++ [BACKTICK; BACKTICK]) FENCE /\
    (tag = [] \/ json_tag tag = Some []) /\
    forallb isWhiteSpace w = true /\
    (forall c r, cap = c :: r -> isWhiteSpace c = false) /\
    ~ contains (cap ++ [BACKTICK; BACKTICK]) FENCE.
Proof.
  induction s as [|c s IH]; [discriminate|].
  cbn [fence_match].
  destruct (match_here (c :: s)) as [cap'|] eqn:E.
  - intros H. inversion H; subst.
    destruct (match_here_some _ _ E) as (tag & w & b & Hs & Ht & Hw & Hh & Hn).
    exists [], tag, w, b. repeat split; try assumption.
    + apply not_contains_by_test. reflexivity.
    + now apply not_contains_by_test.
  - intros H. destruct (IH H) as (a & tag & w & b & Hs & Ha & Ht & Hw & Hh & Hn).
    exists (c :: a), tag, w, b. repeat split; try assumption.
    + simpl. now rewrite Hs.
    + apply not_contains_by_test.
      change ((c :: a) ++ [BACKTICK; BACKTICK])
        with (c :: a ++ [BACKTICK; BACKTICK]).
      rewrite includes_cons, starts_with_FENCE.
      rewrite (not_contains_FENCE _ Ha), orb_false_r.
      destruct (starts_with_fence (c :: a ++ [BACKTICK; BACKTICK])) eqn:Ef;
        [|reflexivity].
      exfalso.
      assert (match_here (c :: s) <> None) as Hm; [|congruence].
      apply match_here_matches. split.
      * rewrite <- Ef, Hs. clear. destruct a as [|x [|y z]]; reflexivity.
      * change (skipn 3 (c :: s)) with (skipn 2 s). rewrite Hs.
        replace (a ++ FENCE ++ tag ++ w ++ cap ++ FENCE ++ b)
          with (a ++ (FENCE ++ tag ++ w ++ cap) ++ FENCE ++ b)
          by (now rewrite <- !app_assoc).
        apply fence_after_two. rewrite !length_app. simpl. lia.
Qed.

(** X5. When the regular expression matches, the text is: a part in which
    no triple backtick starts, three backticks, the tag json or nothing,
    white space, the capture, three backticks, a rest.  The capture does
    not start with white space and no triple backtick starts in it: the
    opening fence is the first triple backtick of the text and the closing
    one the first after the opening. *)
Theorem fence_match_captures (s cap : jsstring) :
  fence_match s = Some cap ->
  exists a tag w b,
    s = a ++ FENCE ++ tag ++ w ++ cap ++ FENCE ++ b /\
    ~ contains (a ++ [BACKTICK; BACKTICK]) FENCE /\
    (tag = [] \/ json_tag tag = Some []) /\
    forallb isWhiteSpace w = true /\
    (forall c r, cap = c :: r -> isWhiteSpace c = false) /\
    ~ contains (cap ++ [BACKTICK; BACKTICK]) FENCE.
Proof. exact (fence_match_decomposes s cap). Qed.

Lemma fence_match_finds a x b :
  fence_match (a ++ FENCE ++ x ++ FENCE ++ b) <> None.
Proof.
  intros Hnone. induction a as [|c a IH].
  - rewrite fence_match_unfold in Hnone.
    assert (match_here ([] ++ FENCE ++ x ++ FENCE ++ b) <> None) as Hm.
    { apply match_here_matches. split; [reflexivity|].
      apply contains_includes. now exists x, b. }
    destruct (match_here ([] ++ FENCE ++ x ++ FENCE ++ b));
      [discriminate|congruence].
  - rewrite fence_match_unfold in Hnone.
    destruct (match_here ((c :: a) ++ FENCE ++ x ++ FENCE ++ b));
      [discriminate|]. now apply IH.
Qed.

(** X6. The regular expression matches exactly when the text has two
    triple backticks that do not overlap; otherwise the whole text is
    used. *)
Theorem fence_match_none_iff (s : jsstring) :
  fence_match s = None <->
  ~ exists a x b, s = a ++ FENCE ++ x ++ FENCE ++ b.
Proof.
  split.
  - intros Hnone (a & x & b & Hs). subst s.
    now apply (fence_match_finds a x b).
  - intros Hno. destruct (fence_match s) as [cap|] eqn:E; [|reflexivity].
    exfalso. apply Hno.
    exact (fence_match_two_fences _ _ E).
Qed.

(** ** Recovering a response from prose and from a fence *)

(** White space before a text does not move the scanner. *)
Lemma position_after_trimStart s :
  position_after (trimStart s) = position_after s.
Proof.
  induction s as [|c r IH]; [reflexivity|]. cbn [trimStart].
  destruct (isWhiteSpace c) eqn:E; [|reflexivity].
  rewrite IH. unfold position_after. cbn [fold_left advance].
  destruct (N.eqb_spec c DQUOTE) as [->|_]; [discriminate E|reflexivity].
Qed.

(** A text that the lexer accepts is copied by the escaper when the scanner
    reaches it outside a literal; a text without line break is copied
    wherever the scanner is. *)
Lemma escape_around b core a toks :
  lex core = Some toks ->
  position_after b = Outside \/ (~ In LF core /\ ~ In CR core) ->
  exists p,
    escapeNewlinesInStrings (b ++ core ++ a)
    = rewrite_from Outside b ++ core ++ rewrite_from p a.
Proof.
  intros Hcore H. rewrite escape_rewrite_from, !rewrite_from_app.
  eexists. f_equal. f_equal. destruct H as [H|[Hl Hr]].
  - unfold position_after in H. rewrite H.
    now destruct (lex_from_fixed core LDefault toks Hcore eq_refl).
  - now apply rewrite_from_no_break.
Qed.

Section Recovery.
Context `{Num : JSNumber}.

(** C6, as the code has it.  When the direct decoding of the sanitized
    text fails and the text has an opening and a closing brace, the next
    tier decodes the slice from the first opening brace to the last closing
    brace, both included.  For a text made of a JSON object between two
    pieces of prose, with no triple backtick, this returns the value of the
    object when the prose before the object has no opening brace, the prose
    after it has no closing brace, the sanitized text as a whole does not
    decode, and the escaper leaves the object as it is: the scanner is
    outside a string literal after the prose before the object (its double
    quotes are paired), or the object has no line break. *)
Theorem brace_extraction_recovers :
  (forall sanitized,
     JSON_parse (trim sanitized) = None ->
     In LBRACE sanitized -> In RBRACE sanitized ->
     parse_with_fallback sanitized =
     match JSON_parse (slice sanitized (indexOf sanitized LBRACE)
                             (lastIndexOf sanitized RBRACE + 1)) with
     | Some v => Parsed v
     | None => Returned parsing_error_response
     end) /\
  (forall a m b,
     ~ In LBRACE a -> ~ In RBRACE b ->
     slice (a ++ (LBRACE :: m ++ [RBRACE]) ++ b)
           (indexOf (a ++ (LBRACE :: m ++ [RBRACE]) ++ b) LBRACE)
           (lastIndexOf (a ++ (LBRACE :: m ++ [RBRACE]) ++ b) RBRACE + 1)
     = LBRACE :: m ++ [RBRACE]) /\
  (forall before m after v docsContext,
     JSON_parse (LBRACE :: m ++ [RBRACE]) = Some v ->
     ~ In LBRACE before ->
     position_after before = Outside \/
     (~ In LF (LBRACE :: m ++ [RBRACE]) /\
      ~ In CR (LBRACE :: m ++ [RBRACE])) ->
     ~ In RBRACE after ->
     ~ contains (before ++ (LBRACE :: m ++ [RBRACE]) ++ after) FENCE ->
     JSON_parse
       (trim (sanitize (before ++ (LBRACE :: m ++ [RBRACE]) ++ after)))
     = None ->
     parse_with_fallback
       (sanitize (before ++ (LBRACE :: m ++ [RBRACE]) ++ after)) = Parsed v /\
     parse_and_enrich (before ++ (LBRACE :: m ++ [RBRACE]) ++ after) docsContext
     = enrich v docsContext).
Proof.
  split; [exact brace_tier|]. split.
  { intros a m b Ha Hb. now apply slice_braces. }
  intros before m after v docsContext Hv HbL HbQ HaR Hfence Hdirect.
  set (json := LBRACE :: m ++ [RBRACE]) in *.
  set (text := before ++ json ++ after) in *.
  apply not_contains_FENCE in Hfence.
  assert (trim text = trimStart before ++ json ++ trimEnd after) as Htrim
    by (apply trim_around; reflexivity).
  destruct (JSON_parse_lexed _ _ Hv) as [toks Htoks].
  destruct (escape_around (trimStart before) json (trimEnd after) toks Htoks)
    as [p Hesc].
  { destruct HbQ as [HbQ|HbQ]; [left|right; exact HbQ].
    now rewrite position_after_trimStart. }
  assert (sanitize text
          = rewrite_from Outside (trimStart before) ++ json
            ++ rewrite_from p (trimEnd after))
    as Hsan.
  { unfold sanitize. now rewrite (fence_match_none _ Hfence),
      (remove_fences_none _ Hfence), Htrim. }
  assert (parse_with_fallback (sanitize text) = Parsed v) as Hp.
  { unfold parse_with_fallback. rewrite Hdirect, Hsan.
    destruct (slice_braces (rewrite_from Outside (trimStart before)) m
                (rewrite_from p (trimEnd after))) as (H1 & H2 & H3).
    - intros H. apply rewrite_from_In in H; [|discriminate|discriminate].
      apply HbL. now apply trimStart_In.
    - intros H. apply rewrite_from_In in H; [|discriminate|discriminate].
      apply HaR. now apply trimEnd_In.
    - fold json in H1, H2, H3.
      apply Z.eqb_neq in H1. apply Z.eqb_neq in H2.
      rewrite H1, H2, H3. simpl. now rewrite Hv. }
  split; [exact Hp|]. unfold parse_and_enrich. now rewrite Hp.
Qed.

(** C7, as the code has it.  When the text has no two triple backticks
    that do not overlap -- none at all, or a fence that is not closed --
    the whole text is used (without the triple backticks it may have).
    When it has two, only the content of the first fence is used: the text
    is a part in which no triple backtick starts, three backticks, the tag
    json or nothing, white space, the content, three backticks and a rest,
    where the content does not start with white space and ends where the
    next triple backtick starts.  So a JSON object without triple backticks
    in a fence that is the first triple backtick of the text is decoded and
    its value returned, whatever follows the closing backticks. *)
Theorem fenced_json_recovered :
  (forall text,
     (~ exists a x b, text = a ++ FENCE ++ x ++ FENCE ++ b) ->
     fence_match text = None /\
     sanitize text = escapeNewlinesInStrings (trim (remove_fences text))) /\
  (forall text,
     ~ contains text FENCE ->
     sanitize text = escapeNewlinesInStrings (trim text)) /\
  (forall text,
     (exists a x b, text = a ++ FENCE ++ x ++ FENCE ++ b) ->
     exists pre tag w cap tail,
       text = pre ++ FENCE ++ tag ++ w ++ cap ++ FENCE ++ tail /\
       ~ contains (pre ++ [BACKTICK; BACKTICK]) FENCE /\
       (tag = [] \/ json_tag tag = Some []) /\
       forallb isWhiteSpace w = true /\
       (forall c r, cap = c :: r -> isWhiteSpace c = false) /\
       ~ contains (cap ++ [BACKTICK; BACKTICK]) FENCE /\
       fence_match text = Some cap /\
       sanitize text = escapeNewlinesInStrings (trim cap)) /\
  (forall pre tag w1 m w2 tail v docsContext,
     JSON_parse (LBRACE :: m ++ [RBRACE]) = Some v ->
     ~ contains (LBRACE :: m ++ [RBRACE]) FENCE ->
     ~ contains pre FENCE -> last pre SPACE <> BACKTICK ->
     tag = [] \/ json_tag tag = Some [] ->
     forallb isWhiteSpace w1 = true ->
     forallb isWhiteSpace w2 = true ->
     let text :=
       pre ++ FENCE ++ tag ++ w1 ++ (LBRACE :: m ++ [RBRACE]) ++ w2
       ++ FENCE ++ tail in
     fence_match text = Some ((LBRACE :: m ++ [RBRACE]) ++ w2) /\
     parse_with_fallback (sanitize text) = Parsed v /\
     parse_and_enrich text docsContext = enrich v docsContext).
Proof.
  split.
  { intros text H.
    assert (fence_match text = None) as Hnone.
    { destruct (fence_match text) as [cap|] eqn:E; [|reflexivity].
      exfalso. apply H. exact (fence_match_two_fences _ _ E). }
    split; [exact Hnone|]. unfold sanitize. now rewrite Hnone. }
  split.
  { intros text H. apply not_contains_FENCE in H. unfold sanitize.
    now rewrite (fence_match_none _ H), (remove_fences_none _ H). }
  split.
  { intros text (a & x & b & ->).
    destruct (fence_match (a ++ FENCE ++ x ++ FENCE ++ b)) as [cap|] eqn:E;
      [|exfalso; exact (fence_match_finds a x b E)].
    destruct (fence_match_decomposes _ _ E)
      as (pre & tag & w & tail & Hs & Hpre & Htag & Hw & Hh & Hcap).
    exists pre, tag, w, cap, tail. repeat split; try assumption.
    unfold sanitize. rewrite E. rewrite remove_fences_none; [reflexivity|].
    apply not_contains_FENCE. intros (u & y & Hu). apply Hcap.
    exists u, (y ++ [BACKTICK; BACKTICK]). rewrite Hu.
    now rewrite <- !app_assoc. }
  intros pre tag w1 m w2 tail v docsContext Hv Hfence Hpre Hlast Htag Hw1 Hw2
         text.
  set (json := LBRACE :: m ++ [RBRACE]) in *.
  apply not_contains_FENCE in Hfence.
  assert (includes ((LBRACE :: m) ++ [RBRACE]) FENCE = false) as Hfence'
    by exact Hfence.
  assert (RBRACE <> BACKTICK) as Hrb by discriminate.
  assert (lazy_until_fence (json ++ w2 ++ FENCE ++ tail) = Some (json ++ w2))
    as Hlazy.
  { unfold json. rewrite !object_app.
    rewrite (lazy_until_fence_prefix _ _ _ Hfence' Hrb).
    rewrite (lazy_until_fence_plain _ _ (whitespace_plain _ Hw2)).
    change (lazy_until_fence (FENCE ++ tail)) with (Some (@nil code_unit)).
    cbv iota beta. now rewrite app_nil_r. }
  assert (greedy_space (w1 ++ json ++ w2 ++ FENCE ++ tail) = Some (json ++ w2))
    as Hgreedy.
  { apply greedy_space_skip; [exact Hw1|reflexivity|exact Hlazy]. }
  assert (fence_match text = Some (json ++ w2)) as Hmatch.
  { unfold text. rewrite (fence_match_skip _ _ Hpre Hlast).
    change (FENCE ++ tag ++ w1 ++ json ++ w2 ++ FENCE ++ tail)
      with (BACKTICK :: BACKTICK :: BACKTICK
            :: tag ++ w1 ++ json ++ w2 ++ FENCE ++ tail).
    cbn [fence_match]. unfold match_here.
    cbn [starts_with_fence skipn]. rewrite N.eqb_refl. cbn [andb].
    unfold optional_tag. destruct Htag as [->|Htag].
    - cbn [app].
      rewrite (json_tag_absent w1 (json ++ w2 ++ FENCE ++ tail) Hw1 eq_refl).
      now rewrite Hgreedy.
    - rewrite (json_tag_present _ _ Htag). now rewrite Hgreedy. }
  split; [exact Hmatch|].
  destruct (JSON_parse_lexed _ _ Hv) as [toks Htoks].
  assert (sanitize text = json) as Hsan.
  { unfold sanitize. rewrite Hmatch.
    assert (remove_fences (json ++ w2) = json ++ w2) as ->.
    { unfold json. rewrite object_app.
      rewrite (remove_fences_prefix _ _ _ Hfence' Hrb).
      now rewrite (remove_fences_plain _ (whitespace_plain _ Hw2)). }
    assert (trim (json ++ w2) = json) as ->.
    { pose proof (trim_around [] LBRACE m RBRACE w2 eq_refl eq_refl) as T.
      cbn [app trimStart] in T. fold json in T.
      rewrite (trimEnd_whitespace _ Hw2), app_nil_r in T. exact T. }
    now destruct (lexed_fixed _ _ Htoks). }
  assert (parse_with_fallback (sanitize text) = Parsed v) as Hp.
  { rewrite Hsan. unfold parse_with_fallback.
    assert (trim json = json) as -> by (apply trim_core; reflexivity).
    now rewrite Hv. }
  split; [exact Hp|]. unfold parse_and_enrich. now rewrite Hp.
Qed.

End Recovery.

(** ** Enrichment on any decoded value *)

Section EnrichmentAnyValue.
Context `{Num : JSNumber}.

Lemma find_doc_nullish docsContext s :
  is_nullish s = true ->
  find_doc docsContext s
  = match docsContext with [] => Ok None | _ :: _ => Throw TypeError end.
Proof.
  destruct s; try discriminate; intros _; destruct docsContext; reflexivity.
Qed.

Lemma find_doc_target docsContext s t :
  get_prop s (js "target_file") = Ok t ->
  exists matchingDoc,
    find_doc docsContext s = Ok matchingDoc /\
    match matchingDoc with
    | Some d =>
        exists pre post,
          docsContext = pre ++ d :: post /\ t = JString (file d) /\
          forall d', In d' pre -> t <> JString (file d')
    | None => forall d, In d docsContext -> t <> JString (file d)
    end.
Proof.
  intros Ht. induction docsContext as [|d rest IH].
  - exists None. split; [reflexivity|]. intros d [].
  - destruct IH as [md [Hf Hmd]]. cbn [find_doc]. rewrite Ht. cbn [bind].
    assert (t <> JString (file d) ->
            exists matchingDoc,
              find_doc rest s = Ok matchingDoc /\
              match matchingDoc with
              | Some d0 =>
                  exists pre post,
                    d :: rest = pre ++ d0 :: post /\ t = JString (file d0) /\
                    forall d', In d' pre -> t <> JString (file d')
              | None => forall d0, In d0 (d :: rest) -> t <> JString (file d0)
              end) as Hskip.
    { intros Hne. exists md. split; [exact Hf|]. destruct md as [d0|].
      - destruct Hmd as (pre & post & -> & Hd0 & Hpre).
        exists (d :: pre), post. split; [reflexivity|]. split; [exact Hd0|].
        intros d' [<-|Hin]; [exact Hne|now apply Hpre].
      - intros d0 [<-|Hin]; [exact Hne|now apply Hmd]. }
    destruct t as [| | | |t| |];
      try (apply Hskip; discriminate).
    destruct (jsstring_eqb (file d) t) eqn:E.
    + apply jsstring_eqb_eq in E. subst t. exists (Some d).
      split; [reflexivity|]. exists [], rest. split; [reflexivity|].
      split; [reflexivity|]. intros d' [].
    + apply Hskip. apply jsstring_eqb_neq in E. congruence.
Qed.

(** On a value that is neither [null] nor [undefined] the lookup returns:
    nothing, or a record of the context whose [file] is the string the
    value has as [target_file], with no such record before it. *)
Lemma find_doc_value docsContext s :
  is_nullish s = false ->
  exists matchingDoc,
    find_doc docsContext s = Ok matchingDoc /\
    match matchingDoc with
    | Some d =>
        exists pre post,
          docsContext = pre ++ d :: post /\
          get_prop s (js "target_file") = Ok (JString (file d)) /\
          forall d', In d' pre ->
            get_prop s (js "target_file") <> Ok (JString (file d'))
    | None =>
        forall d, In d docsContext ->
          get_prop s (js "target_file") <> Ok (JString (file d))
    end.
Proof.
  intros Hs.
  assert (exists t, get_prop s (js "target_file") = Ok t) as [t Ht].
  { destruct s; try discriminate; eexists; reflexivity. }
  destruct (find_doc_target docsContext s t Ht) as [md [Hf Hmd]].
  exists md. split; [exact Hf|]. rewrite Ht. destruct md as [d|].
  - destruct Hmd as (pre & post & Hd & Htd & Hpre).
    exists pre, post. split; [exact Hd|]. split; [now rewrite Htd|].
    intros d' Hin E. inversion E. now apply (Hpre d' Hin).
  - intros d Hin E. inversion E. now apply (Hmd d Hin).
Qed.

Lemma enrich_suggestion_nullish docsContext s :
  is_nullish s = true ->
  enrich_suggestion docsContext s
  = match docsContext with
    | [] => Ok (JObject [ (js "start_line", JUndefined);
                          (js "end_line", JUndefined) ])
    | _ :: _ => Throw TypeError
    end.
Proof.
  intros H. unfold enrich_suggestion. rewrite (find_doc_nullish _ _ H).
  destruct docsContext; [|reflexivity].
  destruct s; try discriminate; reflexivity.
Qed.

Lemma enrich_suggestion_lines docsContext s s' :
  enrich_suggestion docsContext s = Ok s' ->
  exists o matchingDoc,
    s' = JObject o /\ find_doc docsContext s = Ok matchingDoc /\
    lines_from o matchingDoc /\
    forall k, k <> js "start_line" -> k <> js "end_line" ->
              field o k = field (spread s) k.
Proof.
  unfold enrich_suggestion.
  destruct (find_doc docsContext s) as [md|e]; [|discriminate].
  cbn [bind]. intros H. inversion H; subst. eexists _, md.
  split; [reflexivity|]. split; [reflexivity|].
  assert (js "start_line" <> js "end_line") as Hse
    by (apply name_neq; reflexivity).
  split; [split|].
  - now rewrite field_set_prop_other, field_set_prop_same.
  - now rewrite field_set_prop_same.
  - intros k H1 H2. now rewrite !field_set_prop_other.
Qed.

Lemma mapM_ok_iff {A B : Type} (f : A -> result B) (l : list A) :
  (exists l', mapM f l = Ok l') <-> (forall a, In a l -> exists b, f a = Ok b).
Proof.
  induction l as [|x l IH]; simpl.
  - split; [intros _ a []|intros _; now exists []].
  - split.
    + intros [l' H]. destruct (f x) as [b|e] eqn:Ex; [|discriminate].
      cbn [bind] in H. destruct (mapM f l) as [bs|e]; [|discriminate].
      intros a [<-|Hin]; [now exists b|]. apply IH; [now exists bs|exact Hin].
    + intros H. destruct (H x (or_introl eq_refl)) as [b ->]. cbn [bind].
      destruct (proj2 IH (fun a Hin => H a (or_intror Hin))) as [bs ->].
      now exists (b :: bs).
Qed.

Lemma mapM_throws {A B : Type} (f : A -> result B) (l : list A) e :
  mapM f l = Throw e -> exists a, In a l /\ f a = Throw e.
Proof.
  induction l as [|x l IH]; simpl; [discriminate|].
  destruct (f x) as [b|e'] eqn:Ex; cbn [bind].
  - destruct (mapM f l) as [bs|e'']; [discriminate|]. cbn [bind].
    intros H. inversion H; subst. destruct (IH eq_refl) as [a [Hin Ha]].
    exists a. split; [now right|exact Ha].
  - intros H. inversion H; subst. exists x. split; [now left|exact Ex].
Qed.

(** X7. Enrichment returns exactly when the decoded value is an object
    whose [suggestions] is an array and, unless the context is empty, no
    element of that array is [null]; whenever it throws, it throws a
    TypeError. *)
Theorem enrich_returns_iff (parsed : value) (docsContext : list QueryResult) :
  ((exists response, enrich parsed docsContext = Ok response) <->
   exists o l,
     parsed = JObject o /\ field o (js "suggestions") = JArray l /\
     (docsContext = [] \/ forall s, In s l -> is_nullish s = false)) /\
  (forall e, enrich parsed docsContext = Throw e -> e = TypeError).
Proof.
  split.
  - split.
    + intros [response H]. unfold enrich in H.
      destruct parsed as [| | | | |x|o]; try discriminate.
      cbn [get_prop bind] in H.
      destruct (field o (js "suggestions")) as [| | | | |l|] eqn:El;
        try discriminate.
      exists o, l. split; [reflexivity|]. split; [exact El|].
      destruct (mapM (enrich_suggestion docsContext) l) as [l'|e] eqn:Em;
        [|discriminate].
      destruct docsContext as [|d rest]; [now left|right].
      intros s Hin. destruct (is_nullish s) eqn:Es; [|reflexivity].
      destruct (proj1 (mapM_ok_iff _ _) (ex_intro _ l' Em) s Hin) as [b Hb].
      rewrite (enrich_suggestion_nullish _ _ Es) in Hb. discriminate.
    + intros (o & l & -> & Hl & Hok). unfold enrich. cbn [get_prop bind].
      rewrite Hl.
      assert (exists l', mapM (enrich_suggestion docsContext) l = Ok l')
        as [l' ->].
      { apply mapM_ok_iff. intros s Hin.
        destruct (is_nullish s) eqn:Es.
        - destruct Hok as [->|Hok].
          + rewrite (enrich_suggestion_nullish _ _ Es). eexists. reflexivity.
          + rewrite (Hok s Hin) in Es. discriminate.
        - unfold enrich_suggestion.
          destruct (find_doc_value docsContext s Es) as [md [-> _]].
          eexists. reflexivity. }
      eexists. reflexivity.
  - intros e H. unfold enrich in H.
    destruct parsed as [| | | | |x|o]; cbn [get_prop bind] in H;
      try (inversion H; reflexivity).
    destruct (field o (js "suggestions")) as [| | | | |l|];
      try (inversion H; reflexivity).
    destruct (mapM (enrich_suggestion docsContext) l) as [l'|e'] eqn:Em;
      [discriminate|]. cbn [bind] in H. inversion H; subst.
    destruct (mapM_throws _ _ _ Em) as [s [_ Hs]].
    unfold enrich_suggestion in Hs.
    destruct (is_nullish s) eqn:Es.
    + rewrite (find_doc_nullish _ _ Es) in Hs.
      destruct docsContext; [destruct s; discriminate|].
      now inversion Hs.
    + destruct (find_doc_value docsContext s Es) as [md [Hf _]].
      rewrite Hf in Hs. discriminate.
Qed.

(** X8. Whatever value was decoded, the lines of a returned suggestion
    never come from the model: [start_line] and [end_line] are both
    undefined, or they are the [startLine] and [endLine] of one record of
    the context, whose [file] is the string the suggestion has as
    [target_file]; every other property is the one of the decoded
    suggestion, and the suggestions keep their number and order. *)
Theorem enrich_lines_come_from_context
    (parsed response : value) (docsContext : list QueryResult) :
  enrich parsed docsContext = Ok response ->
  exists o l l',
    parsed = JObject o /\ field o (js "suggestions") = JArray l /\
    response = JObject (set_prop (js "suggestions") (JArray l') o) /\
    length l' = length l /\
    forall i s, nth_error l i = Some s ->
      exists o',
        nth_error l' i = Some (JObject o') /\
        (forall k, k <> js "start_line" -> k <> js "end_line" ->
           field o' k = field (spread s) k) /\
        ((field o' (js "start_line") = JUndefined /\
          field o' (js "end_line") = JUndefined) \/
         exists d,
           In d docsContext /\
           get_prop s (js "target_file") = Ok (JString (file d)) /\
           field o' (js "start_line") = JNumber (startLine d) /\
           field o' (js "end_line") = JNumber (endLine d)).
Proof.
  intros H. unfold enrich in H.
  destruct parsed as [| | | | |x|o]; try discriminate.
  cbn [get_prop bind] in H.
  destruct (field o (js "suggestions")) as [| | | | |l|] eqn:El;
    try discriminate.
  destruct (mapM (enrich_suggestion docsContext) l) as [l'|e] eqn:Em;
    [|discriminate].
  cbn [bind] in H. inversion H; subst.
  exists o, l, l'. split; [reflexivity|]. split; [exact El|].
  split; [reflexivity|]. split; [now apply (mapM_length _ _ _ Em)|].
  intros i s Hi.
  destruct (mapM_nth_error _ _ _ _ _ Em Hi) as (s' & Hi' & Es).
  destruct (enrich_suggestion_lines _ _ _ Es) as (o' & md & -> & Hf & [L1 L2] & Hk).
  exists o'. split; [exact Hi'|]. split; [exact Hk|].
  destruct md as [d|]; [right|left; now split].
  exists d. simpl in L1, L2. repeat split; try assumption.
  - destruct (is_nullish s) eqn:Es'.
    + rewrite (find_doc_nullish _ _ Es') in Hf. destruct docsContext; discriminate.
    + destruct (find_doc_value docsContext s Es') as [md' [Hf' Hmd]].
      rewrite Hf in Hf'. inversion Hf'; subst md'.
      destruct Hmd as (pre & post & -> & _). apply in_or_app. right. now left.
  - destruct (is_nullish s) eqn:Es'.
    + rewrite (find_doc_nullish _ _ Es') in Hf. destruct docsContext; discriminate.
    + destruct (find_doc_value docsContext s Es') as [md' [Hf' Hmd]].
      rewrite Hf in Hf'. inversion Hf'; subst md'.
      now destruct Hmd as (pre & post & _ & Ht & _).
Qed.

End EnrichmentAnyValue.

(** ** generateSuggestions: what it returns and what it throws *)

Section Suggester.
Context `{Num : JSNumber}.

Lemma set_prop_has_key k v (o : list (jsstring * value)) :
  In k (List.map fst (set_prop k v o)).
Proof.
  induction o as [|[k' v'] o IH]; simpl; [now left|].
  destruct (jsstring_eqb k k') eqn:E; simpl.
  - left. apply jsstring_eqb_eq in E. now subst.
  - now right.
Qed.

Lemma set_prop_keeps_key k v k' (o : list (jsstring * value)) :
  In k' (List.map fst o) -> In k' (List.map fst (set_prop k v o)).
Proof.
  induction o as [|[k1 v1] o IH]; simpl; [tauto|].
  destruct (jsstring_eqb k k1); simpl; tauto.
Qed.

Lemma enrich_suggestion_shape docsContext s s' :
  enrich_suggestion docsContext s = Ok s' ->
  exists o, s' = JObject o /\
            In (js "start_line") (List.map fst o) /\
            In (js "end_line") (List.map fst o).
Proof.
  unfold enrich_suggestion.
  destruct (find_doc docsContext s) as [md|e]; [|discriminate].
  cbn [bind]. intros H. inversion H; subst. eexists. split; [reflexivity|].
  split; [apply set_prop_keeps_key|]; apply set_prop_has_key.
Qed.

Lemma mapM_all {A B : Type} (f : A -> result B) (P : B -> Prop) l : forall l',
  mapM f l = Ok l' ->
  (forall a b, f a = Ok b -> P b) ->
  forall b, In b l' -> P b.
Proof.
  induction l as [|x l IH]; simpl; intros l' H Hf b Hin.
  - inversion H; subst. destruct Hin.
  - destruct (f x) as [y|e] eqn:Ex; [|discriminate]. cbn [bind] in H.
    destruct (mapM f l) as [ys|e]; [|discriminate]. cbn [bind] in H.
    inversion H; subst. destruct Hin as [<-|Hin].
    + now apply (Hf x).
    + now apply (IH ys).
Qed.

Lemma parse_with_fallback_returned sanitized response :
  parse_with_fallback sanitized = Returned response ->
  response = no_valid_response \/ response = parsing_error_response.
Proof.
  unfold parse_with_fallback.
  destruct (JSON_parse (trim sanitized)); [discriminate|].
  destruct (negb _ && negb _).
  - destruct (JSON_parse (slice _ _ _)); [discriminate|].
    intros H. inversion H. now right.
  - intros H. inversion H. now left.
Qed.

Lemma generateSuggestions_array
    (generateContent : result (option candidate))
    (docsContext : list QueryResult) (response : value) :
  generateSuggestions generateContent docsContext = Ok response ->
  exists o l, response = JObject o /\ field o (js "suggestions") = JArray l.
Proof.
  unfold generateSuggestions.
  destruct generateContent as [[c|]|e]; cbn [bind]; try discriminate.
  unfold parse_and_enrich.
  destruct (parse_with_fallback (sanitize (extract_rawText c)))
    as [parsed|r] eqn:E.
  - intros H. unfold enrich in H.
    destruct parsed as [| | | | |x|o]; try discriminate.
    cbn [get_prop bind] in H.
    destruct (field o (js "suggestions")) as [| | | | |l|]; try discriminate.
    destruct (mapM (enrich_suggestion docsContext) l) as [l'|e];
      [|discriminate].
    cbn [bind] in H. inversion H; subst.
    eexists _, l'. split; [reflexivity|]. apply field_set_prop_same.
  - intros H. inversion H; subst.
    destruct (parse_with_fallback_returned _ _ E) as [-> | ->];
      eexists _, []; split; reflexivity.
Qed.

(** X9. Whenever generateSuggestions returns, the response is an object
    whose [suggestions] is an array, each element of which is an object
    that has the properties [start_line] and [end_line]: reading
    [response.suggestions.length] afterwards cannot throw. *)
Theorem generateSuggestions_response_shape
    (generateContent : result (option candidate))
    (docsContext : list QueryResult) (response : value) :
  generateSuggestions generateContent docsContext = Ok response ->
  exists o l,
    response = JObject o /\ field o (js "suggestions") = JArray l /\
    forall s, In s l ->
      exists o', s = JObject o' /\
                 In (js "start_line") (List.map fst o') /\
                 In (js "end_line") (List.map fst o').
Proof.
  unfold generateSuggestions.
  destruct generateContent as [[c|]|e]; cbn [bind]; try discriminate.
  unfold parse_and_enrich.
  destruct (parse_with_fallback (sanitize (extract_rawText c)))
    as [parsed|r] eqn:E.
  - intros H. unfold enrich in H.
    destruct parsed as [| | | | |x|o]; try discriminate.
    cbn [get_prop bind] in H.
    destruct (field o (js "suggestions")) as [| | | | |l|]; try discriminate.
    destruct (mapM (enrich_suggestion docsContext) l) as [l'|e] eqn:Em;
      [|discriminate].
    cbn [bind] in H. inversion H; subst.
    eexists _, l'. split; [reflexivity|].
    split; [apply field_set_prop_same|].
    apply (mapM_all _ _ _ _ Em). intros a b. apply enrich_suggestion_shape.
  - intros H. inversion H; subst.
    destruct (parse_with_fallback_returned _ _ E) as [-> | ->];
      eexists _, []; (split; [reflexivity|]); (split; [reflexivity|]);
      intros s [].
Qed.

Lemma parse_and_enrich_throws rawText docsContext e :
  parse_and_enrich rawText docsContext = Throw e -> e = TypeError.
Proof.
  unfold parse_and_enrich.
  destruct (parse_with_fallback (sanitize rawText)) as [parsed|r];
    [|discriminate].
  intros H. unfold enrich in H.
  destruct parsed as [| | | | |x|o]; cbn [get_prop bind] in H;
    try (inversion H; reflexivity).
  destruct (field o (js "suggestions")) as [| | | | |l|];
    try (inversion H; reflexivity).
  destruct (mapM (enrich_suggestion docsContext) l) as [l'|e'] eqn:Em;
    [discriminate|]. cbn [bind] in H. inversion H; subst.
  destruct (mapM_throws _ _ _ Em) as [s [_ Hs]].
  unfold enrich_suggestion in Hs.
  destruct (is_nullish s) eqn:Es.
  - rewrite (find_doc_nullish _ _ Es) in Hs.
    destruct docsContext; [destruct s; discriminate|]. now inversion Hs.
  - destruct (find_doc_value docsContext s Es) as [md [Hf _]].
    rewrite Hf in Hs. discriminate.
Qed.

(** X10. generateSuggestions rethrows what the model call throws, throws
    the error 'No response from Gemini' when the response has no candidate,
    and otherwise throws nothing but a TypeError: the SyntaxError of a
    failed JSON.parse never leaves it. *)
Theorem generateSuggestions_errors
    (generateContent : result (option candidate))
    (docsContext : list QueryResult) :
  (forall e, generateContent = Throw e ->
             generateSuggestions generateContent docsContext = Throw e) /\
  (generateContent = Ok None ->
   generateSuggestions generateContent docsContext
   = Throw (Error (js "No response from Gemini"))) /\
  (forall e,
     generateSuggestions generateContent docsContext = Throw e ->
     generateContent = Throw e \/
     (generateContent = Ok None /\ e = Error (js "No response from Gemini")) \/
     ((exists c, generateContent = Ok (Some c)) /\ e = TypeError)).
Proof.
  split; [now intros e ->|]. split; [now intros ->|].
  intros e H. destruct generateContent as [[c|]|e']; cbn in H.
  - right. right. split; [now exists c|].
    now apply (parse_and_enrich_throws _ _ _ H).
  - right. left. split; [reflexivity|]. now inversion H.
  - left. now inversion H.
Qed.

Lemma join_blank parts :
  (forall p, In p parts ->
     match p with Some t => forallb isWhiteSpace t = true | None => True end) ->
  forallb isWhiteSpace (join [LF] parts) = true.
Proof.
  induction parts as [|p parts IH]; intros H; [reflexivity|].
  assert (forallb isWhiteSpace (match p with Some s => s | None => [] end)
          = true) as Hp.
  { specialize (H p (or_introl eq_refl)). destruct p; [exact H|reflexivity]. }
  assert (forallb isWhiteSpace (join [LF] parts) = true) as Hr
    by (apply IH; intros q Hq; apply H; now right).
  destruct parts as [|q parts]; [exact Hp|].
  change (join [LF] (p :: q :: parts))
    with (match p with Some s => s | None => [] end
          ++ [LF] ++ join [LF] (q :: parts)).
  rewrite !forallb_app, Hp, Hr. reflexivity.
Qed.

Lemma trim_blank s : forallb isWhiteSpace s = true -> trim s = [].
Proof.
  intros H. unfold trim. now rewrite (trimStart_whitespace _ H).
Qed.

(** X11. A candidate without content, or whose parts have no text or only
    white space, is not an error: generateSuggestions returns the canonical
    'no valid response' object, whatever the context. *)
Theorem generateSuggestions_blank_answer
    (c : candidate) (docsContext : list QueryResult) :
  match c with
  | None => True
  | Some parts =>
      forall p, In p parts ->
        match p with
        | Some t => forallb isWhiteSpace t = true
        | None => True
        end
  end ->
  generateSuggestions (Ok (Some c)) docsContext = Ok no_valid_response.
Proof.
  intros H. unfold generateSuggestions. cbn [bind].
  assert (extract_rawText c = []) as ->.
  { destruct c as [parts|]; [|reflexivity]. simpl.
    apply trim_blank. now apply join_blank. }
  reflexivity.
Qed.

End Suggester.

(** ** queryPinecone *)

Section Pinecone.
Context `{Num : JSNumber}.

(** X13. In every record queryPinecone returns the [file] is not empty and
    each number is truthy or zero (a NaN or a zero of the response comes
    out as zero); a match that has all its fields, a non-empty [file] and
    truthy numbers comes out with exactly these fields. *)
Theorem queryPinecone_records
    (embedContent : result (option (list number)))
    (query : list number -> result (option (list ScoredMatch)))
    (results : list QueryResult) :
  queryPinecone embedContent query = Ok results ->
  (forall r, In r results ->
     file r <> [] /\
     (number_truthy (chunkIndex r) = true \/ chunkIndex r = number_zero) /\
     (number_truthy (startLine r) = true \/ startLine r = number_zero) /\
     (number_truthy (endLine r) = true \/ endLine r = number_zero) /\
     (number_truthy (score r) = true \/ score r = number_zero)) /\
  (forall f ci sl el tx sc emb matches i,
     embedContent = Ok (Some emb) -> query emb = Ok (Some matches) ->
     nth_error matches i
     = Some (mkScoredMatch
               (Some (mkMatchMetadata (Some f) (Some ci) (Some sl) (Some el)
                                      (Some tx)))
               (Some sc)) ->
     f <> [] -> number_truthy ci = true -> number_truthy sl = true ->
     number_truthy el = true -> number_truthy sc = true ->
     nth_error results i = Some (mkQueryResult f ci sl el tx sc)).
Proof.
  intros H. unfold queryPinecone in H.
  destruct embedContent as [[emb|]|e]; cbn [bind] in H; try discriminate.
  destruct (query emb) as [resp|e] eqn:Eq; cbn [bind] in H; [|discriminate].
  inversion H; subst. clear H. split.
  - intros r Hin. apply in_map_iff in Hin. destruct Hin as [m [<- _]].
    assert (forall x, number_truthy (or_number x number_zero) = true \/
                      or_number x number_zero = number_zero) as Hn.
    { intros [n|]; simpl; [|now right].
      destruct (number_truthy n) eqn:E; [now left|now right]. }
    unfold format_match; simpl. split; [|now repeat split].
    destruct (meta m md_file) as [[|c f]|]; discriminate.
  - intros f ci sl el tx sc emb' matches i He Hq Hi Hf H1 H2 H3 H4.
    inversion He; subst emb'. rewrite Eq in Hq. inversion Hq; subst resp.
    rewrite nth_error_map, Hi. simpl. unfold format_match, meta; simpl.
    rewrite H1, H2, H3, H4. destruct f; [contradiction|].
    now destruct tx.
Qed.

End Pinecone.

(** ** getInput, normalizeModelName, buildSearchQuery *)

Lemma starts_with_app p s : starts_with p (p ++ s) = true.
Proof. apply starts_with_spec. now exists s. Qed.

(** X14. For an input whose name is ASCII: getInput returns the action
    input when it is not empty, whatever the environment holds, and then
    the variable [INPUT_<NAME>] when that one is not empty; when the input
    is required it never returns the empty string, and it throws only then,
    only when the action input is empty, and with a message that names the
    input; when the input is not required it never throws. *)
Theorem getInput_outcomes (i : Inputs) (name : jsstring) (required : bool) :
  is_ascii name = true ->
  (core_getInput i name <> [] ->
   getInput i name required = Ok (core_getInput i name)) /\
  (forall c r,
     core_getInput i name = [] ->
     process_env i (envVarName name) = Some (c :: r) ->
     getInput i name required = Ok (c :: r)) /\
  (forall s, getInput i name true = Ok s -> s <> []) /\
  (forall e,
     getInput i name required = Throw e ->
     required = true /\ core_getInput i name = [] /\
     e = Error (js "Required input '" ++ name ++ js "' not provided")) /\
  (exists s, getInput i name false = Ok s).
Proof.
  intros _. unfold getInput. fold (envVarName name).
  destruct (core_getInput i name) as [|c0 r0] eqn:Ec.
  - split; [intros H; contradiction|].
    split; [intros c r _ ->; reflexivity|].
    destruct (or_else (process_env i (envVarName name))
                      (process_env i (toUpperCase name))) as [[|c r]|];
      (split; [intros s H; inversion H; discriminate|]);
      (split; [|eexists; reflexivity]);
      intros e H; destruct required; inversion H; repeat split.
  - split; [reflexivity|]. split; [discriminate|].
    split; [intros s H; inversion H; discriminate|].
    split; [discriminate|]. eexists. reflexivity.
Qed.

(** X15. The name normalizeModelName returns always starts with
    [models/]; it ends with the name given; and normalizing it again
    changes nothing. *)
Theorem normalizeModelName_prefixed (model : jsstring) :
  starts_with (js "models/") (normalizeModelName model) = true /\
  (exists prefix, normalizeModelName model = prefix ++ model) /\
  normalizeModelName (normalizeModelName model) = normalizeModelName model.
Proof.
  assert (starts_with (js "models/") (normalizeModelName model) = true) as H.
  { unfold normalizeModelName. destruct model as [|c r]; [reflexivity|].
    destruct (starts_with (js "models/") (c :: r)) eqn:E; [exact E|].
    apply starts_with_app. }
  split; [exact H|]. split.
  - unfold normalizeModelName. destruct model as [|c r].
    + eexists. now rewrite app_nil_r.
    + destruct (starts_with (js "models/") (c :: r)); [now exists []|].
      now exists (js "models/").
  - destruct (normalizeModelName model) as [|c r] eqn:E; [discriminate|].
    unfold normalizeModelName at 1. now rewrite H.
Qed.

Lemma slice_from_start s n :
  (0 <= n)%Z -> slice s 0 n = firstn (Z.to_nat n) s.
Proof.
  intros Hn. unfold slice.
  change (0 <? 0)%Z with false. cbv iota.
  destruct (n <? 0)%Z eqn:E; [apply Z.ltb_lt in E; lia|].
  pose proof (Zle_0_nat (length s)) as Hlen.
  rewrite (Z.min_l 0) by exact Hlen. cbn [Z.to_nat skipn]. rewrite Z.sub_0_r.
  destruct (Z.le_ge_cases n (Z.of_nat (length s))) as [H|H].
  - now rewrite Z.min_l by exact H.
  - rewrite Z.min_r by lia. rewrite Nat2Z.id.
    rewrite !firstn_all2; try reflexivity; lia.
Qed.

Lemma slice_200 c r :
  slice (c :: r) 0 200 <> [] /\ (length (slice (c :: r) 0 200) <= 200)%nat.
Proof.
  rewrite slice_from_start by lia. split.
  - change (Z.to_nat 200) with (S 199). simpl. discriminate.
  - rewrite length_firstn. lia.
Qed.

Section SearchQuery.
Context `{Num : JSNumber}.

Lemma buildSearchQuery_trace
    (responseText : result (option jsstring))
    (prTitle prBody : jsstring) (files : list PullFile) :
  fst (buildSearchQuery responseText prTitle prBody files)
  = [SearchQueryContent].
Proof.
  unfold buildSearchQuery, perform, andThen, done.
  destruct responseText as [answered|e]; [|reflexivity].
  now destruct (trim (or_empty answered)).
Qed.

Lemma buildSearchQuery_result
    (responseText : result (option jsstring))
    (prTitle prBody : jsstring) (files : list PullFile) :
  match responseText with
  | Throw e =>
      snd (buildSearchQuery responseText prTitle prBody files) = Throw e
  | Ok answered =>
      exists q,
        snd (buildSearchQuery responseText prTitle prBody files) = Ok q /\
        q <> [] /\ (length q <= 200)%nat
  end.
Proof.
  unfold buildSearchQuery, perform, andThen, done.
  destruct responseText as [answered|e]; [|reflexivity].
  destruct (trim (or_empty answered)) as [|c r].
  - match goal with
    | |- context [match ?f with [] => js "Documentation search for PR changes"
                              | _ => _ end] => destruct f as [|c r]
    end; simpl; eexists; (split; [reflexivity|]).
    + split; [vm_compute; discriminate|vm_compute; lia].
    + apply slice_200.
  - simpl. eexists. split; [reflexivity|]. apply slice_200.
Qed.

(** X16. buildSearchQuery issues exactly one model call; it throws only
    what that call throws; the query it returns is never empty and never
    longer than 200 code units, and it is the start of the trimmed answer
    when this one is not empty. *)
Theorem buildSearchQuery_query
    (responseText : result (option jsstring))
    (prTitle prBody : jsstring) (files : list PullFile) :
  fst (buildSearchQuery responseText prTitle prBody files)
  = [SearchQueryContent] /\
  match responseText with
  | Throw e =>
      snd (buildSearchQuery responseText prTitle prBody files) = Throw e
  | Ok answered =>
      exists q,
        snd (buildSearchQuery responseText prTitle prBody files) = Ok q /\
        q <> [] /\ (length q <= 200)%nat /\
        (trim (or_empty answered) <> [] ->
         q = firstn 200 (trim (or_empty answered)))
  end.
Proof.
  unfold buildSearchQuery, perform, andThen, done.
  destruct responseText as [answered|e]; [|split; reflexivity].
  destruct (trim (or_empty answered)) as [|c r] eqn:Et.
  - match goal with
    | |- context [match ?f with [] => js "Documentation search for PR changes"
                              | _ => _ end] => destruct f as [|c r] eqn:Ef
    end; simpl; (split; [reflexivity|]); eexists; (split; [reflexivity|]).
    + split; [vm_compute; discriminate|].
      split; [vm_compute; lia|]. intros H. contradiction.
    + destruct (slice_200 c r) as [H1 H2]. repeat split; try assumption.
      intros H. contradiction.
  - simpl. split; [reflexivity|]. eexists. split; [reflexivity|].
    destruct (slice_200 c r) as [H1 H2]. repeat split; try assumption.
    intros _. now rewrite slice_from_start by lia.
Qed.

End SearchQuery.

(** ** run *)

Section RunTrace.
Context `{Num : JSNumber}.

Lemma andThen_done_ok {A B : Type} (a : A) (k : A -> action B) :
  andThen (done (Ok a)) k = k a.
Proof. unfold andThen, done. now destruct (k a). Qed.

Lemma andThen_done_throw {A B : Type} e (k : A -> action B) :
  andThen (done (Throw e)) k = ([], Throw e).
Proof. reflexivity. Qed.

Lemma fst_andThen {A B : Type} (m : action A) (k : A -> action B) :
  fst (andThen m k)
  = fst m ++ match snd m with Ok a => fst (k a) | Throw _ => [] end.
Proof.
  destruct m as [t [a|e]]; simpl; [now destruct (k a)|now rewrite app_nil_r].
Qed.

Lemma snd_andThen {A B : Type} (m : action A) (k : A -> action B) :
  snd (andThen m k)
  = match snd m with Ok a => snd (k a) | Throw e => Throw e end.
Proof. destruct m as [t [a|e]]; simpl; [now destruct (k a)|reflexivity]. Qed.

Lemma run_trace fc mk i w :
  run fc mk i w
  = fst (run_body fc mk i w)
    ++ match snd (run_body fc mk i w) with
       | Ok _ => []
       | Throw e => failure_report i e
       end.
Proof.
  unfold run, tryCatch, failure_report, is_set.
  destruct (run_body fc mk i w) as [t [a|e]]; simpl.
  - now rewrite app_nil_r.
  - destruct (process_env i (js "GITHUB_ACTIONS")) as [[|c r]|]; reflexivity.
Qed.

(** Without its required inputs, or without a pull request number and a
    repository, the [try] block throws before any call; otherwise it is the
    steps of lines 131-231. *)
Lemma run_body_cases fc mk i w :
  (exists e, run_body fc mk i w = ([], Throw e)) \/
  ((forall name, In name required_inputs ->
      exists s, getInput i name true = Ok s) /\
   exists topK prNumber owner repoName,
     prNumber <> 0%Z /\
     run_body fc mk i w = run_steps fc mk i w topK prNumber owner repoName).
Proof.
  unfold run_body.
  destruct (getInput i (js "pinecone_api_key") true) as [a1|e] eqn:E1;
    [rewrite andThen_done_ok|left; now exists e].
  destruct (getInput i (js "pinecone_index") true) as [a2|e] eqn:E2;
    [rewrite andThen_done_ok|left; now exists e].
  destruct (getInput i (js "gemini_api_key") true) as [a3|e] eqn:E3;
    [rewrite andThen_done_ok|left; now exists e].
  destruct (getInput i (js "gemini_model") false) as [a4|e];
    [rewrite andThen_done_ok|left; now exists e].
  destruct (getInput i (js "github_token") true) as [a5|e] eqn:E5;
    [rewrite andThen_done_ok|left; now exists e].
  destruct (getInput i (js "top_k") false) as [a6|e];
    [rewrite andThen_done_ok|left; now exists e].
  destruct (getInput i (js "prompt_instruction") false) as [a7|e];
    [rewrite andThen_done_ok|left; now exists e].
  destruct (getInput i (js "pr_number") false) as [a8|e];
    [rewrite andThen_done_ok|left; now exists e].
  destruct (getInput i (js "repo") false) as [a9|e];
    [rewrite andThen_done_ok|left; now exists e].
  cbv zeta.
  assert (forall name, In name required_inputs ->
                       exists s, getInput i name true = Ok s) as Hreq.
  { intros name [<-|[<-|[<-|[<-|[]]]]]; eexists; eassumption. }
  destruct (parseInt _) as [[|p|p]|];
    try (left; eexists; reflexivity);
    (match goal with
     | |- context [match ?repo with [] => done _ | _ :: _ => _ end] =>
         destruct repo eqn:Erepo
     end; [left; eexists; reflexivity|right]);
    (split; [exact Hreq|]); eexists _, _, _, _;
    (split; [|reflexivity]); discriminate.
Qed.

Lemma andThen_ok {A B : Type} t (a : A) (k : A -> action B) :
  andThen (t, Ok a) k = (t ++ fst (k a), snd (k a)).
Proof. unfold andThen. now destruct (k a). Qed.

Lemma search_step rt t b files bq :
  tryCatch (buildSearchQuery rt t b files) (fun _ => done (Ok bq))
  = ([SearchQueryContent],
     Ok (match snd (buildSearchQuery rt t b files) with
         | Ok q => q
         | Throw _ => bq
         end)).
Proof.
  pose proof (buildSearchQuery_trace rt t b files) as Hf.
  destruct (buildSearchQuery rt t b files) as [tr r]. simpl in Hf. subst tr.
  destruct r; reflexivity.
Qed.

Lemma postComment_cases mk gh owner repo n body :
  postComment mk gh owner repo n body
  = match listComments gh with
    | Throw e => ([ListComments owner repo n], Throw e)
    | Ok comments =>
        match find (fun c => includes (comment_body c) mk) comments with
        | Some existing =>
            ([ListComments owner repo n;
              UpdateComment owner repo (comment_id existing) body],
             updateComment gh)
        | None =>
            ([ListComments owner repo n; CreateComment owner repo n body],
             createComment gh)
        end
    end.
Proof.
  unfold postComment, perform.
  destruct (listComments gh) as [comments|e]; [|reflexivity].
  rewrite andThen_ok. now destruct (find _ comments).
Qed.

(** Lines 131-231, stage by stage: where the steps stop, and what has
    been issued by then. *)
Lemma run_steps_unfolded fc mk i w topK n owner repoName :
  run_steps fc mk i w topK n owner repoName
  = match pulls_get w with
    | Throw e => ([PullsGet owner repoName n], Throw e)
    | Ok pr =>
    match pulls_listFiles w with
    | Throw e =>
        ([PullsGet owner repoName n; PullsListFiles owner repoName n],
         Throw e)
    | Ok files =>
    let pre :=
      [ PullsGet owner repoName n; PullsListFiles owner repoName n;
        SearchQueryContent;
        QueryPinecone (pineconeQueryText w pr files) topK ] in
    match queryPinecone (embedContent w) (index_query w) with
    | Throw e => (pre, Throw e)
    | Ok docsContext =>
    match generateSuggestions (generateContent w) docsContext with
    | Throw e => (pre ++ [GenerateSuggestions], Throw e)
    | Ok response =>
    match fc response with
    | Throw e => (pre ++ [GenerateSuggestions], Throw e)
    | Ok comment =>
    let post :=
      if is_true_string (process_env i (js "DRY_RUN")) then done (Ok tt)
      else postComment mk (transport w) owner repoName n comment in
    match snd post with
    | Throw e => (pre ++ GenerateSuggestions :: fst post, Throw e)
    | Ok _ =>
        (pre ++ GenerateSuggestions :: fst post
             ++ match response with
                | JObject o =>
                    match field o (js "suggestions") with
                    | JArray l => run_outputs o l
                    | _ => []
                    end
                | _ => []
                end,
         Ok tt)
    end end end end end end.
Proof.
  unfold run_steps, perform.
  destruct (pulls_get w) as [pr|e]; [|reflexivity].
  rewrite andThen_ok. cbn [fst snd].
  destruct (pulls_listFiles w) as [files|e]; [|reflexivity].
  rewrite andThen_ok. cbn [fst snd]. rewrite search_step.
  rewrite andThen_ok. cbn [fst snd].
  destruct (queryPinecone (embedContent w) (index_query w))
    as [docsContext|e]; [|reflexivity].
  rewrite andThen_ok. cbn [fst snd].
  destruct (generateSuggestions (generateContent w) docsContext)
    as [response|e] eqn:Eg; [|reflexivity].
  destruct (generateSuggestions_array _ _ _ Eg) as (o & l & -> & Hl).
  rewrite andThen_ok. cbn [fst snd].
  change (get_prop (JObject o) (js "suggestions"))
    with (Ok (field o (js "suggestions")) : result value).
  rewrite Hl. cbn [bind]. rewrite andThen_done_ok.
  destruct (fc (JObject o)) as [comment|e]; [|reflexivity].
  rewrite andThen_done_ok.
  destruct (if is_true_string (process_env i (js "DRY_RUN"))
            then done (Ok tt)
            else postComment mk (transport w) owner repoName n comment)
    as [tp [[]|e]]; reflexivity.
Qed.

(** The [try] block of run: reading the inputs, then the steps. *)
Lemma run_body_read fc mk i w :
  run_body fc mk i w
  = match run_inputs i with
    | Throw e => ([], Throw e)
    | Ok (topK, prNumber, owner, repoName) =>
        run_steps fc mk i w topK prNumber owner repoName
    end.
Proof.
  unfold run_body, run_inputs.
  destruct (getInput i (js "pinecone_api_key") true) as [a1|e];
    [rewrite andThen_done_ok; cbn [bind]|reflexivity].
  destruct (getInput i (js "pinecone_index") true) as [a2|e];
    [rewrite andThen_done_ok; cbn [bind]|reflexivity].
  destruct (getInput i (js "gemini_api_key") true) as [a3|e];
    [rewrite andThen_done_ok; cbn [bind]|reflexivity].
  destruct (getInput i (js "gemini_model") false) as [a4|e];
    [rewrite andThen_done_ok; cbn [bind]|reflexivity].
  destruct (getInput i (js "github_token") true) as [a5|e];
    [rewrite andThen_done_ok; cbn [bind]|reflexivity].
  destruct (getInput i (js "top_k") false) as [a6|e];
    [rewrite andThen_done_ok; cbn [bind]|reflexivity].
  destruct (getInput i (js "prompt_instruction") false) as [a7|e];
    [rewrite andThen_done_ok; cbn [bind]|reflexivity].
  destruct (getInput i (js "pr_number") false) as [a8|e];
    [rewrite andThen_done_ok; cbn [bind]|reflexivity].
  destruct (getInput i (js "repo") false) as [a9|e];
    [rewrite andThen_done_ok; cbn [bind]|reflexivity].
  cbv zeta.
  match goal with
  | |- context [match parseInt ?x with Some _ => _ | None => _ end] =>
      destruct (parseInt x) as [[|p|p]|]
  end; try reflexivity;
  match goal with
  | |- context [match ?repo with [] => done _ | _ :: _ => _ end] =>
      destruct repo
  end; reflexivity.
Qed.

Lemma firstn_nonempty {A : Type} (k : nat) (s : list A) :
  k <> 0%nat -> s <> [] -> firstn k s <> [].
Proof. destruct k, s; simpl; congruence. Qed.

Lemma baseQuery_bounds pr files :
  baseQuery pr files <> [] /\ (length (baseQuery pr files) <= 5000)%nat.
Proof.
  unfold baseQuery. rewrite slice_from_start by lia. split.
  - apply firstn_nonempty; [lia|].
    change (join [LF] (Some (title pr) :: Some (or_empty (body pr)) :: ?l))
      with (title pr ++ [LF] ++ join [LF] (Some (or_empty (body pr)) :: l)).
    destruct (title pr); discriminate.
  - rewrite length_firstn. lia.
Qed.

Lemma pineconeQueryText_bounds w pr files :
  pineconeQueryText w pr files <> [] /\
  (length (pineconeQueryText w pr files) <= 5000)%nat.
Proof.
  unfold pineconeQueryText.
  pose proof (buildSearchQuery_result (searchQuery_text w) (title pr)
                (or_empty (body pr)) files) as H.
  destruct (searchQuery_text w) as [answered|e].
  - destruct H as (q & -> & Hq & Hlen). split; [assumption|lia].
  - rewrite H. apply baseQuery_bounds.
Qed.

Ltac in_order :=
  cbn [List.map app fst snd stage];
  repeat first
    [ apply SSorted_nil
    | apply SSorted_cons
    | apply Forall_nil
    | apply Forall_cons; [vm_compute; lia|] ].

(** X17. When a required input is missing run makes no call to any
    collaborator: it only reports the failure, and exits when it does not
    run as a GitHub action. *)
Theorem run_without_required_input
    (formatComment : value -> result jsstring) (marker : jsstring)
    (i : Inputs) (w : World) (name : jsstring) (e : error) :
  In name required_inputs ->
  getInput i name true = Throw e ->
  exists e', run formatComment marker i w = failure_report i e'.
Proof.
  intros Hin He. rewrite run_trace.
  destruct (run_body_cases formatComment marker i w) as [[e' ->]|[Hreq _]].
  - now exists e'.
  - destruct (Hreq name Hin) as [s Hs]. congruence.
Qed.

(** X18. The calls of a run come in one fixed order, each kind at most
    once: pull request, files, search-query model call, Pinecone query,
    suggestion model call, comment listing, comment write, the two outputs,
    then the failure report and the exit. *)
Theorem run_calls_in_order
    (formatComment : value -> result jsstring) (marker : jsstring)
    (i : Inputs) (w : World) :
  StronglySorted lt (List.map stage (run formatComment marker i w)).
Proof.
  rewrite run_trace.
  destruct (run_body_cases formatComment marker i w)
    as [[e ->]|[_ (topK & n & owner & rn & _ & ->)]].
  - unfold failure_report.
    destruct (match process_env i (js "GITHUB_ACTIONS") with
              | Some (_ :: _) => true | _ => false end); in_order.
  - rewrite run_steps_unfolded. unfold failure_report.
    destruct (match process_env i (js "GITHUB_ACTIONS") with
              | Some (_ :: _) => true | _ => false end);
    (destruct (pulls_get w) as [pr|e1]; [|in_order]);
    (destruct (pulls_listFiles w) as [files|e2]; [|in_order]); cbv zeta;
    (destruct (queryPinecone _ _) as [docs|e3]; [|in_order]);
    (destruct (generateSuggestions _ docs) as [response|e4] eqn:Eg;
       [|in_order]);
    destruct (generateSuggestions_array _ _ _ Eg) as (o & l & -> & ->);
    (destruct (formatComment (JObject o)) as [comment|e5]; [|in_order]);
    (destruct (is_true_string _);
       [|rewrite postComment_cases;
         destruct (listComments (transport w)) as [comments|e6];
         [destruct (find _ comments);
          [destruct (updateComment (transport w)) as [[]|e7]
          |destruct (createComment (transport w)) as [[]|e7]]|]]);
    unfold run_outputs; in_order.
Qed.

Ltac run_cases fc mk i w :=
  rewrite run_trace, run_body_read;
  destruct (run_inputs i) as [[[[topK n] owner] repoName]|e0] eqn:Ei;
  [ rewrite run_steps_unfolded; cbv zeta;
    destruct (pulls_get w) as [pr|e1] eqn:Epr;
    [ destruct (pulls_listFiles w) as [files|e2] eqn:Efiles;
      [ destruct (queryPinecone (embedContent w) (index_query w))
          as [docs|e3] eqn:Eq;
        [ destruct (generateSuggestions (generateContent w) docs)
            as [response|e4] eqn:Eg;
          [ destruct (generateSuggestions_array _ _ _ Eg)
              as (o & l & -> & Hl);
            rewrite ?Hl;
            destruct (fc (JObject o)) as [comment|e5] eqn:Ef;
            [ destruct (is_true_string (process_env i (js "DRY_RUN")))
                eqn:Edry;
              [ | rewrite postComment_cases;
                  destruct (listComments (transport w))
                    as [comments|e6] eqn:El;
                  [ destruct (find (fun c => includes (comment_body c) mk)
                                   comments) as [existing|] eqn:Efind;
                    [ destruct (updateComment (transport w))
                        as [[]|e7] eqn:Ew
                    | destruct (createComment (transport w))
                        as [[]|e7] eqn:Ew ]
                  | ] ]
            | ]
          | ]
        | ]
      | ]
    | ]
  | ];
  cbn [fst snd app done]; unfold failure_report;
  destruct (match process_env i (js "GITHUB_ACTIONS") with
            | Some (_ :: _) => true
            | _ => false
            end).

(** X19. A run closes in exactly one of two ways, and only at its end:
    with the failure report, or with the two outputs, which are the number
    of suggestions and the impact level of the response that
    generateSuggestions returned.  No output is set before a failure, and
    nothing is reported after the outputs. *)
Theorem run_ends_with_report
    (formatComment : value -> result jsstring) (marker : jsstring)
    (i : Inputs) (w : World) :
  exists pre,
    Forall (fun c => is_closing c = false) pre /\
    ((exists e, run formatComment marker i w = pre ++ failure_report i e) \/
     (exists docsContext o l,
        queryPinecone (embedContent w) (index_query w) = Ok docsContext /\
        generateSuggestions (generateContent w) docsContext
        = Ok (JObject o) /\
        field o (js "suggestions") = JArray l /\
        run formatComment marker i w = pre ++ run_outputs o l)).
Proof.
  exists (filter (fun c => negb (is_closing c)) (run formatComment marker i w)).
  split.
  - apply Forall_forall. intros c Hc. apply filter_In in Hc.
    destruct Hc as [_ Hc]. now destruct (is_closing c).
  - run_cases formatComment marker i w;
      first [ left; eexists; reflexivity
            | right; exists docs, o, l; repeat split; try assumption;
              reflexivity ].
Qed.

Ltac pick Hin :=
  cbn [In app] in Hin;
  repeat (destruct Hin as [Hin|Hin]; [subst|]); try contradiction.

(** X20. A comment written by a run (with postComment as the
    specification gives it) has as its body [formatComment] of the
    response that generateSuggestions returned on the records of the
    Pinecone query; it is written only when the run is no dry run and the
    pull request, its files, the query, the suggestions, the formatting and
    the listing of the comments have all succeeded. *)
Theorem run_comment_is_formatted_response
    (formatComment : value -> result jsstring) (marker : jsstring)
    (i : Inputs) (w : World) (c : call) :
  In c (run formatComment marker i w) ->
  is_comment_write c = true ->
  is_true_string (process_env i (js "DRY_RUN")) = false /\
  exists pr files docsContext response body comments,
    pulls_get w = Ok pr /\ pulls_listFiles w = Ok files /\
    queryPinecone (embedContent w) (index_query w) = Ok docsContext /\
    generateSuggestions (generateContent w) docsContext = Ok response /\
    formatComment response = Ok body /\
    listComments (transport w) = Ok comments /\
    match find (fun x => includes (comment_body x) marker) comments with
    | Some existing =>
        exists owner repo,
          c = UpdateComment owner repo (comment_id existing) body
    | None =>
        exists owner repo prNumber,
          c = CreateComment owner repo prNumber body
    end.
Proof.
  run_cases formatComment marker i w; intros Hin Hw; pick Hin;
    try discriminate Hw;
    (split; [reflexivity|]);
    exists pr, files, docs, (JObject o), comment, comments;
    repeat (split; [first [reflexivity|assumption]|]);
    rewrite Efind; eauto.
Qed.

(** X21. In a dry run ([DRY_RUN] is [true]) the comment transport is
    never called, not even to list the comments, and the calls of the run
    depend neither on what the transport would answer nor on the marker. *)
Theorem run_dry_run_leaves_comments
    (formatComment : value -> result jsstring) (marker : jsstring)
    (i : Inputs) (w : World) :
  is_true_string (process_env i (js "DRY_RUN")) = true ->
  Forall (fun c => is_comment_call c = false)
         (run formatComment marker i w) /\
  forall marker' gh,
    run formatComment marker' i
        (mkWorld (pulls_get w) (pulls_listFiles w) (searchQuery_text w)
                 (embedContent w) (index_query w) (generateContent w) gh)
    = run formatComment marker i w.
Proof.
  intros Hdry. split.
  - run_cases formatComment marker i w; try congruence; repeat constructor.
  - intros marker' gh. rewrite !run_trace, !run_body_read.
    destruct (run_inputs i) as [[[[topK n] owner] repoName]|e0];
      [|reflexivity].
    rewrite !run_steps_unfolded. cbn [pulls_get pulls_listFiles embedContent
      index_query generateContent transport].
    rewrite !Hdry. reflexivity.
Qed.

(** X22. The text a run sends to Pinecone is what buildSearchQuery
    returned, or [baseQuery] when buildSearchQuery threw; it is never
    empty and has at most 5000 code units. *)
Theorem run_query_text
    (formatComment : value -> result jsstring) (marker : jsstring)
    (i : Inputs) (w : World) (q : jsstring) (k : option Z) :
  In (QueryPinecone q k) (run formatComment marker i w) ->
  q <> [] /\ (length q <= 5000)%nat /\
  exists pr files,
    pulls_get w = Ok pr /\ pulls_listFiles w = Ok files /\
    q = pineconeQueryText w pr files /\
    forall e, searchQuery_text w = Throw e -> q = baseQuery pr files.
Proof.
  assert (forall pr files,
            q = pineconeQueryText w pr files ->
            forall e, searchQuery_text w = Throw e -> q = baseQuery pr files)
    as Hbase.
  { intros pr files -> e He. unfold pineconeQueryText.
    pose proof (buildSearchQuery_result (searchQuery_text w) (title pr)
                  (or_empty (body pr)) files) as H.
    rewrite He in *. now rewrite H. }
  revert Hbase.
  run_cases formatComment marker i w; intros Hbase Hin; pick Hin;
    try discriminate Hin;
    injection Hin as <- <-;
    (split; [apply pineconeQueryText_bounds|]);
    (split; [apply pineconeQueryText_bounds|]);
    exists pr, files; repeat (split; [reflexivity|]); now apply Hbase.
Qed.

(** X23. A run reports no failure exactly when its inputs are valid and
    the pull request, its files, the Pinecone query, the suggestions, the
    formatting and, unless it is a dry run, the posting of the comment all
    succeed.  Whether the search-query model call succeeds plays no
    part. *)
Theorem run_completes_iff
    (formatComment : value -> result jsstring) (marker : jsstring)
    (i : Inputs) (w : World) :
  (forall e, ~ In (SetFailed e) (run formatComment marker i w)) <->
  exists topK prNumber owner repo pr files docsContext response body,
    run_inputs i = Ok (topK, prNumber, owner, repo) /\
    pulls_get w = Ok pr /\ pulls_listFiles w = Ok files /\
    queryPinecone (embedContent w) (index_query w) = Ok docsContext /\
    generateSuggestions (generateContent w) docsContext = Ok response /\
    formatComment response = Ok body /\
    (is_true_string (process_env i (js "DRY_RUN")) = true \/
     snd (postComment marker (transport w) owner repo prNumber body)
     = Ok tt).
Proof.
  split.
  - run_cases formatComment marker i w; intros H;
      try solve [exfalso; eapply H; cbn [In app];
                 repeat (first [left; reflexivity | right])];
      exists topK, n, owner, repoName, pr, files, docs, (JObject o), comment;
      repeat (split; [first [reflexivity|assumption]|]);
      first [ left; reflexivity
            | right; rewrite postComment_cases, El, Efind; exact Ew ].
  - intros (topK' & n' & owner' & repo' & pr' & files' & docs' & response'
            & body' & Hi & Hp & Hf & Hq & Hg & Hfc & Hpost) e Hin.
    revert Hin.
    run_cases formatComment marker i w; intros Hin; pick Hin;
      try discriminate Hin; try congruence;
      (destruct Hpost as [Hd|Hpost]; [congruence|]);
      rewrite postComment_cases in Hpost;
      assert (owner' = owner /\ repo' = repoName /\ n' = n /\ body' = comment)
        as (-> & -> & -> & ->) by (repeat split; congruence);
      rewrite El in Hpost; rewrite ?Efind in Hpost; cbn [snd] in Hpost;
      congruence.
Qed.

End RunTrace.

(** ** The inputs of a run *)

Lemma js_cons c s : js (String c s) = N_of_ascii c :: js s.
Proof. reflexivity. Qed.

Ltac digit_value :=
  match goal with
  | |- context [Z.of_N ?x] =>
      let v := eval vm_compute in (Z.of_N x) in change (Z.of_N x) with v
  end.

Lemma leading_digits_acc d : forall acc,
  fold_left (fun acc d => (acc * 10 + Z.of_N d)%Z)
            (leading_digits (js (NilEmpty.string_of_uint d))) (Z.pos acc)
  = Z.pos (Pos.of_uint_acc d acc).
Proof.
  induction d; intros acc; cbn [NilEmpty.string_of_uint Pos.of_uint_acc];
    [reflexivity|..]; rewrite js_cons; cbn [leading_digits];
    match goal with
    | |- context [isDigit ?c] => change (isDigit c) with true
    end; cbv iota; cbn [fold_left]; rewrite <- IHd; f_equal;
    vm_compute N_of_ascii; digit_value; lia.
Qed.

Lemma leading_digits_value d :
  fold_left (fun acc d => (acc * 10 + Z.of_N d)%Z)
            (leading_digits (js (NilEmpty.string_of_uint d))) 0%Z
  = Z.of_N (Pos.of_uint d).
Proof.
  induction d; cbn [NilEmpty.string_of_uint Pos.of_uint];
    [reflexivity|..]; rewrite js_cons; cbn [leading_digits];
    match goal with
    | |- context [isDigit ?c] => change (isDigit c) with true
    end; cbv iota; cbn [fold_left]; vm_compute N_of_ascii; digit_value;
    [exact IHd|..]; cbn [Z.mul Z.add Z.of_N]; apply leading_digits_acc.
Qed.

Lemma parseInt_digits c r :
  isDigit c = true ->
  parseInt (c :: r)
  = Some (fold_left (fun acc d => (acc * 10 + Z.of_N d)%Z)
                    (leading_digits (c :: r)) 0%Z) /\
  parseInt (45 :: c :: r)
  = Some (- fold_left (fun acc d => (acc * 10 + Z.of_N d)%Z)
                      (leading_digits (c :: r)) 0%Z)%Z.
Proof.
  intros Hc. unfold parseInt.
  change (trimStart (45 :: c :: r)) with (45 :: c :: r).
  assert (isWhiteSpace c = false) as Hw.
  { unfold isDigit in Hc. unfold isWhiteSpace.
    apply andb_true_iff in Hc. destruct Hc as [H1 H2].
    apply N.leb_le in H1, H2.
    repeat (apply orb_false_iff; split);
      try (apply N.eqb_neq; lia);
      apply andb_false_iff; [right|left]; apply N.leb_gt; lia. }
  cbn [trimStart]. rewrite Hw.
  assert ((c =? 45) = false /\ (c =? 43) = false) as [-> ->].
  { unfold isDigit in Hc. apply andb_true_iff in Hc. destruct Hc as [H1 H2].
    apply N.leb_le in H1, H2. split; apply N.eqb_neq; lia. }
  change (45 =? 45) with true. cbv iota.
  cbn [leading_digits]. rewrite Hc. split; reflexivity.
Qed.

Lemma uint_string_head d :
  d <> Decimal.Nil ->
  exists c r, js (NilEmpty.string_of_uint d) = c :: r /\ isDigit c = true.
Proof.
  destruct d; [contradiction|..]; intros _; cbn [NilEmpty.string_of_uint];
    rewrite js_cons; eexists _, _; split; reflexivity.
Qed.

Lemma to_uint_not_nil p : Pos.to_uint p <> Decimal.Nil.
Proof.
  intros H. pose proof (DecimalPos.Unsigned.of_to p) as E.
  rewrite H in E. discriminate.
Qed.

(** [parseInt(String(n), 10)] is [n], for the integers that a number holds
    exactly. *)
Lemma parseInt_String_of_Z n :
  (- MAX_SAFE_INTEGER <= n <= MAX_SAFE_INTEGER)%Z ->
  parseInt (String_of_Z n) = Some n.
Proof.
  intros _. unfold String_of_Z. destruct n as [|p|p]; [reflexivity|..];
    cbn [Z.to_int NilZero.string_of_int]; unfold NilZero.string_of_uint;
    pose proof (to_uint_not_nil p) as Hn;
    pose proof (DecimalPos.Unsigned.of_to p) as E;
    pose proof (leading_digits_value (Pos.to_uint p)) as Hv;
    destruct (uint_string_head _ Hn) as (c & r & Hs & Hc);
    destruct (parseInt_digits c r Hc) as [Hpos Hneg];
    destruct (Pos.to_uint p) eqn:Ed; try contradiction;
    rewrite ?js_cons; change (N_of_ascii "-") with 45;
    rewrite Hs; rewrite ?Hpos, ?Hneg; rewrite <- Hs, Hv, E; reflexivity.
Qed.

Lemma split_slash_plain s : forall current,
  ~ In 47 s -> split_slash s current = [current ++ s].
Proof.
  induction s as [|c s IH]; intros current Hs; cbn [split_slash].
  - now rewrite app_nil_r.
  - destruct (c =? 47) eqn:E.
    + apply N.eqb_eq in E. subst. exfalso. apply Hs. now left.
    + rewrite IH by (intros H; apply Hs; now right).
      now rewrite <- app_assoc.
Qed.

Lemma split_slash_first a b : forall current,
  ~ In 47 a ->
  split_slash (a ++ 47 :: b) current = (current ++ a) :: split_slash b [].
Proof.
  induction a as [|c a IH]; intros current Ha; cbn [split_slash app].
  - now rewrite app_nil_r.
  - destruct (c =? 47) eqn:E.
    + apply N.eqb_eq in E. subst. exfalso. apply Ha. now left.
    + rewrite IH by (intros H; apply Ha; now right).
      now rewrite <- app_assoc.
Qed.

Lemma getInput_optional i name : exists s, getInput i name false = Ok s.
Proof.
  unfold getInput. destruct (core_getInput i name); [|eauto].
  destruct (or_else _ _) as [[|c r]|]; eauto.
Qed.

(** X24. An event payload is enough to start a run: with the required
    inputs given, no [pr_number] and no [repo] input, the number [n] of the
    pull request of the payload, positive and at most 2^53 - 1 (so that it
    is held exactly and written with all its digits), and its repository
    name [owner/name], run reads the pull request [n] of [owner] and
    [name]; and [topK] is 5 when no [top_k] input is given. *)
Theorem run_inputs_from_payload
    (i : Inputs) (n : Z) (owner name : jsstring) :
  (forall x, In x required_inputs -> exists s, getInput i x true = Ok s) ->
  getInput i (js "pr_number") false = Ok [] ->
  getInput i (js "repo") false = Ok [] ->
  payload_pull_request_number i = Some n ->
  (0 < n <= MAX_SAFE_INTEGER)%Z ->
  payload_repository_full_name i = Some (owner ++ js "/" ++ name) ->
  ~ In 47 owner ->
  ~ In 47 name ->
  exists topK,
    run_inputs i = Ok (topK, n, owner, Some name) /\
    (getInput i (js "top_k") false = Ok [] -> topK = Some 5%Z).
Proof.
  intros Hreq Hpr Hrepo Hn Hpos Hfull Ho Hname. unfold run_inputs.
  destruct (Hreq (js "pinecone_api_key")) as [s1 ->]; [now left|].
  destruct (Hreq (js "pinecone_index")) as [s2 ->]; [right; now left|].
  destruct (Hreq (js "gemini_api_key")) as [s3 ->];
    [right; right; now left|].
  destruct (Hreq (js "github_token")) as [s5 ->];
    [right; right; right; now left|].
  destruct (getInput_optional i (js "gemini_model")) as [s4 ->].
  destruct (getInput_optional i (js "top_k")) as [s6 ->].
  destruct (getInput_optional i (js "prompt_instruction")) as [s7 ->].
  rewrite Hpr, Hrepo. cbn [bind]. cbv zeta. rewrite Hn, Hfull.
  cbn [or_empty].
  rewrite parseInt_String_of_Z by (unfold MAX_SAFE_INTEGER in *; lia).
  change (js "/" ++ name) with (47 :: name).
  destruct n as [|p|p]; try lia.
  destruct (owner ++ 47 :: name) eqn:E; [destruct owner; discriminate|].
  rewrite <- E, split_slash_first, split_slash_plain by assumption.
  cbn [nth nth_error app]. eexists. split; [reflexivity|].
  intros H. now inversion H.
Qed.

(** ** A clean answer *)

Section CleanAnswer.
Context `{Num : JSNumber}.

(** X25. A clean answer is decoded as it is: when the only part of the
    candidate is a JSON text that JSON.parse accepts, without triple
    backtick, between white space, generateSuggestions returns the
    enrichment of its value; no fence is looked for, nothing is escaped and
    no brace is searched. *)
Theorem generateSuggestions_decodes_clean_answer
    (w1 w2 : jsstring) (c : code_unit) (m : jsstring) (d : code_unit)
    (v : value) (docsContext : list QueryResult) :
  JSON_parse (c :: m ++ [d]) = Some v ->
  ~ contains (c :: m ++ [d]) FENCE ->
  isWhiteSpace c = false ->
  isWhiteSpace d = false ->
  forallb isWhiteSpace w1 = true ->
  forallb isWhiteSpace w2 = true ->
  sanitize (trim (w1 ++ (c :: m ++ [d]) ++ w2)) = c :: m ++ [d] /\
  generateSuggestions (Ok (Some (Some [Some (w1 ++ (c :: m ++ [d]) ++ w2)])))
                      docsContext
  = enrich v docsContext.
Proof.
  intros Hv Hf Hc Hd Hw1 Hw2.
  assert (trim (w1 ++ (c :: m ++ [d]) ++ w2) = c :: m ++ [d]) as Ht.
  { rewrite (trim_around w1 c m d w2 Hc Hd).
    rewrite (trimStart_whitespace _ Hw1), (trimEnd_whitespace _ Hw2).
    now rewrite app_nil_r. }
  apply not_contains_FENCE in Hf.
  destruct (JSON_parse_lexed _ _ Hv) as [toks Htoks].
  assert (sanitize (c :: m ++ [d]) = c :: m ++ [d]) as Hs.
  { unfold sanitize.
    rewrite (fence_match_none _ Hf), (remove_fences_none _ Hf).
    rewrite (trim_core c m d Hc Hd). now destruct (lexed_fixed _ _ Htoks). }
  split; [now rewrite Ht|].
  unfold generateSuggestions. cbn [bind]. unfold extract_rawText.
  cbn [join]. rewrite Ht. unfold parse_and_enrich, parse_with_fallback.
  rewrite Hs, (trim_core c m d Hc Hd), Hv. reflexivity.
Qed.

End CleanAnswer.

(** * More of the model on concrete inputs *)

Section ConcreteRuns.
Import Examples Runs.
#[local] Existing Instance literal_number.

(** C6 at a response between two sentences, each with a quoted word. *)
Lemma brace_extraction_recovers_witness :
  JSON_parse empty_set_json = Some empty_set /\
  ~ In LBRACE (jsq "Here is the 'result': ") /\
  position_after (jsq "Here is the 'result': ") = Outside /\
  ~ In RBRACE (jsq " That is 'all'.") /\
  ~ contains (jsq "Here is the 'result': " ++ empty_set_json
              ++ jsq " That is 'all'.") FENCE /\
  JSON_parse (trim (sanitize (jsq "Here is the 'result': " ++ empty_set_json
                              ++ jsq " That is 'all'."))) = None /\
  parse_with_fallback
    (sanitize (jsq "Here is the 'result': " ++ empty_set_json
               ++ jsq " That is 'all'."))
  = Parsed empty_set.
Proof.
  assert (JSON_parse empty_set_json = Some empty_set) as H1
    by (vm_compute; reflexivity).
  assert (~ In LBRACE (jsq "Here is the 'result': ")) as H2
    by (apply not_In_by_test; vm_compute; reflexivity).
  assert (position_after (jsq "Here is the 'result': ") = Outside) as H3
    by (vm_compute; reflexivity).
  assert (~ In RBRACE (jsq " That is 'all'.")) as H4
    by (apply not_In_by_test; vm_compute; reflexivity).
  assert (~ contains (jsq "Here is the 'result': " ++ empty_set_json
                      ++ jsq " That is 'all'.") FENCE) as H5
    by (apply not_contains_by_test; vm_compute; reflexivity).
  assert (JSON_parse (trim (sanitize (jsq "Here is the 'result': "
                                      ++ empty_set_json
                                      ++ jsq " That is 'all'."))) = None) as H6
    by (vm_compute; reflexivity).
  repeat (split; [assumption|]).
  destruct brace_extraction_recovers as (_ & _ & H).
  exact (proj1 (H (jsq "Here is the 'result': ") empty_set_inside
                  (jsq " That is 'all'.") empty_set test_docsContext
                  H1 H2 (or_introl H3) H4 H5 H6)).
Defined.

(** The condition of C6 on the double quotes is needed: after prose with
    one double quote the scanner is inside a literal when it reaches the
    object, the line breaks between the members of the object are escaped,
    and the response is lost.  The same object on one line is recovered. *)
Example odd_quote_loses_response :
  JSON_parse (LBRACE :: (LF :: empty_set_inside ++ [LF]) ++ [RBRACE])
  = Some empty_set /\
  ~ In LBRACE (jsq "The 12' draft: ") /\
  position_after (jsq "The 12' draft: ") = InString /\
  parse_with_fallback
    (sanitize (jsq "The 12' draft: "
               ++ LBRACE :: (LF :: empty_set_inside ++ [LF]) ++ [RBRACE]))
  = Returned parsing_error_response /\
  parse_with_fallback (sanitize (jsq "The 12' draft: " ++ empty_set_json))
  = Parsed empty_set.
Proof.
  repeat split; try (vm_compute; reflexivity).
  apply not_In_by_test. vm_compute. reflexivity.
Qed.

(** C7 at a response in a fence tagged JSON, after prose with inline code
    and before more prose. *)
Lemma fenced_json_recovered_witness :
  JSON_parse empty_set_json = Some empty_set /\
  ~ contains empty_set_json FENCE /\
  ~ contains (js "For `docs/a.md`: ") FENCE /\
  last (js "For `docs/a.md`: ") SPACE <> BACKTICK /\
  json_tag (js "JSON") = Some [] /\
  forallb isWhiteSpace [LF] = true /\
  parse_with_fallback
    (sanitize (js "For `docs/a.md`: " ++ FENCE ++ js "JSON" ++ [LF]
               ++ empty_set_json ++ [LF] ++ FENCE ++ js " Anything else?"))
  = Parsed empty_set.
Proof.
  assert (JSON_parse empty_set_json = Some empty_set) as H1
    by (vm_compute; reflexivity).
  assert (~ contains empty_set_json FENCE) as H2
    by (apply not_contains_by_test; vm_compute; reflexivity).
  assert (~ contains (js "For `docs/a.md`: ") FENCE) as H3
    by (apply not_contains_by_test; vm_compute; reflexivity).
  assert (last (js "For `docs/a.md`: ") SPACE <> BACKTICK) as H3'
    by (vm_compute; discriminate).
  assert (json_tag (js "JSON") = Some []) as H4 by (vm_compute; reflexivity).
  assert (forallb isWhiteSpace [LF] = true) as H5 by (vm_compute; reflexivity).
  repeat (split; [assumption|]).
  destruct fenced_json_recovered as (_ & _ & _ & H).
  exact (proj1 (proj2 (H (js "For `docs/a.md`: ") (js "JSON") [LF]
                         empty_set_inside [LF] (js " Anything else?")
                         empty_set test_docsContext
                         H1 H2 H3 H3' (or_intror H4) H5 H5))).
Defined.

(** X2 at a literal with a line break: the break becomes a backslash and
    the letter n. *)
Lemma escaper_output_has_no_raw_break_witness :
  escapeNewlinesInStrings (jsq "'a" ++ LF :: jsq "b'")
  = jsq "'a" ++ BACKSLASH :: jsq "nb'" /\
  position_after (jsq "'a") = InString /\
  BACKSLASH <> LF /\ BACKSLASH <> CR.
Proof.
  assert (escapeNewlinesInStrings (jsq "'a" ++ LF :: jsq "b'")
          = jsq "'a" ++ BACKSLASH :: jsq "nb'") as H1
    by (vm_compute; reflexivity).
  assert (position_after (jsq "'a") = InString) as H2
    by (vm_compute; reflexivity).
  split; [exact H1|]. split; [exact H2|].
  exact (escaper_output_has_no_raw_break _ _ _ _ H1 H2).
Defined.

(** X3 at two lines of prose without a double quote. *)
Lemma escaper_unchanged_witness :
  ~ In DQUOTE (js "line one" ++ LF :: js "line two") /\
  escapeNewlinesInStrings (js "line one" ++ LF :: js "line two")
  = js "line one" ++ LF :: js "line two".
Proof.
  assert (~ In DQUOTE (js "line one" ++ LF :: js "line two")) as H
    by (apply not_In_by_test; vm_compute; reflexivity).
  split; [exact H|].
  exact (escaper_unchanged _ (or_introl H)).
Defined.

(** X5 at a fenced block tagged json. *)
Lemma fence_match_captures_witness :
  fence_match (js "```json" ++ LF :: js "{}" ++ LF :: js "``` Done.")
  = Some (js "{}" ++ [LF]) /\
  exists a tag w b,
    js "```json" ++ LF :: js "{}" ++ LF :: js "``` Done."
    = a ++ FENCE ++ tag ++ w ++ (js "{}" ++ [LF]) ++ FENCE ++ b /\
    ~ contains (a ++ [BACKTICK; BACKTICK]) FENCE /\
    (tag = [] \/ json_tag tag = Some []) /\
    forallb isWhiteSpace w = true /\
    (forall c r, js "{}" ++ [LF] = c :: r -> isWhiteSpace c = false) /\
    ~ contains ((js "{}" ++ [LF]) ++ [BACKTICK; BACKTICK]) FENCE.
Proof.
  assert (fence_match (js "```json" ++ LF :: js "{}" ++ LF :: js "``` Done.")
          = Some (js "{}" ++ [LF])) as H by (vm_compute; reflexivity).
  split; [exact H|].
  exact (fence_match_captures _ _ H).
Defined.

(** C7 on a fence that is not closed: the whole text is used, the tag
    included, and the response is found between its braces. *)
Example unclosed_fence_uses_whole_text :
  fence_match (js "```json" ++ LF :: empty_set_json) = None /\
  sanitize (js "```json" ++ LF :: empty_set_json)
  = js "json" ++ LF :: empty_set_json /\
  parse_with_fallback (sanitize (js "```json" ++ LF :: empty_set_json))
  = Parsed empty_set.
Proof. repeat split; vm_compute; reflexivity. Qed.

(** X8 at the response for [docs/a.md]. *)
Lemma enrich_lines_come_from_context_witness :
  exists response,
    enrich (JObject response_a) docs_a = Ok response /\
    exists o l l',
      JObject response_a = JObject o /\
      field o (js "suggestions") = JArray l /\
      response = JObject (set_prop (js "suggestions") (JArray l') o) /\
      length l' = length l /\
      forall i s, nth_error l i = Some s ->
        exists o',
          nth_error l' i = Some (JObject o') /\
          (forall k, k <> js "start_line" -> k <> js "end_line" ->
             field o' k = field (spread s) k) /\
          ((field o' (js "start_line") = JUndefined /\
            field o' (js "end_line") = JUndefined) \/
           exists d,
             In d docs_a /\
             get_prop s (js "target_file") = Ok (JString (file d)) /\
             field o' (js "start_line") = JNumber (startLine d) /\
             field o' (js "end_line") = JNumber (endLine d)).
Proof.
  eexists. split; [vm_compute; reflexivity|].
  apply (enrich_lines_come_from_context (JObject response_a) _ docs_a).
  vm_compute. reflexivity.
Defined.

(** X9 at the answer of the test of generateSuggestions. *)
Lemma generateSuggestions_response_shape_witness :
  generateSuggestions (Ok (Some (Some [Some test_rawText]))) test_docsContext
  = Ok (test_response
          [test_suggestion (JNumber (js "10")) (JNumber (js "20"))]) /\
  exists o l,
    test_response [test_suggestion (JNumber (js "10")) (JNumber (js "20"))]
    = JObject o /\
    field o (js "suggestions") = JArray l /\
    forall s, In s l ->
      exists o', s = JObject o' /\
                 In (js "start_line") (List.map fst o') /\
                 In (js "end_line") (List.map fst o').
Proof.
  assert (generateSuggestions (Ok (Some (Some [Some test_rawText])))
                              test_docsContext
          = Ok (test_response
                  [test_suggestion (JNumber (js "10")) (JNumber (js "20"))]))
    as H by (vm_compute; reflexivity).
  split; [exact H|].
  exact (generateSuggestions_response_shape _ _ _ H).
Defined.

(** X11 at a candidate with a missing text, blanks and a line feed. *)
Lemma generateSuggestions_blank_answer_witness :
  generateSuggestions (Ok (Some (Some [None; Some (js "  "); Some [LF]])))
                      test_docsContext
  = Ok no_valid_response.
Proof.
  apply (generateSuggestions_blank_answer
           (Some [None; Some (js "  "); Some [LF]]) test_docsContext).
  intros p [<-|[<-|[<-|[]]]]; [exact I|reflexivity|reflexivity].
Defined.

(** X13 at a response with one match that has neither metadata nor
    score. *)
Lemma queryPinecone_records_witness :
  queryPinecone test_embedding bare_query = Ok [unknown_record] /\
  forall r, In r [unknown_record] ->
    file r <> [] /\
    (number_truthy (chunkIndex r) = true \/ chunkIndex r = number_zero) /\
    (number_truthy (startLine r) = true \/ startLine r = number_zero) /\
    (number_truthy (endLine r) = true \/ endLine r = number_zero) /\
    (number_truthy (score r) = true \/ score r = number_zero).
Proof.
  assert (queryPinecone test_embedding bare_query = Ok [unknown_record]) as H
    by (vm_compute; reflexivity).
  split; [exact H|].
  exact (proj1 (queryPinecone_records _ _ _ H)).
Defined.

(** X14 at the token of the test run. *)
Lemma getInput_outcomes_witness :
  is_ascii (js "github_token") = true /\
  (core_getInput test_inputs (js "github_token") <> [] ->
   getInput test_inputs (js "github_token") true
   = Ok (core_getInput test_inputs (js "github_token"))) /\
  (forall c r,
     core_getInput test_inputs (js "github_token") = [] ->
     process_env test_inputs (envVarName (js "github_token"))
     = Some (c :: r) ->
     getInput test_inputs (js "github_token") true = Ok (c :: r)) /\
  (forall s, getInput test_inputs (js "github_token") true = Ok s ->
             s <> []) /\
  (forall e,
     getInput test_inputs (js "github_token") true = Throw e ->
     true = true /\ core_getInput test_inputs (js "github_token") = [] /\
     e = Error (js "Required input '" ++ js "github_token"
                ++ js "' not provided")) /\
  (exists s, getInput test_inputs (js "github_token") false = Ok s).
Proof.
  split; [reflexivity|].
  apply (getInput_outcomes test_inputs (js "github_token") true).
  reflexivity.
Defined.

(** X17 at a run without any input. *)
Lemma run_without_required_input_witness :
  In (js "pinecone_api_key") required_inputs /\
  getInput no_inputs (js "pinecone_api_key") true
  = Throw (Error (js "Required input 'pinecone_api_key' not provided")) /\
  exists e',
    run test_formatComment test_marker no_inputs answering_world
    = failure_report no_inputs e'.
Proof.
  assert (In (js "pinecone_api_key") required_inputs) as H1
    by (left; reflexivity).
  assert (getInput no_inputs (js "pinecone_api_key") true
          = Throw (Error (js "Required input 'pinecone_api_key' not provided")))
    as H2 by (vm_compute; reflexivity).
  split; [exact H1|]. split; [exact H2|].
  exact (run_without_required_input test_formatComment test_marker no_inputs
           answering_world _ _ H1 H2).
Defined.

(** X20 at the run where every collaborator answers: the comment 42 is
    updated with the formatted response. *)
Lemma run_comment_is_formatted_response_witness :
  In (UpdateComment (js "owner") (Some (js "repo")) 42 test_comment)
     (run test_formatComment test_marker test_inputs answering_world) /\
  is_true_string (process_env test_inputs (js "DRY_RUN")) = false /\
  exists pr files docsContext response body comments,
    pulls_get answering_world = Ok pr /\
    pulls_listFiles answering_world = Ok files /\
    queryPinecone (embedContent answering_world) (index_query answering_world)
    = Ok docsContext /\
    generateSuggestions (generateContent answering_world) docsContext
    = Ok response /\
    test_formatComment response = Ok body /\
    listComments (transport answering_world) = Ok comments /\
    match find (fun x => includes (comment_body x) test_marker) comments with
    | Some existing =>
        exists owner repo,
          UpdateComment (js "owner") (Some (js "repo")) 42 test_comment
          = UpdateComment owner repo (comment_id existing) body
    | None =>
        exists owner repo prNumber,
          UpdateComment (js "owner") (Some (js "repo")) 42 test_comment
          = CreateComment owner repo prNumber body
    end.
Proof.
  assert (In (UpdateComment (js "owner") (Some (js "repo")) 42 test_comment)
             (run test_formatComment test_marker test_inputs answering_world))
    as H by (vm_compute; repeat (first [left; reflexivity | right])).
  split; [exact H|].
  exact (run_comment_is_formatted_response test_formatComment test_marker
           test_inputs answering_world _ H eq_refl).
Defined.

(** X21 at the same run, as a dry run. *)
Lemma run_dry_run_leaves_comments_witness :
  is_true_string (process_env dry_run_inputs (js "DRY_RUN")) = true /\
  Forall (fun c => is_comment_call c = false)
         (run test_formatComment test_marker dry_run_inputs answering_world).
Proof.
  assert (is_true_string (process_env dry_run_inputs (js "DRY_RUN")) = true)
    as H by (vm_compute; reflexivity).
  split; [exact H|].
  exact (proj1 (run_dry_run_leaves_comments test_formatComment test_marker
                  dry_run_inputs answering_world H)).
Defined.

(** X22 at the run where the search-query call answers. *)
Lemma run_query_text_witness :
  In (QueryPinecone (js "guide updates") (Some 5%Z))
     (run test_formatComment test_marker test_inputs answering_world) /\
  js "guide updates" <> [] /\ (length (js "guide updates") <= 5000)%nat /\
  exists pr files,
    pulls_get answering_world = Ok pr /\
    pulls_listFiles answering_world = Ok files /\
    js "guide updates" = pineconeQueryText answering_world pr files /\
    forall e, searchQuery_text answering_world = Throw e ->
              js "guide updates" = baseQuery pr files.
Proof.
  assert (In (QueryPinecone (js "guide updates") (Some 5%Z))
             (run test_formatComment test_marker test_inputs answering_world))
    as H by (vm_compute; repeat (first [left; reflexivity | right])).
  split; [exact H|].
  exact (run_query_text test_formatComment test_marker test_inputs
           answering_world _ _ H).
Defined.

(** X24 at the pull request 7 of [owner/repo], from the payload. *)
Lemma run_inputs_from_payload_witness :
  exists topK,
    run_inputs payload_inputs = Ok (topK, 7%Z, js "owner", Some (js "repo")) /\
    (getInput payload_inputs (js "top_k") false = Ok [] -> topK = Some 5%Z).
Proof.
  apply (run_inputs_from_payload payload_inputs 7 (js "owner") (js "repo")).
  - intros x [<-|[<-|[<-|[<-|[]]]]]; eexists; reflexivity.
  - reflexivity.
  - reflexivity.
  - reflexivity.
  - unfold MAX_SAFE_INTEGER. lia.
  - reflexivity.
  - apply not_In_by_test. vm_compute. reflexivity.
  - apply not_In_by_test. vm_compute. reflexivity.
Defined.

(** X25 at the response without suggestions, between line feeds. *)
Lemma generateSuggestions_decodes_clean_answer_witness :
  sanitize (trim ([LF] ++ empty_set_json ++ [LF; SPACE])) = empty_set_json /\
  generateSuggestions
    (Ok (Some (Some [Some ([LF] ++ empty_set_json ++ [LF; SPACE])])))
    test_docsContext
  = enrich empty_set test_docsContext.
Proof.
  apply (generateSuggestions_decodes_clean_answer
           [LF] [LF; SPACE] LBRACE empty_set_inside RBRACE empty_set
           test_docsContext).
  - vm_compute. reflexivity.
  - apply not_contains_by_test. vm_compute. reflexivity.
  - reflexivity.
  - reflexivity.
  - reflexivity.
  - reflexivity.
Defined.

End ConcreteRuns.
